(** * Data merging notebook: consumption/tariff and weather pipelines

    Shallow embedding of [code/1) Data Merging.ipynb].  Every notebook cell
    that transforms a table becomes a function on lists of rows, named after
    the variable the cell assigns.

    Modelling conventions
    - a [datetime64] value is the number of seconds since 1970-01-01 00:00:00
      (the notebook never looks below one second);
    - a float cell is an [option Q]: [None] is NaN (a null), [Some q] a finite
      reading.  Arithmetic on readings is exact rational arithmetic, binary64
      rounding is not modelled; the two numeric scenarios of the
      specification are also evaluated in binary64;
    - a DataFrame is the list of its rows, in row order;
    - [groupby] yields one entry per distinct key, keys in ascending order;
    - [sort_index] on the weather table is pandas' default [kind='quicksort'],
      which does not promise any order between rows with equal labels: the
      weather pipeline takes the sort as a parameter, and its theorems assume
      only that the result is an ordered permutation of the argument.  The
      sort pandas and numpy run is embedded as well ([pandas_sort_index]),
      to evaluate the pipeline on concrete files;
    - a run of the weather cells that stops on an exception is [None].  The
      consumption and tariff tables are typed: their [GMT] column holds
      timestamps, as it does for a file that has a row. *)

From Stdlib Require Import ZArith QArith String List Bool Lia Permutation Sorted.
From Stdlib Require Import PrimFloat Lqa.
Import ListNotations.
Open Scope Z_scope.

(* ================================================================== *)
(** * Part I: the embedding *)
(* ================================================================== *)

(** ** Timestamps *)

Definition datetime64 := Z.

Definition SECONDS_PER_HOUR : Z := 3600.
Definition SECONDS_PER_DAY : Z := 86400.

(** [pd.Timedelta(minutes=n)] and [pd.Timedelta(hours=n)]. *)
Definition Timedelta_minutes (n : Z) : Z := 60 * n.
Definition Timedelta_hours (n : Z) : Z := SECONDS_PER_HOUR * n.

Definition is_leapyear (y : Z) : bool :=
  (y mod 4 =? 0) && (negb (y mod 100 =? 0) || (y mod 400 =? 0)).

Definition days_before_year (y : Z) : Z :=
  let p := y - 1 in
  365 * (y - 1970) + (p / 4 - 1969 / 4) - (p / 100 - 1969 / 100)
  + (p / 400 - 1969 / 400).

Definition days_per_month (leap : bool) : list Z :=
  [31; if leap then 29 else 28; 31; 30; 31; 30; 31; 31; 30; 31; 30; 31].

Definition days_before_month (y m : Z) : Z :=
  fold_right Z.add 0 (firstn (Z.to_nat (m - 1)) (days_per_month (is_leapyear y))).

(** [pd.Timestamp(y, m, d, hh, mm, ss)]; also what parsing the text
    ['y-m-d hh:mm:ss'] gives. *)
Definition Timestamp (y m d hh mm ss : Z) : datetime64 :=
  (days_before_year y + days_before_month y m + (d - 1)) * SECONDS_PER_DAY
  + hh * SECONDS_PER_HOUR + mm * 60 + ss.

(** The year of a day number, by 400/100/4/1-year cycles counted from
    2000-01-01 as the datetime library does.  [Z.div] and [Z.modulo] round
    towards minus infinity, which is the library's adjustment for days before
    2000. *)
Definition days_to_year (d : Z) : Z :=
  let days := d - (365 * 30 + 7) in
  let c400 := 400 * 365 + 100 - 4 + 1 in
  let year := 400 * (days / c400) in
  let days := days mod c400 in
  if 366 <=? days then
    let year := year + 100 * ((days - 1) / (100 * 365 + 25 - 1)) in
    let days := (days - 1) mod (100 * 365 + 25 - 1) in
    if 365 <=? days then
      let year := year + 4 * ((days + 1) / (4 * 365 + 1)) in
      let days := (days + 1) mod (4 * 365 + 1) in
      if 366 <=? days then year + (days - 1) / 365 + 2000
      else year + 2000
    else year + 2000
  else year + 2000.

(** [.dt.year] *)
Definition dt_year (t : datetime64) : Z := days_to_year (t / SECONDS_PER_DAY).

(** [.dt.floor('H')] *)
Definition dt_floor_H (t : datetime64) : datetime64 :=
  (t / SECONDS_PER_HOUR) * SECONDS_PER_HOUR.

(** ** Float cells *)

Definition isnull (v : option Q) : bool :=
  match v with None => true | Some _ => false end.

(** The result of dividing two counts: pandas gives a finite float, [inf]
    for [n / 0] with [n > 0], and NaN for [0 / 0]. *)
Inductive ratio : Type :=
| Finite (q : Q)
| Inf
| NaN.

Definition count_div (m n : Z) : ratio :=
  if n =? 0 then (if m =? 0 then NaN else Inf)
  else Finite (inject_Z m / inject_Z n)%Q.

Definition ratio_mul (r : ratio) (k : Q) : ratio :=
  match r with
  | Finite q => Finite (q * k)%Q
  | Inf => Inf
  | NaN => NaN
  end.

(** [r > k]: false on NaN, true on [inf]. *)
Definition ratio_gt (r : ratio) (k : Q) : bool :=
  match r with
  | Finite q => negb (Qle_bool q k)
  | Inf => true
  | NaN => false
  end.

(** Sum and mean of a float column as [groupby(...).sum()] and
    [groupby(...).mean()] compute them: nulls are skipped, the sum of no
    value is 0 and the mean of no value is NaN. *)
Definition sum_skipna (l : list (option Q)) : Q :=
  fold_left (fun acc v => match v with Some q => acc + q | None => acc end)%Q l 0%Q.

Definition count_notnull (l : list (option Q)) : Z :=
  Z.of_nat (length (filter (fun v => negb (isnull v)) l)).

Definition mean_skipna (l : list (option Q)) : option Q :=
  if count_notnull l =? 0 then None
  else Some (sum_skipna l / inject_Z (count_notnull l))%Q.

(** The sum of a column and the mean of two cells in binary64, for the
    numeric scenarios. *)
Definition sum_binary64 (l : list float) : float :=
  fold_left PrimFloat.add l 0%float.

Definition mean2_binary64 (x y : float) : float := ((x + y) / 2)%float.

(** ** Sorting *)

Section Sorting.
Context {A : Type} (leb : A -> A -> bool).

Fixpoint insert_sorted (x : A) (l : list A) : list A :=
  match l with
  | [] => [x]
  | y :: l' => if leb x y then x :: l else y :: insert_sorted x l'
  end.

(** Insertion sort; rows with equal keys keep their relative order. *)
Definition stable_sort (l : list A) : list A :=
  fold_right insert_sorted [] l.
End Sorting.

(** ** Consumption and tariff tables *)

Definition household := string.

(** A row of [tariff_d.csv]. *)
Record tariff_row : Type := {
  tariff_GMT : datetime64;
  Price : option Q
}.

(** [consumption_d.csv] is wide: a [GMT] column and one column per
    household.  [wide_columns] are the household column names in file order,
    [wide_cells] of a row holds that row's cell for each of them. *)
Record wide_row : Type := {
  wide_GMT : datetime64;
  wide_cells : list (option Q)
}.

Record wide_table : Type := {
  wide_columns : list household;
  wide_rows : list wide_row
}.

(** A row of the long (melted) consumption table. *)
Record reading : Type := {
  GMT : datetime64;
  household_id : household;
  consumption : option Q
}.

(** *** Cell 2: filter data for 2013 *)

Definition tariff_data_filtered (tariff_data : list tariff_row) : list tariff_row :=
  filter (fun r => dt_year (tariff_GMT r) =? 2013) tariff_data.

Definition consumption_data_filtered (consumption_data : wide_table) : wide_table :=
  {| wide_columns := wide_columns consumption_data;
     wide_rows :=
       filter (fun r => (dt_year (wide_GMT r) =? 2013)
                        && negb (wide_GMT r =? Timestamp 2013 1 1 0 0 0))
              (wide_rows consumption_data) |}.

(** *** Cell 3: long format and households with too many missing values *)

Definition enumerate {A : Type} (l : list A) : list (nat * A) :=
  combine (seq 0 (length l)) l.

(** [melt(id_vars=['GMT'], var_name='household_id', value_name='consumption')]:
    the columns one after the other, each with all the rows. *)
Definition melt (w : wide_table) : list reading :=
  flat_map (fun jh : nat * household =>
              map (fun r => {| GMT := wide_GMT r;
                               household_id := snd jh;
                               consumption := nth (fst jh) (wide_cells r) None |})
                  (wide_rows w))
           (enumerate (wide_columns w)).

Definition consumption_melted (consumption_data : wide_table) : list reading :=
  melt (consumption_data_filtered consumption_data).

Definition of_household (h : household) (r : reading) : bool :=
  String.eqb (household_id r) h.

(** The size of a group: its rows are counted whether or not the reading is
    null. *)
Definition group_count (h : household) (t : list reading) : Z :=
  Z.of_nat (length (filter (of_household h) t)).

(** [groupby('household_id').size()]: the distinct ids in ascending order,
    each with its number of rows. *)
Definition groupby_size (t : list reading) : list (household * Z) :=
  map (fun h => (h, group_count h t))
      (stable_sort String.leb (nodup string_dec (map household_id t))).

Fixpoint lookup {B : Type} (h : household) (s : list (household * B)) : option B :=
  match s with
  | [] => None
  | (k, v) :: s' => if String.eqb k h then Some v else lookup h s'
  end.

(** [s.reindex(index, fill_value=fill)] *)
Definition reindex (index : list household) (fill : Z) (s : list (household * Z))
  : list (household * Z) :=
  map (fun h => (h, match lookup h s with Some n => n | None => fill end)) index.

(** [a / b] on two series: labels are aligned, a label absent from one side
    gives NaN. *)
Definition series_div (a b : list (household * Z)) : list (household * ratio) :=
  map (fun hm : household * Z =>
         (fst hm, match lookup (fst hm) b with
                  | Some n => count_div (snd hm) n
                  | None => NaN
                  end)) a.

Record household_stat : Type := {
  stat_household : household;
  missing_values : Z;
  percentage_missing : ratio
}.

Definition all_households_index (melted : list reading) : list household :=
  map fst (groupby_size melted).

(** [consumption_melted[consumption_melted['consumption'].isnull()]] *)
Definition null_rows (t : list reading) : list reading :=
  filter (fun r => isnull (consumption r)) t.

Definition missing_values_series (melted : list reading) : list (household * Z) :=
  reindex (all_households_index melted) 0 (groupby_size (null_rows melted)).

Definition percentage_missing_series (melted : list reading) : list (household * ratio) :=
  map (fun hr : household * ratio => (fst hr, ratio_mul (snd hr) 100))
      (series_div (missing_values_series melted) (groupby_size melted)).

Definition all_households (melted : list reading) : list household_stat :=
  map (fun h =>
         {| stat_household := h;
            missing_values :=
              match lookup h (missing_values_series melted) with
              | Some n => n | None => 0 end;
            percentage_missing :=
              match lookup h (percentage_missing_series melted) with
              | Some p => p | None => NaN end |})
      (all_households_index melted).

Definition households_to_remove (melted : list reading) : list household :=
  map stat_household
      (filter (fun s => ratio_gt (percentage_missing s) 5) (all_households melted)).

Definition isin (h : household) (l : list household) : bool :=
  existsb (String.eqb h) l.

Definition consumption_melted_filtered (melted : list reading) : list reading :=
  filter (fun r => negb (isin (household_id r) (households_to_remove melted))) melted.

(** *** Cell 4: imputation *)

(** [np.interp] on known points sorted by time: the value of the first or
    last point outside their range, the point's own value on a known time,
    and the line through the two neighbours in between. *)
Fixpoint np_interp (xp : list (datetime64 * Q)) (x : datetime64) : Q :=
  match xp with
  | [] => 0%Q
  | (x0, y0) :: rest =>
      if x <? x0 then y0
      else match rest with
           | [] => y0
           | (x1, y1) :: _ =>
               if x <? x1 then
                 if x =? x0 then y0
                 else ((y1 - y0) / inject_Z (x1 - x0) * inject_Z (x - x0) + y0)%Q
               else np_interp rest x
           end
  end.

Definition known_points (x : list (datetime64 * option Q)) : list (datetime64 * Q) :=
  flat_map (fun tv => match snd tv with
                      | Some q => [(fst tv, q)]
                      | None => []
                      end) x.

(** Nulls before the first known value are left alone (the default
    [limit_direction='forward']); every later null is interpolated. *)
Fixpoint interpolate_from (xp : list (datetime64 * Q)) (seen : bool)
         (x : list (datetime64 * option Q)) : list (option Q) :=
  match x with
  | [] => []
  | (_, Some q) :: x' => Some q :: interpolate_from xp true x'
  | (t, None) :: x' =>
      (if seen then Some (np_interp xp t) else None) :: interpolate_from xp seen x'
  end.

(** [x.interpolate(method='time')] on a series indexed by [GMT]. *)
Definition interpolate_time (x : list (datetime64 * option Q)) : list (option Q) :=
  interpolate_from
    (stable_sort (fun a b => fst a <=? fst b) (known_points x)) false x.

Fixpoint ffill_from (last : option Q) (l : list (option Q)) : list (option Q) :=
  match l with
  | [] => []
  | Some q :: l' => Some q :: ffill_from (Some q) l'
  | None :: l' => last :: ffill_from last l'
  end.

Definition ffill (l : list (option Q)) : list (option Q) := ffill_from None l.

Fixpoint bfill (l : list (option Q)) : list (option Q) :=
  match l with
  | [] => []
  | Some q :: l' => Some q :: bfill l'
  | None :: l' => let r := bfill l' in hd None r :: r
  end.

(** The lambda of the [transform]. *)
Definition impute (x : list (datetime64 * option Q)) : list (option Q) :=
  bfill (ffill (interpolate_time x)).

Definition group_series (h : household) (t : list reading)
  : list (datetime64 * option Q) :=
  map (fun r => (GMT r, consumption r)) (filter (of_household h) t).

(** [groupby('household_id')['consumption'].transform(f)] writes the values
    computed for each group back at the rows of that group, in row order:
    [pool h] holds the values of household [h] not yet written. *)
Fixpoint scatter (pool : household -> list (option Q)) (t : list reading)
  : list reading :=
  match t with
  | [] => []
  | r :: t' =>
      let h := household_id r in
      {| GMT := GMT r; household_id := h; consumption := hd None (pool h) |}
      :: scatter (fun k => if String.eqb k h then tl (pool h) else pool k) t'
  end.

Definition consumption_imputed (melted_filtered : list reading) : list reading :=
  scatter (fun h => impute (group_series h melted_filtered)) melted_filtered.

(** The check printed after the imputation: the number of nulls per column.
    A [datetime64] or an id is never null. *)
Definition missing_values_after_imputation (imputed : list reading) : Z * Z * Z :=
  (0, 0, Z.of_nat (length (filter (fun r => isnull (consumption r)) imputed))).

(** *** Cell 5: hourly aggregation and merge *)

Definition hour_of (t : datetime64) : datetime64 :=
  dt_floor_H (t + Timedelta_minutes 30).

Record hourly_row : Type := {
  hour : datetime64;
  hourly_household_id : household;
  hourly_consumption : option Q
}.

Definition key_eq_dec (a b : datetime64 * household) : {a = b} + {a <> b}.
Proof. decide equality; [apply string_dec | apply Z.eq_dec]. Defined.

Definition key_leb (a b : datetime64 * household) : bool :=
  (fst a <? fst b) || ((fst a =? fst b) && String.leb (snd a) (snd b)).

Definition reading_key (r : reading) : datetime64 * household :=
  (hour_of (GMT r), household_id r).

Definition in_bucket (k : datetime64 * household) (r : reading) : bool :=
  (hour_of (GMT r) =? fst k) && String.eqb (household_id r) (snd k).

(** [groupby(['hour', 'household_id'])['consumption'].sum().reset_index()] *)
Definition consumption_hourly (imputed : list reading) : list hourly_row :=
  map (fun k => {| hour := fst k;
                   hourly_household_id := snd k;
                   hourly_consumption :=
                     Some (sum_skipna (map consumption (filter (in_bucket k) imputed))) |})
      (stable_sort key_leb (nodup key_eq_dec (map reading_key imputed))).

Record tariff_hourly_row : Type := {
  tariff_hour : datetime64;
  mean_Price : option Q
}.

Definition in_tariff_hour (hr : datetime64) (r : tariff_row) : bool :=
  hour_of (tariff_GMT r) =? hr.

(** [groupby('hour')['Price'].mean().reset_index()] *)
Definition tariff_hourly (tariff_filtered : list tariff_row) : list tariff_hourly_row :=
  map (fun hr => {| tariff_hour := hr;
                    mean_Price :=
                      mean_skipna (map Price (filter (in_tariff_hour hr) tariff_filtered)) |})
      (stable_sort Z.leb
         (nodup Z.eq_dec (map (fun r => hour_of (tariff_GMT r)) tariff_filtered))).

Record merged_row : Type := {
  timestamp : datetime64;
  merged_household_id : household;
  merged_consumption : option Q;
  tariff : option Q
}.

Definition join_row (a : hourly_row) (p : option Q) : merged_row :=
  {| timestamp := hour a;
     merged_household_id := hourly_household_id a;
     merged_consumption := hourly_consumption a;
     tariff := p |}.

(** [pd.merge(left, right, on='hour', how='left')]: the left rows in order,
    each once per right row of the same hour, or once with a null price when
    there is none. *)
Definition merge_left (left : list hourly_row) (right : list tariff_hourly_row)
  : list merged_row :=
  flat_map (fun a =>
              match filter (fun b => tariff_hour b =? hour a) right with
              | [] => [join_row a None]
              | matches => map (fun b => join_row a (mean_Price b)) matches
              end) left.

Definition merged_key (r : merged_row) : datetime64 * household :=
  (timestamp r, merged_household_id r).

(** The merge, the renaming of [hour] and [Price], and
    [sort_values(by=['timestamp', 'household_id'])].  The keys of a grouped
    table are distinct, so every sort gives the same table here. *)
Definition merged_data (hourly : list hourly_row) (tariffs : list tariff_hourly_row)
  : list merged_row :=
  stable_sort (fun a b => key_leb (merged_key a) (merged_key b))
              (merge_left hourly tariffs).

(** Cells 2 to 5 in sequence: what is written to
    ['1a) consumption_and_tariff_data_hourly.csv']. *)
Definition consumption_and_tariff_data_hourly
           (tariff_data : list tariff_row) (consumption_data : wide_table)
  : list merged_row :=
  merged_data
    (consumption_hourly
       (consumption_imputed
          (consumption_melted_filtered (consumption_melted consumption_data))))
    (tariff_hourly (tariff_data_filtered tariff_data)).

(** ** Weather tables *)

(** A row of a weather file, indexed by [datetime], with the five columns the
    notebook keeps.  The files' other columns are dropped by the column
    selection of cell 7 and are not part of the row. *)
Record weather_row : Type := {
  datetime : datetime64;
  solarradiation : option Q;
  windspeed : option Q;
  temp : option Q;
  precip : option Q;
  humidity : option Q
}.

Definition weather_table := list weather_row.

Definition index (df : weather_table) : list datetime64 := map datetime df.

Definition at_time (ts : datetime64) (r : weather_row) : bool := datetime r =? ts.

(** [index.duplicated(keep='first')]: true on every label met before. *)
Fixpoint duplicated_from (seen : list datetime64) (idx : list datetime64) : list bool :=
  match idx with
  | [] => []
  | t :: idx' =>
      existsb (Z.eqb t) seen :: duplicated_from (t :: seen) idx'
  end.

Definition duplicated (idx : list datetime64) : list bool := duplicated_from [] idx.

(** [df[mask]] *)
Fixpoint boolean_mask {A : Type} (df : list A) (mask : list bool) : list A :=
  match df, mask with
  | r :: df', b :: mask' =>
      if b then r :: boolean_mask df' mask' else boolean_mask df' mask'
  | _, _ => []
  end.

(** [merged_df[~merged_df.index.duplicated(keep='first')]] *)
Definition drop_duplicated (df : weather_table) : weather_table :=
  boolean_mask df (map negb (duplicated (index df))).

(** [index.to_series().diff().dropna().items()]: each label but the first,
    with its distance from the label before. *)
Fixpoint time_diffs (idx : list datetime64) : list (datetime64 * Z) :=
  match idx with
  | a :: (b :: _) as idx' => (b, b - a) :: time_diffs idx'
  | _ => []
  end.

Definition unusual_entries (idx : list datetime64) : list (datetime64 * Z) :=
  filter (fun e => negb (snd e =? Timedelta_hours 1)) (time_diffs idx).

(** [df.loc[ts]] on a frame without duplicate labels; [None] is the
    [KeyError] of a label that is not there. *)
Definition loc (df : weather_table) (ts : datetime64) : option weather_row :=
  find (at_time ts) df.

(** [df.loc[ts] = row]: overwrites the row of an existing label, appends the
    row at the end for a new one. *)
Definition set_loc (df : weather_table) (ts : datetime64) (row : weather_row)
  : weather_table :=
  if existsb (at_time ts) df
  then map (fun r => if at_time ts r then row else r) df
  else df ++ [row].

(** [(float(x) + float(y)) / 2]: NaN as soon as one side is. *)
Definition mean2 (x y : option Q) : option Q :=
  match x, y with
  | Some a, Some b => Some ((a + b) / 2)%Q
  | _, _ => None
  end.

(** [prev.combine(next, lambda x, y: (float(x) + float(y)) / 2)], stored
    under the label [ts]. *)
Definition interpolated_row (ts : datetime64) (prev next : weather_row) : weather_row :=
  {| datetime := ts;
     solarradiation := mean2 (solarradiation prev) (solarradiation next);
     windspeed := mean2 (windspeed prev) (windspeed next);
     temp := mean2 (temp prev) (temp next);
     precip := mean2 (precip prev) (precip next);
     humidity := mean2 (humidity prev) (humidity next) |}.

(** One turn of the loop over [unusual_entries]; [None] once a lookup has
    raised. *)
Definition fill_step (state : option weather_table) (entry : datetime64 * Z)
  : option weather_table :=
  match state with
  | None => None
  | Some df =>
      let (ts, time_diff) := entry in
      if time_diff =? Timedelta_hours 2 then
        let prev_timestamp := ts - Timedelta_hours 2 in
        let next_timestamp := ts in
        match loc df prev_timestamp, loc df next_timestamp with
        | Some prev, Some next =>
            let interpolated_timestamp := prev_timestamp + Timedelta_hours 1 in
            Some (set_loc df interpolated_timestamp
                          (interpolated_row interpolated_timestamp prev next))
        | _, _ => None
        end
      else Some df
  end.

(** The loop of cell 8.  The entries are computed once, before the loop, from
    the frame without duplicates. *)
Definition fill_gaps (df : weather_table) : option weather_table :=
  fold_left fill_step (unusual_entries (index df)) (Some df).

Section WeatherPipeline.
(** [sort_index]: pandas' default unstable sort. *)
Variable sort_index : weather_table -> weather_table.

(** Cell 7: concatenate the files and sort by label.  With no file at all
    [pd.concat] raises [ValueError] and the run stops: [None]. *)
Definition weather_concat_sorted (df_list : list weather_table) : option weather_table :=
  match df_list with
  | [] => None
  | _ :: _ => Some (sort_index (concat df_list))
  end.

(** Cell 8, first statement. *)
Definition weather_deduplicated (df_list : list weather_table) : option weather_table :=
  option_map drop_duplicated (weather_concat_sorted df_list).

(** Cells 7 and 8: what is written to ['1b) merged_weather_data.csv'].
    [None] is a run that stops on an exception: the [ValueError] of cell 7
    or a [KeyError] of the loop. *)
Definition merged_weather_data (df_list : list weather_table) : option weather_table :=
  match weather_deduplicated df_list with
  | Some merged_df => option_map sort_index (fill_gaps merged_df)
  | None => None
  end.

(** The frame that leaves the first statement of cell 8 when there is a
    file to read. *)
Definition deduplicated_rows (df_list : list weather_table) : weather_table :=
  drop_duplicated (sort_index (concat df_list)).
End WeatherPipeline.

(** A sort that meets the contract of [sort_index] and keeps rows with equal
    labels in their order of arrival. *)
Definition datetime_leb (a b : weather_row) : bool := datetime a <=? datetime b.

Definition sort_index_stable (df : weather_table) : weather_table :=
  stable_sort datetime_leb df.

(** *** The sort behind [sort_index()]

    [DataFrame.sort_index()] with its default arguments returns the frame as
    it is when the labels are already in ascending order; otherwise it takes
    the rows in the order given by numpy's [argsort] of the labels with
    [kind='quicksort'].  For [datetime64] labels that is the generic
    introsort of numpy ([aquicksort_]), which works on the array [tosort] of
    row numbers, initially [0, 1, ..., num - 1]: a segment of more than 17
    row numbers is partitioned around the median of its first, middle and
    last element; a shorter one is sorted by insertion; a segment reached
    after [2 * floor(log2 num)] partitions is sorted by a heap sort
    ([aheapsort_]).  [v] holds the labels by row number; [pl], [pr], [pm],
    [pi], [pj], [pk] are positions in [tosort].  The loops of the C code are
    given a number of steps that they never use up. *)
Definition SMALL_QUICKSORT : nat := 16.

Fixpoint set_nth (tosort : list nat) (p : nat) (x : nat) : list nat :=
  match tosort, p with
  | [], _ => []
  | _ :: t, O => x :: t
  | h :: t, S p' => h :: set_nth t p' x
  end.

Definition INTP_SWAP (tosort : list nat) (p q : nat) : list nat :=
  set_nth (set_nth tosort p (nth q tosort O)) q (nth p tosort O).

Section Argsort.
Variable v : list datetime64.

(** [v[*p]] *)
Definition key_at (tosort : list nat) (p : nat) : datetime64 :=
  nth (nth p tosort O) v 0.

(** [do { ++pi; } while (v[*pi] < vp);]  The pivot parked at [pr - 1] stops
    the scan, the bound on the number of steps is never reached. *)
Fixpoint scan_up (steps : nat) (tosort : list nat) (vp : datetime64) (pi : nat) : nat :=
  match steps with
  | O => pi
  | S steps' =>
      let pi := S pi in
      if key_at tosort pi <? vp then scan_up steps' tosort vp pi else pi
  end.

(** [do { --pj; } while (vp < v[*pj]);]  The element at [pl], not above the
    pivot, stops the scan. *)
Fixpoint scan_down (steps : nat) (tosort : list nat) (vp : datetime64) (pj : nat) : nat :=
  match steps with
  | O => pj
  | S steps' =>
      let pj := Nat.pred pj in
      if vp <? key_at tosort pj then scan_down steps' tosort vp pj else pj
  end.

(** [for (;;) { scan up; scan down; if (pi >= pj) break; swap [*pi] and [*pj]; }] *)
Fixpoint partition_loop (steps : nat) (tosort : list nat) (vp : datetime64)
         (pi pj : nat) : list nat * nat :=
  match steps with
  | O => (tosort, pi)
  | S steps' =>
      let pi := scan_up (length tosort) tosort vp pi in
      let pj := scan_down (length tosort) tosort vp pj in
      if (pj <=? pi)%nat then (tosort, pi)
      else partition_loop steps' (INTP_SWAP tosort pi pj) vp pi pj
  end.

(** One partition of the segment [pl .. pr]: the median of three goes to
    [pm], is parked at [pr - 1], and ends at the returned position. *)
Definition partition (tosort : list nat) (pl pr : nat) : list nat * nat :=
  let pm := (pl + Nat.shiftr (pr - pl) 1)%nat in
  let tosort := if key_at tosort pm <? key_at tosort pl
                then INTP_SWAP tosort pm pl else tosort in
  let tosort := if key_at tosort pr <? key_at tosort pm
                then INTP_SWAP tosort pr pm else tosort in
  let tosort := if key_at tosort pm <? key_at tosort pl
                then INTP_SWAP tosort pm pl else tosort in
  let vp := key_at tosort pm in
  let pi := pl in
  let pj := (pr - 1)%nat in
  let tosort := INTP_SWAP tosort pm pj in
  let (tosort, pi) := partition_loop (length tosort) tosort vp pi pj in
  let pk := (pr - 1)%nat in
  (INTP_SWAP tosort pi pk, pi).

(** [while (pj > pl && vp < v[*pk]) { *pj-- = *pk--; }] *)
Fixpoint insertion_shift (steps : nat) (tosort : list nat) (vp : datetime64)
         (pl pj : nat) : list nat * nat :=
  match steps with
  | O => (tosort, pj)
  | S steps' =>
      let pk := Nat.pred pj in
      if (pl <? pj)%nat && (vp <? key_at tosort pk)
      then insertion_shift steps' (set_nth tosort pj (nth pk tosort O)) vp pl pk
      else (tosort, pj)
  end.

(** The insertion sort of the segment [pl .. pr]. *)
Definition insertion_sort (tosort : list nat) (pl pr : nat) : list nat :=
  fold_left (fun tosort pi =>
               let vi := nth pi tosort O in
               let vp := nth vi v 0 in
               let (tosort, pj) := insertion_shift (length tosort) tosort vp pl pi in
               set_nth tosort pj vi)
            (seq (S pl) (pr - pl)) tosort.

(** A segment waiting on the stack, with the depth it was pushed at. *)
Definition segment : Type := (nat * nat * Z)%type.

(** [while ((pr - pl) > SMALL_QUICKSORT) { partition; push the larger part;
    go on with the smaller; }] *)
Fixpoint partition_while (steps : nat) (tosort : list nat) (pl pr : nat) (cdepth : Z)
         (stack : list segment) : list nat * nat * nat * list segment :=
  match steps with
  | O => (tosort, pl, pr, stack)
  | S steps' =>
      if (SMALL_QUICKSORT <? pr - pl)%nat then
        let (tosort, pi) := partition tosort pl pr in
        let cdepth := cdepth - 1 in
        if (pi - pl <? pr - pi)%nat
        then partition_while steps' tosort pl (pi - 1)%nat cdepth
                             ((S pi, pr, cdepth) :: stack)
        else partition_while steps' tosort (S pi) pr cdepth
                             ((pl, (pi - 1)%nat, cdepth) :: stack)
      else (tosort, pl, pr, stack)
  end.

(** The heap sort of the [n] row numbers from position [pl] on.  The heap
    is indexed from 1: [a[k]] is [tosort[pl + k - 1]]. *)
Definition heap_get (tosort : list nat) (pl k : nat) : nat :=
  nth (pl + k - 1) tosort O.

Definition heap_set (tosort : list nat) (pl k : nat) (x : nat) : list nat :=
  set_nth tosort (pl + k - 1) x.

(** [for (; j <= n;) { if (j < n && v[a[j]] < v[a[j + 1]]) j += 1;
      if (v[tmp] < v[a[j]]) { a[i] = a[j]; i = j; j += j; } else break; }
    a[i] = tmp;] *)
Fixpoint sift_down (steps : nat) (tosort : list nat) (pl n : nat) (tmp : nat)
         (i j : nat) : list nat :=
  match steps with
  | O => heap_set tosort pl i tmp
  | S steps' =>
      if (j <=? n)%nat then
        let j := if (j <? n)%nat
                    && (nth (heap_get tosort pl j) v 0
                        <? nth (heap_get tosort pl (S j)) v 0)
                 then S j else j in
        if nth tmp v 0 <? nth (heap_get tosort pl j) v 0
        then sift_down steps' (heap_set tosort pl i (heap_get tosort pl j))
                       pl n tmp j (j + j)
        else heap_set tosort pl i tmp
      else heap_set tosort pl i tmp
  end.

Definition aheapsort (tosort : list nat) (pl n : nat) : list nat :=
  let tosort :=
    fold_left (fun tosort l =>
                 sift_down n tosort pl n (heap_get tosort pl l) l (l + l))
              (rev (seq 1 (Nat.shiftr n 1))) tosort in
  fold_left (fun tosort n =>
               let tmp := heap_get tosort pl n in
               let tosort := heap_set tosort pl n (heap_get tosort pl 1) in
               sift_down n tosort pl (n - 1) tmp 1 2)
            (rev (seq 2 (n - 1))) tosort.

(** The outer loop: one pass per segment taken from the stack. *)
Fixpoint aquicksort_loop (steps : nat) (tosort : list nat) (pl pr : nat) (cdepth : Z)
         (stack : list segment) : list nat :=
  match steps with
  | O => tosort
  | S steps' =>
      let '(tosort, stack) :=
        if cdepth <? 0 then (aheapsort tosort pl (pr - pl + 1), stack)
        else
          match partition_while (length tosort) tosort pl pr cdepth stack with
          | (tosort, pl, pr, stack) => (insertion_sort tosort pl pr, stack)
          end in
      match stack with
      | [] => tosort
      | (pl, pr, cdepth) :: stack => aquicksort_loop steps' tosort pl pr cdepth stack
      end
  end.

(** [npy_get_msb(num) * 2] is the depth limit. *)
Definition aquicksort : list nat :=
  let num := length v in
  aquicksort_loop (S num) (seq 0 num) 0 (num - 1) (Z.log2 (Z.of_nat num) * 2) [].
End Argsort.

(** [index.is_monotonic_increasing] *)
Fixpoint is_monotonic_increasing (idx : list datetime64) : bool :=
  match idx with
  | a :: (b :: _) as idx' => (a <=? b) && is_monotonic_increasing idx'
  | _ => true
  end.

(** [df.take(indexer)] *)
Definition take (df : weather_table) (indexer : list nat) : weather_table :=
  flat_map (fun i => match nth_error df i with Some r => [r] | None => [] end) indexer.

(** [df.sort_index()] as pandas and numpy compute it. *)
Definition pandas_sort_index (df : weather_table) : weather_table :=
  if is_monotonic_increasing (index df) then df
  else take df (aquicksort (index df)).

(** What [sort_index] promises: the same rows, labels in ascending order. *)
Definition sorts_by_index (sort_index : weather_table -> weather_table) : Prop :=
  forall df, Permutation df (sort_index df)
             /\ StronglySorted (fun a b => datetime a <= datetime b) (sort_index df).

(** The hours [start], [start + 1h], ..., [n] of them. *)
Definition hourly_range (start : datetime64) (n : nat) : list datetime64 :=
  map (fun k => start + Timedelta_hours (Z.of_nat k)) (seq 0 n).

(** The first row carrying a label, in row order. *)
Definition first_occurrence (ts : datetime64) (df : weather_table) : option weather_row :=
  find (at_time ts) df.

(** The wording of the specification for "falls in calendar year 2013": from
    2013-01-01 00:00:00 included to 2014-01-01 00:00:00 excluded. *)
Definition spec_in_calendar_year_2013 (t : datetime64) : bool :=
  (Timestamp 2013 1 1 0 0 0 <=? t) && (t <? Timestamp 2014 1 1 0 0 0).

(** ** Auxiliary notions used in the statements *)

(** The row of [all_households] for a household of the melted table. *)
Definition stat_of (h : household) (t : list reading) : household_stat :=
  {| stat_household := h;
     missing_values := group_count h (null_rows t);
     percentage_missing :=
       ratio_mul (count_div (group_count h (null_rows t)) (group_count h t)) 100 |}.

(** [new] keeps every value that [old] has. *)
Definition keeps_value (old new : option Q) : Prop :=
  forall v, old = Some v -> new = Some v.

(** Row by row: same timestamp, same household, and the readings related
    by [R]. *)
Definition same_rows (R : option Q -> option Q -> Prop) (t t' : list reading) : Prop :=
  Forall2 (fun r r' => GMT r' = GMT r
                       /\ household_id r' = household_id r
                       /\ R (consumption r) (consumption r')) t t'.

Definition notnull (v : option Q) : Prop := v <> None.

Definition key_eqb (k k' : datetime64 * household) : bool :=
  (fst k =? fst k') && String.eqb (snd k) (snd k').

Definition hourly_key (a : hourly_row) : datetime64 * household :=
  (hour a, hourly_household_id a).

(** The tariff a merged row of hour [hr] is to carry: the mean price of the
    filtered tariff readings that fall in that hour when the hour is among
    the tariff aggregates, a null otherwise. *)
Definition expected_tariff (tariff_filtered : list tariff_row) (hr : datetime64)
  : option Q :=
  if existsb (fun b => tariff_hour b =? hr) (tariff_hourly tariff_filtered)
  then mean_skipna (map Price (filter (in_tariff_hour hr) tariff_filtered))
  else None.

(** The plain sum of a list of readings, from 0, in row order. *)
Definition sum_values (l : list Q) : Q := fold_left Qplus l 0%Q.

(** The known values of a column, in row order, and their plain mean: a null
    when there is none. *)
Definition known_values (l : list (option Q)) : list Q :=
  flat_map (fun v => match v with Some q => [q] | None => [] end) l.

Definition mean_of_known (l : list (option Q)) : option Q :=
  match known_values l with
  | [] => None
  | vs => Some (sum_values vs / inject_Z (Z.of_nat (length vs)))%Q
  end.

(** ** Concrete tables *)

(** The scenario of the specification: household MAC001 reads 0.2 at
    2013-06-01 00:30 and 0.3 at 2013-06-01 01:00. *)
Definition scenario_readings : list reading :=
  [ {| GMT := Timestamp 2013 6 1 0 30 0; household_id := "MAC001"%string;
       consumption := Some (2 # 10)%Q |};
    {| GMT := Timestamp 2013 6 1 1 0 0; household_id := "MAC001"%string;
       consumption := Some (3 # 10)%Q |} ].

(** A wide table with twenty-one rows in 2013, one before and one after:
    MAC001 misses one reading in twenty-one, MAC002 misses two, MAC003 has
    none at all. *)
Definition example_wide_row (k : Z) : wide_row :=
  {| wide_GMT := Timestamp 2013 6 1 0 0 0 + Timedelta_minutes (30 * k);
     wide_cells := [ (if k =? 3 then None else Some (k # 10)%Q);
                     (if (k =? 3) || (k =? 4) then None else Some 1%Q);
                     None ] |}.

Definition example_consumption_data : wide_table :=
  {| wide_columns := ["MAC001"; "MAC002"; "MAC003"]%string;
     wide_rows :=
       {| wide_GMT := Timestamp 2012 12 31 23 30 0;
          wide_cells := [Some 1%Q; Some 1%Q; Some 1%Q] |}
       :: {| wide_GMT := Timestamp 2013 1 1 0 0 0;
             wide_cells := [Some 1%Q; Some 1%Q; Some 1%Q] |}
       :: map (fun k => example_wide_row (Z.of_nat k)) (seq 1 21)
       ++ [ {| wide_GMT := Timestamp 2014 1 1 0 0 0;
               wide_cells := [Some 1%Q; Some 1%Q; Some 1%Q] |} ] |}.

Definition example_tariff_data : list tariff_row :=
  [ {| tariff_GMT := Timestamp 2013 6 1 0 30 0; Price := Some (12 # 1)%Q |};
    {| tariff_GMT := Timestamp 2013 6 1 1 0 0; Price := Some (14 # 1)%Q |};
    {| tariff_GMT := Timestamp 2013 6 1 1 30 0; Price := None |};
    {| tariff_GMT := Timestamp 2014 6 1 1 30 0; Price := Some (99 # 1)%Q |} ].

(** ** Weather: auxiliary notions and concrete tables *)

Definition datetime_le (a b : weather_row) : Prop := datetime a <= datetime b.

(** The rows the gap loop is to add: one for each pair of neighbours two
    hours apart, at the hour between them. *)
Fixpoint synthesized_rows (df : weather_table) : weather_table :=
  match df with
  | prev :: (next :: _) as df' =>
      if datetime next - datetime prev =? Timedelta_hours 2
      then interpolated_row (datetime prev + Timedelta_hours 1) prev next
           :: synthesized_rows df'
      else synthesized_rows df'
  | _ => []
  end.

(** [prev] and [next] are neighbours in [df]. *)
Definition neighbours (df : weather_table) (prev next : weather_row) : Prop :=
  exists before after, df = before ++ prev :: next :: after.

Definition weather_at (ts : datetime64) (t : Q) : weather_row :=
  {| datetime := ts;
     solarradiation := Some 0%Q; windspeed := Some (10 # 1)%Q;
     temp := Some t; precip := None; humidity := Some (80 # 1)%Q |}.

(** The scenario of the specification: 2013-03-31 01:00 is missing between
    00:00 (temp 5.0) and 02:00 (temp 7.0). *)
Definition scenario_weather : list weather_table :=
  [ [ weather_at (Timestamp 2013 3 31 0 0 0) (5 # 1)%Q;
      weather_at (Timestamp 2013 3 31 2 0 0) (7 # 1)%Q ] ].

(** Three files with twenty rows in all, each file in time order, hours
    counted from 2013-03-30 00:00.  The first and the second file both carry
    hour 10 (2013-03-30 10:00), with temperatures 5.0 and 9.0. *)
Definition weather_at_hour (t : Q) (k : Z) : weather_row :=
  weather_at (Timestamp 2013 3 30 0 0 0 + Timedelta_hours k) t.

Definition overlapping_weather : list weather_table :=
  [ map (weather_at_hour (5 # 1)%Q) [0; 1; 2; 10; 20; 21; 22; 23; 24];
    [ weather_at_hour (9 # 1)%Q 10 ];
    map (weather_at_hour (7 # 1)%Q) [3; 4; 5; 6; 7; 8; 25; 26; 27; 30] ].

(** Three files for the five hours from 2013-03-30 23:00: 01:00 is missing,
    00:00 comes twice, and the files are not in time order. *)
Definition example_weather : list weather_table :=
  [ [ weather_at (Timestamp 2013 3 31 2 0 0) (7 # 1)%Q;
      weather_at (Timestamp 2013 3 31 3 0 0) (8 # 1)%Q ];
    [ weather_at (Timestamp 2013 3 30 23 0 0) (4 # 1)%Q;
      weather_at (Timestamp 2013 3 31 0 0 0) (5 # 1)%Q ];
    [ weather_at (Timestamp 2013 3 31 0 0 0) (9 # 1)%Q ] ].

(** The labels of the synthesized rows, read off the labels alone. *)
Fixpoint midpoints (idx : list datetime64) : list datetime64 :=
  match idx with
  | a :: (b :: _) as idx' =>
      if b - a =? Timedelta_hours 2
      then (a + Timedelta_hours 1) :: midpoints idx'
      else midpoints idx'
  | _ => []
  end.

(** ** Further notions: counts, layouts and closed forms *)

(** [['household_id'].nunique()] *)
Definition nunique (t : list reading) : nat :=
  length (nodup string_dec (map household_id t)).

(** The two numbers printed at the end of cell 3. *)
Definition households_removed_count (melted : list reading) : nat :=
  length (households_to_remove melted).

Definition households_remaining_count (melted : list reading) : nat :=
  nunique (consumption_melted_filtered melted).

(** A household has more than 5% of its rows null, on exact counts. *)
Definition over_5_percent (melted : list reading) (h : household) : bool :=
  5 * group_count h melted <? 100 * group_count h (null_rows melted).

(** A float cell is a null or lies between [lo] and [hi]. *)
Definition within (lo hi : Q) (v : option Q) : Prop :=
  match v with
  | Some q => (lo <= q /\ q <= hi)%Q
  | None => True
  end.

(** The value of the line through [(t0, a)] and [(t1, b)] at time [t], as
    [np.interp] computes it. *)
Definition on_the_line (t0 : datetime64) (a : Q) (t1 : datetime64) (b : Q)
           (t : datetime64) : Q :=
  ((b - a) / inject_Z (t1 - t0) * inject_Z (t - t0) + a)%Q.

Definition all_null (x : list (datetime64 * option Q)) : Prop :=
  Forall (fun p => snd p = None) x.

(** The table without duplicates with every synthesized row put between the
    two rows it is computed from. *)
Fixpoint interleaved (df : weather_table) : weather_table :=
  match df with
  | prev :: (next :: _) as df' =>
      if datetime next - datetime prev =? Timedelta_hours 2
      then prev :: interpolated_row (datetime prev + Timedelta_hours 1) prev next
                :: interleaved df'
      else prev :: interleaved df'
  | _ => df
  end.

(** What a cell adds to a sum that skips nulls. *)
Definition value_or_zero (v : option Q) : Q :=
  match v with Some q => q | None => 0%Q end.

(** The sum of a column from its last cell backwards, and the sum of a
    quantity over a list of keys; both serve to reason on [sum_skipna]. *)
Definition qsum (l : list (option Q)) : Q :=
  fold_right (fun v acc => value_or_zero v + acc)%Q 0%Q l.

Definition ksum (K : list (datetime64 * household))
           (f : datetime64 * household -> Q) : Q :=
  fold_right (fun k acc => f k + acc)%Q 0%Q K.

Definition hourly_of_household (h : household) (a : hourly_row) : bool :=
  String.eqb (hourly_household_id a) h.

(** ** Further concrete tables *)

(** One household with a reading of 1 at 00:00 and of 5 at 02:00; the rows
    of 00:30 and 01:30 are null and the row of 01:00 is not in the table. *)
Definition uneven_series : list (datetime64 * option Q) :=
  [ (Timestamp 2013 6 1 0 0 0, Some 1%Q);
    (Timestamp 2013 6 1 0 30 0, None);
    (Timestamp 2013 6 1 1 30 0, None);
    (Timestamp 2013 6 1 2 0 0, Some 5%Q) ].

Definition uneven_readings : list reading :=
  map (fun p => {| GMT := fst p; household_id := "MAC001"%string;
                   consumption := snd p |}) uneven_series.

(** A consumption file whose rows all lie outside the filtered year. *)
Definition outside_2013_consumption_data : wide_table :=
  {| wide_columns := ["MAC001"; "MAC002"]%string;
     wide_rows :=
       [ {| wide_GMT := Timestamp 2012 12 31 23 30 0;
            wide_cells := [Some 1%Q; None] |};
         {| wide_GMT := Timestamp 2013 1 1 0 0 0;
            wide_cells := [Some 1%Q; Some 2%Q] |};
         {| wide_GMT := Timestamp 2014 1 1 0 0 0;
            wide_cells := [None; Some 2%Q] |} ] |}.

(* ================================================================== *)
(** * Part II: properties *)
(* ================================================================== *)

(** ** Calendar *)

Lemma dt_year_2013_iff (t : datetime64) :
  dt_year t = 2013 <-> Timestamp 2013 1 1 0 0 0 <= t < Timestamp 2014 1 1 0 0 0.
Proof.
  change (Timestamp 2013 1 1 0 0 0) with 1356998400.
  change (Timestamp 2014 1 1 0 0 0) with 1388534400.
  unfold dt_year, days_to_year, SECONDS_PER_DAY.
  cbv zeta.
  change (365 * 30 + 7) with 10957.
  change (400 * 365 + 100 - 4 + 1) with 146097.
  change (100 * 365 + 25 - 1) with 36524.
  change (4 * 365 + 1) with 1461.
  repeat match goal with
         | |- context [?a <=? ?b] => destruct (Z.leb_spec a b)
         end;
    Z.div_mod_to_equations; lia.
Qed.

Lemma dt_year_2013_spec (t : datetime64) :
  (dt_year t =? 2013) = spec_in_calendar_year_2013 t.
Proof.
  unfold spec_in_calendar_year_2013.
  destruct (Z.eqb_spec (dt_year t) 2013) as [E | E].
  - apply dt_year_2013_iff in E. symmetry. apply andb_true_iff.
    split; [apply Z.leb_le | apply Z.ltb_lt]; lia.
  - symmetry. apply not_true_is_false. intro H.
    apply andb_true_iff in H. destruct H as [H1 H2].
    apply Z.leb_le in H1. apply Z.ltb_lt in H2.
    apply E, dt_year_2013_iff. lia.
Qed.

(** ** Year filter *)

(** C8.  The filtered tariff table is the tariff table restricted, in order
    and with multiplicity, to the rows dated from 2013-01-01 00:00:00 to
    2013-12-31 23:59:59; the filtered consumption table is the consumption
    table restricted in the same way, less the rows dated exactly
    2013-01-01 00:00:00; the household columns are untouched. *)
Theorem year_filter_exact
        (tariff_data : list tariff_row) (consumption_data : wide_table) :
  tariff_data_filtered tariff_data
  = filter (fun r => spec_in_calendar_year_2013 (tariff_GMT r)) tariff_data
  /\ (forall r, In r (tariff_data_filtered tariff_data)
                <-> In r tariff_data
                    /\ Timestamp 2013 1 1 0 0 0 <= tariff_GMT r < Timestamp 2014 1 1 0 0 0)
  /\ wide_rows (consumption_data_filtered consumption_data)
     = filter (fun r => spec_in_calendar_year_2013 (wide_GMT r)
                        && negb (wide_GMT r =? Timestamp 2013 1 1 0 0 0))
              (wide_rows consumption_data)
  /\ (forall r, In r (wide_rows (consumption_data_filtered consumption_data))
                <-> In r (wide_rows consumption_data)
                    /\ Timestamp 2013 1 1 0 0 0 < wide_GMT r < Timestamp 2014 1 1 0 0 0)
  /\ wide_columns (consumption_data_filtered consumption_data)
     = wide_columns consumption_data.
Proof.
  repeat split.
  - unfold tariff_data_filtered. apply filter_ext.
    intro r. apply dt_year_2013_spec.
  - unfold tariff_data_filtered in H. apply filter_In in H. tauto.
  - unfold tariff_data_filtered in H. apply filter_In in H.
    destruct H as [_ H]. apply Z.eqb_eq, dt_year_2013_iff in H. lia.
  - unfold tariff_data_filtered in H. apply filter_In in H.
    destruct H as [_ H]. apply Z.eqb_eq, dt_year_2013_iff in H. lia.
  - intros [H1 H2]. unfold tariff_data_filtered. apply filter_In.
    split; [assumption |]. apply Z.eqb_eq, dt_year_2013_iff. assumption.
  - simpl. apply filter_ext. intro r. now rewrite dt_year_2013_spec.
  - simpl in H. apply filter_In in H. tauto.
  - simpl in H. apply filter_In in H. destruct H as [_ H].
    apply andb_true_iff in H. destruct H as [H1 H2].
    apply Z.eqb_eq, dt_year_2013_iff in H1.
    apply negb_true_iff, Z.eqb_neq in H2. lia.
  - simpl in H. apply filter_In in H. destruct H as [_ H].
    apply andb_true_iff in H. destruct H as [H1 _].
    apply Z.eqb_eq, dt_year_2013_iff in H1. lia.
  - intros [H1 H2]. simpl. apply filter_In. split; [assumption |].
    apply andb_true_iff. split.
    + apply Z.eqb_eq, dt_year_2013_iff. lia.
    + apply negb_true_iff, Z.eqb_neq. lia.
Qed.

(** ** Sorting *)

Section SortingFacts.
Context {A : Type} (leb : A -> A -> bool).

Lemma insert_sorted_perm (x : A) (l : list A) :
  Permutation (x :: l) (insert_sorted leb x l).
Proof.
  induction l as [| y l IH]; simpl.
  - apply Permutation_refl.
  - destruct (leb x y).
    + apply Permutation_refl.
    + apply perm_trans with (y :: x :: l).
      * apply perm_swap.
      * apply perm_skip, IH.
Qed.

Lemma stable_sort_perm (l : list A) : Permutation l (stable_sort leb l).
Proof.
  induction l as [| x l IH]; simpl.
  - apply perm_nil.
  - apply perm_trans with (x :: stable_sort leb l).
    + apply perm_skip, IH.
    + apply insert_sorted_perm.
Qed.

Lemma stable_sort_In (x : A) (l : list A) :
  In x (stable_sort leb l) <-> In x l.
Proof.
  split; apply Permutation_in;
    [apply Permutation_sym |]; apply stable_sort_perm.
Qed.

Lemma stable_sort_NoDup (l : list A) : NoDup l -> NoDup (stable_sort leb l).
Proof. apply Permutation_NoDup, stable_sort_perm. Qed.

Hypothesis leb_total : forall a b, leb a b = false -> leb b a = true.
Hypothesis leb_trans :
  forall a b c, leb a b = true -> leb b c = true -> leb a c = true.

Lemma insert_sorted_sorted (x : A) (l : list A) :
  StronglySorted (fun a b => leb a b = true) l ->
  StronglySorted (fun a b => leb a b = true) (insert_sorted leb x l).
Proof.
  induction 1 as [| y l Hs IH Hy]; simpl.
  - constructor; constructor.
  - destruct (leb x y) eqn:E.
    + constructor.
      * constructor; assumption.
      * constructor; [assumption |].
        rewrite Forall_forall in Hy |- *.
        intros z Hz. eapply leb_trans; eauto.
    + constructor; [assumption |].
      rewrite Forall_forall in Hy |- *.
      intros z Hz.
      apply (Permutation_in _ (Permutation_sym (insert_sorted_perm x l))) in Hz.
      destruct Hz as [<- | Hz]; auto.
Qed.

Lemma stable_sort_sorted (l : list A) :
  StronglySorted (fun a b => leb a b = true) (stable_sort leb l).
Proof.
  induction l as [| x l IH]; simpl.
  - constructor.
  - apply insert_sorted_sorted, IH.
Qed.
End SortingFacts.

Lemma Permutation_filter_compat {A : Type} (f : A -> bool) (l l' : list A) :
  Permutation l l' -> Permutation (filter f l) (filter f l').
Proof.
  induction 1 as [| x l l' _ IH | x y l | l l' l'' _ IH1 _ IH2]; simpl.
  - apply perm_nil.
  - destruct (f x); [apply perm_skip |]; assumption.
  - destruct (f x), (f y); try apply Permutation_refl. apply perm_swap.
  - eapply perm_trans; eassumption.
Qed.

Lemma filter_none {A : Type} (f : A -> bool) (l : list A) :
  (forall z, In z l -> f z = false) -> filter f l = [].
Proof.
  induction l as [| y l IH]; intro H; simpl.
  - reflexivity.
  - rewrite (H y (or_introl eq_refl)). apply IH.
    intros z Hz. apply H. right. assumption.
Qed.

(** Filtering a list without duplicate keys by one of its keys leaves one
    row. *)
Lemma filter_unique_key {A K : Type} (key : A -> K) (eqb : K -> K -> bool)
      (eqb_spec : forall a b, eqb a b = true <-> a = b) (l : list A) (x : A) :
  NoDup (map key l) -> In x l ->
  filter (fun y => eqb (key y) (key x)) l = [x].
Proof.
  induction l as [| y l IH]; intros ND HIn; simpl in *.
  - contradiction.
  - inversion ND as [| ? ? Hnot ND']; subst.
    destruct HIn as [-> | HIn].
    + rewrite (proj2 (eqb_spec _ _) eq_refl). f_equal.
      apply filter_none. intros z Hz.
      apply not_true_is_false. intro E. apply eqb_spec in E.
      apply Hnot. rewrite <- E. apply in_map, Hz.
    + destruct (eqb (key y) (key x)) eqn:E.
      * apply eqb_spec in E. exfalso. apply Hnot. rewrite E. apply in_map, HIn.
      * apply IH; assumption.
Qed.

(** ** Series indexed by household *)

Lemma lookup_map_In {B : Type} (f : household -> B) (h : household) (l : list household) :
  In h l -> lookup h (map (fun k => (k, f k)) l) = Some (f h).
Proof.
  induction l as [| k l IH]; simpl; intro H.
  - contradiction.
  - destruct (String.eqb_spec k h) as [-> | N].
    + reflexivity.
    + destruct H as [H | H]; [contradiction | auto].
Qed.

Lemma lookup_map_not_In {B : Type} (f : household -> B) (h : household) (l : list household) :
  ~ In h l -> lookup h (map (fun k => (k, f k)) l) = None.
Proof.
  induction l as [| k l IH]; simpl; intro H.
  - reflexivity.
  - destruct (String.eqb_spec k h) as [-> | N].
    + exfalso. apply H. now left.
    + apply IH. intro. apply H. now right.
Qed.

Lemma lookup_map_entry {B C : Type} (F : household -> B -> C) (h : household)
      (s : list (household * B)) :
  lookup h (map (fun e => (fst e, F (fst e) (snd e))) s)
  = option_map (F h) (lookup h s).
Proof.
  induction s as [| [k v] s IH]; simpl.
  - reflexivity.
  - destruct (String.eqb_spec k h) as [-> | N]; [reflexivity | apply IH].
Qed.

Lemma all_households_index_In (h : household) (t : list reading) :
  In h (all_households_index t) <-> In h (map household_id t).
Proof.
  unfold all_households_index, groupby_size.
  rewrite map_map. simpl. rewrite map_id.
  rewrite stable_sort_In. apply nodup_In.
Qed.

Lemma of_household_true (h : household) (r : reading) :
  of_household h r = true <-> household_id r = h.
Proof. unfold of_household. apply String.eqb_eq. Qed.

Lemma group_count_pos (h : household) (t : list reading) :
  In h (map household_id t) -> 0 < group_count h t.
Proof.
  intro H. apply in_map_iff in H. destruct H as [r [E Hr]].
  assert (Hf : In r (filter (of_household h) t)).
  { apply filter_In. split; [assumption |]. now apply of_household_true. }
  unfold group_count.
  destruct (filter (of_household h) t); [contradiction | simpl; lia].
Qed.

Lemma group_count_zero (h : household) (t : list reading) :
  ~ In h (map household_id t) -> group_count h t = 0.
Proof.
  intro H. unfold group_count. rewrite filter_none; [reflexivity |].
  intros r Hr. apply not_true_is_false. intro E.
  apply of_household_true in E. apply H. rewrite <- E. now apply in_map.
Qed.

Lemma lookup_groupby_size (h : household) (t : list reading) :
  lookup h (groupby_size t)
  = if in_dec string_dec h (map household_id t)
    then Some (group_count h t) else None.
Proof.
  unfold groupby_size.
  destruct (in_dec string_dec h (map household_id t)) as [H | H].
  - apply (lookup_map_In (fun k => group_count k t)).
    apply stable_sort_In, nodup_In. assumption.
  - apply (lookup_map_not_In (fun k => group_count k t)).
    rewrite stable_sort_In, nodup_In. assumption.
Qed.

Lemma lookup_missing_values (h : household) (t : list reading) :
  In h (map household_id t) ->
  lookup h (missing_values_series t) = Some (group_count h (null_rows t)).
Proof.
  intro H. unfold missing_values_series, reindex.
  rewrite (lookup_map_In
             (fun k => match lookup k (groupby_size (null_rows t)) with
                       | Some n => n | None => 0 end)).
  - rewrite lookup_groupby_size.
    destruct (in_dec string_dec h (map household_id (null_rows t))) as [I | I].
    + reflexivity.
    + now rewrite group_count_zero.
  - now apply all_households_index_In.
Qed.

Lemma lookup_percentage_missing (h : household) (t : list reading) :
  In h (map household_id t) ->
  lookup h (percentage_missing_series t)
  = Some (ratio_mul (count_div (group_count h (null_rows t)) (group_count h t)) 100).
Proof.
  intro H. unfold percentage_missing_series, series_div.
  rewrite (lookup_map_entry (fun _ r => ratio_mul r 100)).
  rewrite (lookup_map_entry
             (fun k m => match lookup k (groupby_size t) with
                         | Some n => count_div m n | None => NaN end)).
  rewrite (lookup_missing_values h t H). simpl.
  rewrite lookup_groupby_size.
  destruct (in_dec string_dec h (map household_id t)); [reflexivity | contradiction].
Qed.

Lemma all_households_In (s : household_stat) (t : list reading) :
  In s (all_households t)
  <-> In (stat_household s) (map household_id t) /\ s = stat_of (stat_household s) t.
Proof.
  unfold all_households. rewrite in_map_iff. split.
  - intros [h [E Hh]]. apply all_households_index_In in Hh.
    rewrite (lookup_missing_values h t Hh) in E.
    rewrite (lookup_percentage_missing h t Hh) in E.
    subst s. simpl. split; [assumption | reflexivity].
  - intros [Hh E]. exists (stat_household s). split.
    + rewrite (lookup_missing_values _ t Hh).
      rewrite (lookup_percentage_missing _ t Hh).
      symmetry. exact E.
    + now apply all_households_index_In.
Qed.

Lemma null_rows_count_le (h : household) (t : list reading) :
  0 <= group_count h (null_rows t) <= group_count h t.
Proof.
  unfold group_count, null_rows. split; [lia |].
  apply inj_le.
  induction t as [| r t IH]; simpl; [lia |].
  destruct (isnull (consumption r)); simpl;
    destruct (of_household h r); simpl; lia.
Qed.

(** ** Percentages *)

Lemma Qdiv_counts (m n : Z) :
  0 < n -> (inject_Z m / inject_Z n * 100 == (100 * m) # (Z.to_pos n))%Q.
Proof.
  intro Hn. destruct n as [| n | n]; try lia.
  unfold Qeq, Qdiv, Qmult, Qinv, inject_Z, Qnum, Qden, Z.to_pos.
  rewrite ?Pos.mul_1_r, ?Pos.mul_1_l. lia.
Qed.

Lemma percentage_bounds (m n : Z) :
  0 <= m <= n -> 0 < n ->
  (0 <= inject_Z m / inject_Z n * 100 /\ inject_Z m / inject_Z n * 100 <= 100)%Q.
Proof.
  intros Hm Hn. rewrite (Qdiv_counts m n Hn).
  unfold Qle, Qnum, Qden. rewrite Z2Pos.id by assumption. lia.
Qed.

(** The comparison with 5 on exact counts. *)
Lemma percentage_gt_5 (m n : Z) :
  0 < n ->
  ratio_gt (ratio_mul (count_div m n) 100) 5 = true <-> 5 * n < 100 * m.
Proof.
  intro Hn.
  assert (E : (inject_Z m / inject_Z n * 100 <= 5)%Q <-> 100 * m <= 5 * n).
  { rewrite (Qdiv_counts m n Hn). unfold Qle, Qnum, Qden.
    rewrite Z2Pos.id by assumption. lia. }
  unfold count_div.
  destruct (Z.eqb_spec n 0) as [E0 | _]; [lia |].
  unfold ratio_mul, ratio_gt. rewrite negb_true_iff.
  rewrite <- not_true_iff_false, Qle_bool_iff, E. lia.
Qed.

(** ** Melting *)

Lemma filter_household_column (h k : household) (j : nat) (rows : list wide_row) :
  filter (of_household h)
         (map (fun r => {| GMT := wide_GMT r; household_id := k;
                           consumption := nth j (wide_cells r) None |}) rows)
  = if String.eqb k h
    then map (fun r => {| GMT := wide_GMT r; household_id := k;
                          consumption := nth j (wide_cells r) None |}) rows
    else [].
Proof.
  induction rows as [| r rows IH]; simpl.
  - now destruct (String.eqb k h).
  - unfold of_household at 1. simpl. rewrite IH.
    now destruct (String.eqb k h).
Qed.

Lemma melt_columns_count (h : household) (rows : list wide_row)
      (cols : list household) (s : nat) :
  length (filter (of_household h)
            (flat_map (fun jh : nat * household =>
                         map (fun r => {| GMT := wide_GMT r;
                                          household_id := snd jh;
                                          consumption := nth (fst jh) (wide_cells r) None |})
                             rows)
                      (combine (seq s (length cols)) cols)))
  = (count_occ string_dec cols h * length rows)%nat.
Proof.
  revert s. induction cols as [| k cols IH]; intro s; simpl.
  - reflexivity.
  - rewrite filter_app, length_app, IH. simpl.
    rewrite filter_household_column.
    destruct (string_dec k h) as [-> | N].
    + rewrite String.eqb_refl, length_map. simpl. lia.
    + apply String.eqb_neq in N. rewrite N. simpl. lia.
Qed.

Lemma melt_group_count (h : household) (w : wide_table) :
  NoDup (wide_columns w) -> In h (wide_columns w) ->
  group_count h (melt w) = Z.of_nat (length (wide_rows w)).
Proof.
  intros ND HIn. unfold group_count, melt, enumerate.
  rewrite melt_columns_count.
  rewrite (proj1 (NoDup_count_occ' string_dec (wide_columns w)) ND h HIn).
  f_equal. lia.
Qed.

Lemma combine_seq_In {A : Type} (l : list A) (s j : nat) (x : A) :
  In (j, x) (combine (seq s (length l)) l)
  <-> (s <= j)%nat /\ nth_error l (j - s) = Some x.
Proof.
  revert s. induction l as [| y l IH]; intro s; simpl.
  - split; [contradiction |]. intros [_ H]. now destruct (j - s)%nat.
  - rewrite IH. split.
    + intros [E | [Hle Hn]].
      * injection E as <- <-. split; [lia |]. now rewrite Nat.sub_diag.
      * split; [lia |]. replace (j - s)%nat with (S (j - S s)) by lia. exact Hn.
    + intros [Hle Hn]. destruct (j - s)%nat as [| k] eqn:E.
      * left. injection Hn as <-. f_equal. lia.
      * right. split; [lia |]. replace (j - S s)%nat with k by lia. exact Hn.
Qed.

Lemma enumerate_In {A : Type} (l : list A) (j : nat) (x : A) :
  In (j, x) (enumerate l) <-> nth_error l j = Some x.
Proof.
  unfold enumerate. rewrite combine_seq_In, Nat.sub_0_r.
  split; [tauto | split; [lia | assumption]].
Qed.

Lemma melt_In (r : reading) (w : wide_table) :
  In r (melt w)
  <-> exists j row, nth_error (wide_columns w) j = Some (household_id r)
                    /\ In row (wide_rows w)
                    /\ GMT r = wide_GMT row
                    /\ consumption r = nth j (wide_cells row) None.
Proof.
  unfold melt. rewrite in_flat_map. split.
  - intros [[j h] [Hjh Hr]]. simpl in Hr.
    apply in_map_iff in Hr. destruct Hr as [row [<- Hrow]]. simpl.
    exists j, row. apply enumerate_In in Hjh. auto.
  - intros [j [row [Hj [Hrow [HG HC]]]]].
    exists (j, household_id r). split.
    + now apply enumerate_In.
    + simpl. apply in_map_iff. exists row. split; [| assumption].
      destruct r as [g hh c]. simpl in *. now subst.
Qed.

Lemma melt_households (h : household) (w : wide_table) :
  In h (map household_id (melt w))
  <-> In h (wide_columns w) /\ wide_rows w <> [].
Proof.
  rewrite in_map_iff. split.
  - intros [r [<- Hr]]. apply melt_In in Hr.
    destruct Hr as [j [row [Hj [Hrow _]]]]. split.
    + eapply nth_error_In; eassumption.
    + intro E. rewrite E in Hrow. contradiction.
  - intros [Hh Hrows]. destruct (wide_rows w) as [| row rows] eqn:E; [congruence |].
    destruct (In_nth_error _ _ Hh) as [j Hj].
    exists {| GMT := wide_GMT row; household_id := h;
              consumption := nth j (wide_cells row) None |}.
    split; [reflexivity |]. apply melt_In. exists j, row. simpl.
    rewrite E. simpl. auto.
Qed.

(** ** Missingness statistics *)

(** C10.  With distinct household columns, the denominator of a household's
    percentage is the number of its rows in the melted table, nulls
    included, which is the number of rows of the filtered wide table; when
    that table has a row the denominator is positive, so no division by zero
    takes place, and every percentage of [all_households] is a finite number
    between 0 and 100. *)
Theorem missingness_denominator_positive (consumption_data : wide_table) :
  NoDup (wide_columns consumption_data) ->
  let filtered := consumption_data_filtered consumption_data in
  let melted := consumption_melted consumption_data in
  let n := Z.of_nat (length (wide_rows filtered)) in
  (forall h, In h (wide_columns consumption_data) ->
             group_count h melted = n
             /\ (wide_rows filtered <> [] ->
                 lookup h (groupby_size melted) = Some n /\ 0 < n
                 /\ In (stat_of h melted) (all_households melted)))
  /\ (forall s, In s (all_households melted) ->
                In (stat_household s) (wide_columns consumption_data)
                /\ 0 < n
                /\ 0 <= missing_values s <= n
                /\ exists p, percentage_missing s = Finite p
                             /\ p = (inject_Z (missing_values s) / inject_Z n * 100)%Q
                             /\ (0 <= p)%Q /\ (p <= 100)%Q).
Proof.
  intros ND filtered melted n.
  assert (Hcount : forall h, In h (wide_columns consumption_data) ->
                             group_count h melted = n).
  { intros h Hh. apply (melt_group_count h filtered); assumption. }
  split.
  - intros h Hh. split; [now apply Hcount |]. intro Hrows.
    assert (Hm : In h (map household_id melted)).
    { apply melt_households. split; assumption. }
    assert (Hn : 0 < n).
    { subst n. destruct (wide_rows filtered); [congruence | simpl; lia]. }
    repeat split; try assumption.
    + rewrite lookup_groupby_size.
      destruct (in_dec string_dec h (map household_id melted)); [| contradiction].
      f_equal. now apply Hcount.
    + apply all_households_In. simpl. split; [assumption | reflexivity].
  - intros s Hs. apply all_households_In in Hs. destruct Hs as [Hm Es].
    pose proof (proj1 (melt_households _ filtered) Hm) as [Hh Hrows].
    assert (Hn : 0 < n).
    { subst n. destruct (wide_rows filtered); [congruence | simpl; lia]. }
    pose proof (null_rows_count_le (stat_household s) melted) as Hle.
    rewrite (Hcount _ Hh) in Hle.
    rewrite Es. simpl. rewrite (Hcount _ Hh).
    repeat split; try assumption; try lia.
    unfold count_div. destruct (Z.eqb_spec n 0) as [E0 | _]; [lia |].
    simpl. eexists. split; [reflexivity |]. split; [reflexivity |].
    apply percentage_bounds; assumption.
Qed.

(** ** Imputation *)

Lemma keeps_value_refl (v : option Q) : keeps_value v v.
Proof. intros q H. exact H. Qed.

Lemma Forall2_keeps_trans (l1 l2 l3 : list (option Q)) :
  Forall2 keeps_value l1 l2 -> Forall2 keeps_value l2 l3 ->
  Forall2 keeps_value l1 l3.
Proof.
  intro H. revert l3. induction H as [| a b l1 l2 Hab _ IH]; intros l3 H3.
  - inversion H3. constructor.
  - inversion H3 as [| b' c l2' l3' Hbc H3']; subst. constructor.
    + intros v Hv. apply Hbc, Hab, Hv.
    + apply IH. assumption.
Qed.

Lemma interpolate_from_keeps (xp : list (datetime64 * Q)) (seen : bool)
      (x : list (datetime64 * option Q)) :
  Forall2 keeps_value (map snd x) (interpolate_from xp seen x).
Proof.
  revert seen. induction x as [| [t [q |]] x IH]; intro seen; simpl.
  - constructor.
  - constructor; [apply keeps_value_refl | apply IH].
  - constructor; [intros v Hv; discriminate | apply IH].
Qed.

Lemma ffill_from_keeps (last : option Q) (l : list (option Q)) :
  Forall2 keeps_value l (ffill_from last l).
Proof.
  revert last. induction l as [| [q |] l IH]; intro last; simpl.
  - constructor.
  - constructor; [apply keeps_value_refl | apply IH].
  - constructor; [intros v Hv; discriminate | apply IH].
Qed.

Lemma bfill_keeps (l : list (option Q)) : Forall2 keeps_value l (bfill l).
Proof.
  induction l as [| [q |] l IH]; simpl.
  - constructor.
  - constructor; [apply keeps_value_refl | apply IH].
  - constructor; [intros v Hv; discriminate | apply IH].
Qed.

Lemma impute_keeps (x : list (datetime64 * option Q)) :
  Forall2 keeps_value (map snd x) (impute x).
Proof.
  unfold impute, ffill, interpolate_time.
  eapply Forall2_keeps_trans; [apply interpolate_from_keeps |].
  eapply Forall2_keeps_trans; [apply ffill_from_keeps | apply bfill_keeps].
Qed.

Lemma ffill_from_some_notnull (q : Q) (l : list (option Q)) :
  Forall notnull (ffill_from (Some q) l).
Proof.
  revert q. induction l as [| [q' |] l IH]; intro q; simpl.
  - constructor.
  - constructor; [discriminate | apply IH].
  - constructor; [discriminate | apply IH].
Qed.

Lemma bfill_notnull_id (l : list (option Q)) :
  Forall notnull l -> bfill l = l.
Proof.
  induction 1 as [| [q |] l Hq _ IH]; simpl.
  - reflexivity.
  - now rewrite IH.
  - exfalso. now apply Hq.
Qed.

Lemma bfill_ffill_complete (l : list (option Q)) :
  (exists v, In (Some v) l) -> Forall notnull (bfill (ffill l)).
Proof.
  unfold ffill. induction l as [| [q |] l IH]; intros [v Hv]; simpl.
  - contradiction.
  - rewrite bfill_notnull_id by apply ffill_from_some_notnull.
    constructor; [discriminate | apply ffill_from_some_notnull].
  - destruct Hv as [Hv | Hv]; [discriminate |].
    assert (Hall : Forall notnull (bfill (ffill_from None l))).
    { apply IH. now exists v. }
    constructor; [| assumption].
    pose proof (Forall2_length (ffill_from_keeps None l)) as L1.
    pose proof (Forall2_length (bfill_keeps (ffill_from None l))) as L2.
    destruct (bfill (ffill_from None l)) as [| o m].
    + destruct l; [contradiction | simpl in *; lia].
    + simpl. now inversion Hall.
Qed.

Lemma keeps_In (l l' : list (option Q)) (v : Q) :
  Forall2 keeps_value l l' -> In (Some v) l -> In (Some v) l'.
Proof.
  induction 1 as [| a b l l' Hab _ IH]; simpl.
  - contradiction.
  - intros [-> | H]; [left; now apply Hab | right; now apply IH].
Qed.

(** A series with one known value has none missing once imputed. *)
Lemma impute_complete (x : list (datetime64 * option Q)) :
  (exists v, In (Some v) (map snd x)) -> Forall notnull (impute x).
Proof.
  intros [v Hv]. unfold impute. apply bfill_ffill_complete.
  exists v. eapply keeps_In; [| exact Hv].
  unfold interpolate_time. apply interpolate_from_keeps.
Qed.

Lemma group_series_values (h : household) (t : list reading) :
  map snd (group_series h t) = map consumption (filter (of_household h) t).
Proof. unfold group_series. rewrite map_map. reflexivity. Qed.

Lemma scatter_same_rows (R : option Q -> option Q -> Prop)
      (pool : household -> list (option Q)) (t : list reading) :
  (forall h, Forall2 R (map consumption (filter (of_household h) t)) (pool h)) ->
  same_rows R t (scatter pool t).
Proof.
  unfold same_rows. revert pool.
  induction t as [| r t IH]; intros pool H; simpl.
  - constructor.
  - pose proof (H (household_id r)) as Hr. simpl in Hr.
    unfold of_household at 1 in Hr. rewrite String.eqb_refl in Hr.
    simpl in Hr.
    destruct (pool (household_id r)) as [| v vs] eqn:Ep;
      inversion Hr as [| ? ? ? ? Hov Hrest]; subst.
    constructor.
    + simpl. auto.
    + apply IH. intro k.
      destruct (String.eqb_spec k (household_id r)) as [-> | N].
      * simpl. assumption.
      * specialize (H k). simpl in H.
        unfold of_household at 1 in H.
        assert (N' : String.eqb (household_id r) k = false).
        { apply String.eqb_neq. congruence. }
        rewrite N' in H. assumption.
Qed.

Lemma same_rows_keys (R : option Q -> option Q -> Prop) (t t' : list reading) :
  same_rows R t t' ->
  map (fun r => (GMT r, household_id r)) t' = map (fun r => (GMT r, household_id r)) t.
Proof.
  induction 1 as [| r r' t t' [HG [HH _]] _ IH]; simpl.
  - reflexivity.
  - now rewrite HG, HH, IH.
Qed.

Lemma same_rows_households (R : option Q -> option Q -> Prop) (t t' : list reading) :
  same_rows R t t' -> map household_id t' = map household_id t.
Proof.
  induction 1 as [| r r' t t' [_ [HH _]] _ IH]; simpl.
  - reflexivity.
  - now rewrite HH, IH.
Qed.

Lemma consumption_imputed_same_rows (t : list reading) :
  same_rows keeps_value t (consumption_imputed t).
Proof.
  unfold consumption_imputed. apply scatter_same_rows.
  intro h. rewrite <- group_series_values. apply impute_keeps.
Qed.

(** C9.  The imputed table has, row for row, the timestamps and household
    ids of the table it is computed from, and every reading that was not
    null is unchanged. *)
Theorem imputation_keeps_known_readings (melted_filtered : list reading) :
  same_rows keeps_value melted_filtered (consumption_imputed melted_filtered)
  /\ map (fun r => (GMT r, household_id r)) (consumption_imputed melted_filtered)
     = map (fun r => (GMT r, household_id r)) melted_filtered
  /\ (forall i r v, nth_error melted_filtered i = Some r ->
                    consumption r = Some v ->
                    nth_error (consumption_imputed melted_filtered) i
                    = Some r).
Proof.
  pose proof (consumption_imputed_same_rows melted_filtered) as H.
  split; [exact H |]. split; [eapply same_rows_keys; exact H |].
  unfold same_rows in H. revert H.
  generalize (consumption_imputed melted_filtered) as t'.
  induction melted_filtered as [| r0 t IH]; intros t' H i r v Hi Hv.
  - destruct i; discriminate.
  - inversion H as [| ? r0' ? t0' [HG [HH HK]] Hrest]; subst.
    destruct i as [| i]; simpl in *.
    + injection Hi as ->. f_equal.
      destruct r as [g h c], r0' as [g' h' c']. simpl in *.
      subst. f_equal. now apply HK.
    + eapply IH; eassumption.
Qed.

(** ** Removal of households with too many missing values *)

Lemma isin_In (h : household) (l : list household) : isin h l = true <-> In h l.
Proof.
  unfold isin. rewrite existsb_exists. split.
  - intros [k [Hk E]]. apply String.eqb_eq in E. now subst.
  - intro H. exists h. split; [assumption | apply String.eqb_refl].
Qed.

Lemma households_to_remove_In (h : household) (melted : list reading) :
  In h (households_to_remove melted)
  <-> In h (map household_id melted)
      /\ 5 * group_count h melted < 100 * group_count h (null_rows melted).
Proof.
  unfold households_to_remove. rewrite in_map_iff. split.
  - intros [s [<- Hs]]. apply filter_In in Hs. destruct Hs as [Hs Hgt].
    apply all_households_In in Hs. destruct Hs as [Hm Es].
    split; [assumption |].
    rewrite Es in Hgt. simpl in Hgt.
    apply percentage_gt_5 in Hgt; [assumption | now apply group_count_pos].
  - intros [Hm Hgt]. exists (stat_of h melted). split; [reflexivity |].
    apply filter_In. split.
    + apply all_households_In. simpl. auto.
    + simpl. apply percentage_gt_5; [now apply group_count_pos | assumption].
Qed.

Lemma consumption_melted_filtered_In (r : reading) (melted : list reading) :
  In r (consumption_melted_filtered melted)
  <-> In r melted
      /\ 100 * group_count (household_id r) (null_rows melted)
         <= 5 * group_count (household_id r) melted.
Proof.
  unfold consumption_melted_filtered. rewrite filter_In, negb_true_iff.
  rewrite <- not_true_iff_false, isin_In, households_to_remove_In.
  split.
  - intros [Hr Hn]. split; [assumption |].
    apply Z.nlt_ge. intro Hlt. apply Hn. split; [now apply in_map | lia].
  - intros [Hr Hle]. split; [assumption |]. intros [_ Hlt]. lia.
Qed.

Lemma filter_filter_group {A : Type} (f g : A -> bool) (b : bool) (l : list A) :
  (forall x, f x = true -> g x = b) ->
  filter f (filter g l) = if b then filter f l else [].
Proof.
  intro H. induction l as [| x l IH]; simpl.
  - now destruct b.
  - destruct (f x) eqn:Ef.
    + rewrite <- (H x Ef) in *. destruct (g x); simpl; rewrite ?Ef, IH; reflexivity.
    + destruct (g x); simpl; rewrite ?Ef; exact IH.
Qed.

(** The filter removes whole households: a group is left as it was or is
    gone. *)
Lemma consumption_melted_filtered_group (h : household) (melted : list reading) :
  filter (of_household h) (consumption_melted_filtered melted)
  = if isin h (households_to_remove melted) then []
    else filter (of_household h) melted.
Proof.
  unfold consumption_melted_filtered.
  rewrite (filter_filter_group _ _ (negb (isin h (households_to_remove melted)))).
  - now destruct (isin h (households_to_remove melted)).
  - intros r Hr. apply of_household_true in Hr. now rewrite Hr.
Qed.

Lemma group_has_known_value (h : household) (t : list reading) :
  group_count h (null_rows t) < group_count h t ->
  exists v, In (Some v) (map consumption (filter (of_household h) t)).
Proof.
  unfold group_count, null_rows. intro H. apply Nat2Z.inj_lt in H.
  induction t as [| r t IH]; simpl in *.
  - lia.
  - destruct (of_household h r) eqn:Eh.
    + destruct (consumption r) as [q |] eqn:Ec.
      * exists q. simpl. left. assumption.
      * simpl in H. rewrite Eh in H. simpl in H.
        destruct IH as [v Hv]; [lia |]. exists v. simpl. right. assumption.
    + destruct (isnull (consumption r)); simpl in H; rewrite ?Eh in H;
        apply IH; assumption.
Qed.

(** Every household left by the filter has a known reading, so the
    imputation leaves no null. *)
Lemma retained_group_imputed (h : household) (melted : list reading) :
  Forall2 (fun _ v => notnull v)
          (map consumption
               (filter (of_household h) (consumption_melted_filtered melted)))
          (impute (group_series h (consumption_melted_filtered melted))).
Proof.
  pose proof (impute_keeps (group_series h (consumption_melted_filtered melted))) as K.
  rewrite group_series_values in K.
  assert (C : Forall notnull (impute (group_series h (consumption_melted_filtered melted)))).
  { destruct (filter (of_household h) (consumption_melted_filtered melted))
      as [| r g] eqn:Eg.
    - simpl in K. inversion K. constructor.
    - apply impute_complete. rewrite group_series_values, Eg.
      assert (Hr : In r (filter (of_household h) (consumption_melted_filtered melted))).
      { rewrite Eg. now left. }
      apply filter_In in Hr. destruct Hr as [Hr Hh].
      apply of_household_true in Hh.
      apply consumption_melted_filtered_In in Hr. destruct Hr as [Hr Hle].
      rewrite Hh in Hle.
      assert (Hpos : 0 < group_count h melted).
      { apply group_count_pos. rewrite <- Hh. now apply in_map. }
      rewrite <- Eg, consumption_melted_filtered_group.
      destruct (isin h (households_to_remove melted)) eqn:Ei.
      + apply isin_In, households_to_remove_In in Ei. lia.
      + apply group_has_known_value.
        pose proof (null_rows_count_le h melted). lia. }
  revert C. induction K as [| a b l l' _ _ IH]; intro C.
  - constructor.
  - inversion C; subst. constructor; auto.
Qed.

Lemma consumption_imputed_notnull (melted : list reading) :
  same_rows (fun _ v => notnull v)
            (consumption_melted_filtered melted)
            (consumption_imputed (consumption_melted_filtered melted)).
Proof.
  unfold consumption_imputed. apply scatter_same_rows.
  intro h. apply retained_group_imputed.
Qed.

Lemma same_rows_Forall (P : option Q -> Prop) (t t' : list reading) :
  same_rows (fun _ v => P v) t t' -> Forall (fun r => P (consumption r)) t'.
Proof.
  induction 1 as [| r r' t t' [_ [_ H]] _ IH]; constructor; assumption.
Qed.

(** ** Hourly aggregation *)

Lemma key_eqb_eq (k k' : datetime64 * household) : key_eqb k k' = true <-> k = k'.
Proof.
  destruct k as [t h], k' as [t' h']. unfold key_eqb. simpl.
  rewrite andb_true_iff, Z.eqb_eq, String.eqb_eq.
  split; [intros [-> ->]; reflexivity | intro E; now inversion E].
Qed.

Lemma in_bucket_true (k : datetime64 * household) (r : reading) :
  in_bucket k r = true <-> reading_key r = k.
Proof.
  destruct k as [t h]. unfold in_bucket, reading_key. simpl.
  rewrite andb_true_iff, Z.eqb_eq, String.eqb_eq.
  split; [intros [-> ->]; reflexivity | intro E; now inversion E].
Qed.

Lemma consumption_hourly_keys (imputed : list reading) :
  map hourly_key (consumption_hourly imputed)
  = stable_sort key_leb (nodup key_eq_dec (map reading_key imputed)).
Proof.
  unfold consumption_hourly. rewrite map_map. unfold hourly_key. simpl.
  rewrite <- map_id. apply map_ext. intros [t h]. reflexivity.
Qed.

Lemma consumption_hourly_NoDup (imputed : list reading) :
  NoDup (map hourly_key (consumption_hourly imputed)).
Proof.
  rewrite consumption_hourly_keys. apply stable_sort_NoDup, NoDup_nodup.
Qed.

Lemma consumption_hourly_key_In (k : datetime64 * household) (imputed : list reading) :
  In k (map hourly_key (consumption_hourly imputed))
  <-> In k (map reading_key imputed).
Proof.
  rewrite consumption_hourly_keys, stable_sort_In. apply nodup_In.
Qed.

Lemma consumption_hourly_In (a : hourly_row) (imputed : list reading) :
  In a (consumption_hourly imputed) ->
  a = {| hour := hour a;
         hourly_household_id := hourly_household_id a;
         hourly_consumption :=
           Some (sum_skipna
                   (map consumption (filter (in_bucket (hourly_key a)) imputed))) |}.
Proof.
  unfold consumption_hourly. intro H. apply in_map_iff in H.
  destruct H as [[t h] [<- _]]. reflexivity.
Qed.

Lemma sum_skipna_from (acc : Q) (l : list Q) :
  fold_left (fun a v => match v with Some q => a + q | None => a end)%Q
            (map Some l) acc
  = fold_left Qplus l acc.
Proof.
  revert acc. induction l as [| q l IH]; intro acc; simpl.
  - reflexivity.
  - apply IH.
Qed.

Lemma sum_skipna_values (l : list Q) : sum_skipna (map Some l) = sum_values l.
Proof. apply sum_skipna_from. Qed.

(** ** Merge *)

Lemma filter_tariff_hourly (hr : datetime64) (tariff_filtered : list tariff_row) :
  filter (fun b => tariff_hour b =? hr) (tariff_hourly tariff_filtered)
  = if existsb (fun b => tariff_hour b =? hr) (tariff_hourly tariff_filtered)
    then [{| tariff_hour := hr;
             mean_Price :=
               mean_skipna (map Price (filter (in_tariff_hour hr) tariff_filtered)) |}]
    else [].
Proof.
  destruct (existsb (fun b => tariff_hour b =? hr) (tariff_hourly tariff_filtered))
    eqn:E.
  - apply existsb_exists in E. destruct E as [b [Hb Eb]].
    apply Z.eqb_eq in Eb. subst hr.
    assert (Hb' : b = {| tariff_hour := tariff_hour b;
                         mean_Price :=
                           mean_skipna (map Price (filter (in_tariff_hour (tariff_hour b))
                                                          tariff_filtered)) |}).
    { unfold tariff_hourly in Hb. apply in_map_iff in Hb.
      destruct Hb as [h [<- _]]. reflexivity. }
    rewrite <- Hb'.
    apply (filter_unique_key tariff_hour Z.eqb Z.eqb_eq); [| assumption].
    unfold tariff_hourly. rewrite map_map. simpl. rewrite map_id.
    apply stable_sort_NoDup, NoDup_nodup.
  - apply filter_none. intros b Hb.
    apply not_true_is_false. intro Eb.
    assert (T : existsb (fun b => tariff_hour b =? hr) (tariff_hourly tariff_filtered) = true).
    { apply existsb_exists. exists b. auto. }
    congruence.
Qed.

Lemma merge_left_tariff_hourly (hourly : list hourly_row)
      (tariff_filtered : list tariff_row) :
  merge_left hourly (tariff_hourly tariff_filtered)
  = map (fun a => join_row a (expected_tariff tariff_filtered (hour a))) hourly.
Proof.
  unfold merge_left. induction hourly as [| a l IH]; simpl.
  - reflexivity.
  - rewrite filter_tariff_hourly. unfold expected_tariff at 1.
    destruct (existsb (fun b => tariff_hour b =? hour a) (tariff_hourly tariff_filtered));
      simpl; f_equal; exact IH.
Qed.

Lemma merged_data_perm (hourly : list hourly_row) (tariff_filtered : list tariff_row) :
  Permutation
    (map (fun a => join_row a (expected_tariff tariff_filtered (hour a))) hourly)
    (merged_data hourly (tariff_hourly tariff_filtered)).
Proof.
  unfold merged_data. rewrite merge_left_tariff_hourly. apply stable_sort_perm.
Qed.

Lemma merged_key_join (a : hourly_row) (p : option Q) :
  merged_key (join_row a p) = hourly_key a.
Proof. reflexivity. Qed.

(** C4.  The hourly table has one row per (hour, household) pair of the
    imputed table.  The consumption of a row is the sum of the readings of
    that household whose timestamp plus 30 minutes, floored to the hour, is
    the row's hour: nulls would be skipped, and when those readings are all
    known (as they are after the imputation) it is their plain sum.  The
    readings 0.2 at 2013-06-01 00:30 and 0.3 at 2013-06-01 01:00 of MAC001
    give the single row of hour 2013-06-01 01:00 with consumption 0.5. *)
Theorem hourly_consumption_is_bucket_sum (imputed : list reading) :
  (forall k, In k (map hourly_key (consumption_hourly imputed))
             <-> In k (map reading_key imputed))
  /\ (forall k r, in_bucket k r = true
                  <-> household_id r = snd k
                      /\ dt_floor_H (GMT r + Timedelta_minutes 30) = fst k)
  /\ Forall (fun a =>
               filter (fun b => key_eqb (hourly_key b) (hourly_key a))
                      (consumption_hourly imputed) = [a]
               /\ hourly_consumption a
                  = Some (sum_skipna
                            (map consumption
                                 (filter (in_bucket (hourly_key a)) imputed)))
               /\ (forall vs,
                      map consumption (filter (in_bucket (hourly_key a)) imputed)
                      = map Some vs ->
                      hourly_consumption a = Some (sum_values vs)))
            (consumption_hourly imputed)
  /\ (exists s,
         consumption_hourly scenario_readings
         = [ {| hour := Timestamp 2013 6 1 1 0 0;
                hourly_household_id := "MAC001"%string;
                hourly_consumption := Some s |} ]
         /\ (s == 5 # 10)%Q).
Proof.
  split; [intro k; apply consumption_hourly_key_In |].
  split.
  { intros k r. rewrite in_bucket_true. destruct k as [t h].
    unfold reading_key, hour_of. simpl.
    split; [intro E; inversion E; auto | intros [-> ->]; reflexivity]. }
  split.
  - apply Forall_forall. intros a Ha.
    pose proof (consumption_hourly_In a imputed Ha) as Ea.
    split; [| split].
    + apply (filter_unique_key hourly_key key_eqb key_eqb_eq);
        [apply consumption_hourly_NoDup | assumption].
    + rewrite Ea at 1. reflexivity.
    + intros vs Hvs. rewrite Ea at 1. simpl.
      now rewrite Hvs, sum_skipna_values.
  - eexists. split; [vm_compute; reflexivity | reflexivity].
Qed.

(** The numbers of the two scenarios are exact in binary64 as well: 0.2 plus
    0.3, summed from 0.0, is the binary64 number 0.5, and the mean of 5.0 and
    7.0 is 6.0. *)
#[warnings="-inexact-float"]
Lemma scenarios_in_binary64 :
  sum_binary64 [0.2%float; 0.3%float] = 0.5%float
  /\ mean2_binary64 5%float 7%float = 6%float.
Proof. split; reflexivity. Qed.

Lemma merged_keys_perm (hourly : list hourly_row) (tariff_filtered : list tariff_row) :
  Permutation (map merged_key (merged_data hourly (tariff_hourly tariff_filtered)))
              (map hourly_key hourly).
Proof.
  apply Permutation_sym.
  eapply perm_trans; [| apply Permutation_map, merged_data_perm].
  rewrite map_map. apply Permutation_refl.
Qed.

Lemma sum_skipna_known_from (acc : Q) (l : list (option Q)) :
  fold_left (fun a v => match v with Some q => a + q | None => a end)%Q l acc
  = fold_left Qplus (known_values l) acc.
Proof.
  revert acc. induction l as [| [q |] l IH]; intro acc; simpl.
  - reflexivity.
  - apply IH.
  - apply IH.
Qed.

Lemma count_notnull_known (l : list (option Q)) :
  count_notnull l = Z.of_nat (length (known_values l)).
Proof.
  unfold count_notnull. f_equal.
  induction l as [| [q |] l IH]; simpl; [reflexivity | now rewrite IH | exact IH].
Qed.

Lemma mean_skipna_known (l : list (option Q)) : mean_skipna l = mean_of_known l.
Proof.
  unfold mean_skipna, mean_of_known, sum_skipna, sum_values.
  rewrite sum_skipna_known_from, count_notnull_known.
  destruct (known_values l) as [| q vs]; [reflexivity |].
  destruct (Z.eqb_spec (Z.of_nat (length (q :: vs))) 0) as [E | _]; [| reflexivity].
  simpl in E. lia.
Qed.

(** C5.  The merged table holds, up to the final sort, one row per row of
    the hourly consumption table and nothing else: for each (hour,
    household) pair of the consumption aggregates exactly one merged row has
    that key; it carries the aggregate's consumption, and as tariff the mean
    price of the tariff readings of that hour when the hour is among the
    tariff aggregates, a null when it is not.  An hour is among the tariff
    aggregates exactly when a filtered tariff reading falls in it.  The
    tariff of a merged row is the sum of the known prices of its hour
    divided by their number, a null when the hour has no known price.  With
    the readings 0.2 and 0.3 of MAC001 in the hour 2013-06-01 01:00 and the
    prices 12 and 14 in that hour, the merged table is one row with
    consumption 0.5 and tariff 13. *)
Theorem merge_is_left_join (imputed : list reading) (tariff_filtered : list tariff_row) :
  let hourly := consumption_hourly imputed in
  let merged := merged_data hourly (tariff_hourly tariff_filtered) in
  Permutation (map merged_key merged) (map hourly_key hourly)
  /\ NoDup (map merged_key merged)
  /\ Forall (fun a =>
               filter (fun x => key_eqb (merged_key x) (hourly_key a)) merged
               = [ {| timestamp := hour a;
                      merged_household_id := hourly_household_id a;
                      merged_consumption := hourly_consumption a;
                      tariff :=
                        if existsb (fun b => tariff_hour b =? hour a)
                                   (tariff_hourly tariff_filtered)
                        then mean_skipna
                               (map Price
                                    (filter (fun r => hour_of (tariff_GMT r) =? hour a)
                                            tariff_filtered))
                        else None |} ])
            hourly
  /\ (forall hr, existsb (fun b => tariff_hour b =? hr) (tariff_hourly tariff_filtered)
                 = true
                 <-> exists r, In r tariff_filtered /\ hour_of (tariff_GMT r) = hr)
  /\ Forall (fun x =>
               tariff x
               = match known_values
                         (map Price
                              (filter (fun r => hour_of (tariff_GMT r) =? timestamp x)
                                      tariff_filtered)) with
                 | [] => None
                 | vs => Some (sum_values vs / inject_Z (Z.of_nat (length vs)))%Q
                 end)
            merged
  /\ (exists c p,
         merged_data (consumption_hourly scenario_readings)
                     (tariff_hourly (tariff_data_filtered example_tariff_data))
         = [ {| timestamp := Timestamp 2013 6 1 1 0 0;
                merged_household_id := "MAC001"%string;
                merged_consumption := Some c;
                tariff := Some p |} ]
         /\ (c == 5 # 10)%Q /\ (p == 13 # 1)%Q).
Proof.
  intros hourly merged.
  assert (Hex : forall hr,
             existsb (fun b => tariff_hour b =? hr) (tariff_hourly tariff_filtered)
             = true
             <-> exists r, In r tariff_filtered /\ hour_of (tariff_GMT r) = hr).
  { intro hr. rewrite existsb_exists. unfold tariff_hourly. split.
    + intros [b [Hb Eb]]. apply Z.eqb_eq in Eb.
      apply in_map_iff in Hb. destruct Hb as [h [<- Hh]]. simpl in Eb. subst h.
      apply stable_sort_In, nodup_In, in_map_iff in Hh.
      destruct Hh as [r [Er Hr]]. exists r. auto.
    + intros [r [Hr Er]].
      exists {| tariff_hour := hr;
                mean_Price :=
                  mean_skipna (map Price (filter (in_tariff_hour hr) tariff_filtered)) |}.
      split; [| apply Z.eqb_refl].
      apply in_map_iff. exists hr. split; [reflexivity |].
      apply stable_sort_In, nodup_In, in_map_iff. exists r. auto. }
  pose proof (merged_data_perm hourly tariff_filtered) as HP.
  fold merged in HP.
  pose proof (merged_keys_perm hourly tariff_filtered) as HK.
  fold merged in HK.
  split; [exact HK |].
  assert (ND : NoDup (map merged_key merged)).
  { eapply Permutation_NoDup; [apply Permutation_sym, HK |].
    apply consumption_hourly_NoDup. }
  split; [exact ND |].
  split.
  - apply Forall_forall. intros a Ha.
    change (filter (fun x => key_eqb (merged_key x) (hourly_key a)) merged
            = [join_row a (expected_tariff tariff_filtered (hour a))]).
    rewrite <- (merged_key_join a (expected_tariff tariff_filtered (hour a))).
    apply (filter_unique_key merged_key key_eqb key_eqb_eq); [exact ND |].
    eapply Permutation_in; [exact HP |].
    apply in_map_iff. exists a. auto.
  - split; [exact Hex |]. split.
    + apply Forall_forall. intros x Hx.
      apply (Permutation_in _ (Permutation_sym HP)) in Hx.
      apply in_map_iff in Hx. destruct Hx as [a [<- _]].
      cbn [join_row tariff timestamp].
      change (expected_tariff tariff_filtered (hour a)
              = mean_of_known
                  (map Price (filter (in_tariff_hour (hour a)) tariff_filtered))).
      unfold expected_tariff.
      destruct (existsb (fun b => tariff_hour b =? hour a)
                        (tariff_hourly tariff_filtered)) eqn:E.
      * apply mean_skipna_known.
      * destruct (filter (in_tariff_hour (hour a)) tariff_filtered) as [| r l] eqn:F;
          [reflexivity |].
        assert (Hr : In r (filter (in_tariff_hour (hour a)) tariff_filtered))
          by (rewrite F; now left).
        apply filter_In in Hr. destruct Hr as [Hr Eh].
        apply Z.eqb_eq in Eh.
        assert (T : existsb (fun b => tariff_hour b =? hour a)
                            (tariff_hourly tariff_filtered) = true).
        { apply Hex. exists r. auto. }
        congruence.
    + eexists. eexists. split; [vm_compute; reflexivity |].
      split; reflexivity.
Qed.

(** ** From the melted table to the output *)

Lemma output_household_In (h : household) (tariff_data : list tariff_row)
      (consumption_data : wide_table) :
  In h (map merged_household_id
            (consumption_and_tariff_data_hourly tariff_data consumption_data))
  <-> In h (map household_id
                (consumption_melted_filtered (consumption_melted consumption_data))).
Proof.
  unfold consumption_and_tariff_data_hourly.
  set (kept := consumption_melted_filtered (consumption_melted consumption_data)).
  set (imputed := consumption_imputed kept).
  set (tf := tariff_data_filtered tariff_data).
  assert (E1 : map household_id imputed = map household_id kept).
  { eapply same_rows_households, consumption_imputed_same_rows. }
  rewrite <- E1.
  assert (E2 : forall k, In k (map merged_key
                                   (merged_data (consumption_hourly imputed)
                                                (tariff_hourly tf)))
                         <-> In k (map reading_key imputed)).
  { intro k. rewrite <- consumption_hourly_key_In.
    pose proof (merged_keys_perm (consumption_hourly imputed) tf) as HP.
    split; apply Permutation_in; [| apply Permutation_sym]; exact HP. }
  split.
  - intro H. apply in_map_iff in H. destruct H as [x [<- Hx]].
    assert (Hk : In (merged_key x) (map reading_key imputed)).
    { apply E2. now apply in_map. }
    apply in_map_iff in Hk. destruct Hk as [r [Er Hr]].
    apply in_map_iff. exists r. split; [| assumption].
    unfold reading_key, merged_key in Er. now inversion Er.
  - intro H. apply in_map_iff in H. destruct H as [r [<- Hr]].
    assert (Hk : In (reading_key r)
                    (map merged_key (merged_data (consumption_hourly imputed)
                                                 (tariff_hourly tf)))).
    { apply E2. now apply in_map. }
    apply in_map_iff in Hk. destruct Hk as [x [Ex Hx]].
    apply in_map_iff. exists x. split; [| assumption].
    unfold reading_key, merged_key in Ex. now inversion Ex.
Qed.

Lemma filter_filter_and {A : Type} (p q : A -> bool) (l : list A) :
  filter p (filter q l) = filter (fun x => p x && q x) l.
Proof.
  induction l as [| x l IH]; simpl; [reflexivity |].
  destruct (q x); simpl; destruct (p x); simpl; now rewrite ?IH.
Qed.

(** C3.  Take any household that has a row in the melted 2013 table, and
    let [p] be one hundred times the share of its rows whose reading is
    null.  The missingness table has its row, with that percentage.  If [p]
    exceeds 5 the household is on the removal list and has no row in the
    filtered long table, the imputed table or the output; if [p] is at most
    5 it is not on the list, all its rows stay in the filtered long table
    and it has rows in the imputed table and in the output. *)
Theorem households_over_5_percent_removed
        (tariff_data : list tariff_row) (consumption_data : wide_table)
        (h : household) :
  let melted := consumption_melted consumption_data in
  let kept := consumption_melted_filtered melted in
  let output := consumption_and_tariff_data_hourly tariff_data consumption_data in
  let p := (inject_Z (Z.of_nat (length (filter (fun r => String.eqb (household_id r) h
                                                           && isnull (consumption r))
                                               melted)))
            / inject_Z (Z.of_nat (length (filter (fun r => String.eqb (household_id r) h)
                                                 melted)))
            * 100)%Q in
  In h (map household_id melted) ->
  (exists s, In s (all_households melted)
             /\ stat_household s = h
             /\ percentage_missing s = Finite p)
  /\ ((5 < p)%Q ->
      In h (households_to_remove melted)
      /\ ~ In h (map household_id kept)
      /\ ~ In h (map household_id (consumption_imputed kept))
      /\ ~ In h (map merged_household_id output))
  /\ ((p <= 5)%Q ->
      ~ In h (households_to_remove melted)
      /\ filter (of_household h) kept = filter (of_household h) melted
      /\ In h (map household_id kept)
      /\ In h (map household_id (consumption_imputed kept))
      /\ In h (map merged_household_id output)).
Proof.
  intros melted kept output p Hm.
  assert (Ec : Z.of_nat (length (filter (fun r => String.eqb (household_id r) h
                                                  && isnull (consumption r)) melted))
               = group_count h (null_rows melted)).
  { unfold group_count, null_rows. rewrite filter_filter_and. reflexivity. }
  assert (Ep : p = (inject_Z (group_count h (null_rows melted))
                    / inject_Z (group_count h melted) * 100)%Q).
  { unfold p. rewrite Ec. reflexivity. }
  rewrite Ep. clear Ep Ec p.
  pose proof (group_count_pos h melted Hm) as Hpos.
  pose proof (percentage_gt_5 (group_count h (null_rows melted))
                              (group_count h melted) Hpos) as Hgt.
  assert (E1 : map household_id (consumption_imputed kept) = map household_id kept).
  { eapply same_rows_households, consumption_imputed_same_rows. }
  assert (Es : percentage_missing (stat_of h melted)
               = Finite (inject_Z (group_count h (null_rows melted))
                         / inject_Z (group_count h melted) * 100)%Q).
  { simpl. unfold count_div.
    destruct (Z.eqb_spec (group_count h melted) 0); [lia | reflexivity]. }
  simpl in Es. rewrite Es in Hgt.
  simpl in Hgt. rewrite negb_true_iff, <- not_true_iff_false, Qle_bool_iff in Hgt.
  assert (Hrm : In h (map household_id kept)
                <-> ~ 5 * group_count h melted
                      < 100 * group_count h (null_rows melted)).
  { split.
    - intros H Hlt. apply in_map_iff in H. destruct H as [r [Er Hr]].
      apply consumption_melted_filtered_In in Hr. rewrite Er in Hr. lia.
    - intro Hn. apply in_map_iff in Hm. destruct Hm as [r [Er Hr]].
      apply in_map_iff. exists r. split; [assumption |].
      apply consumption_melted_filtered_In. rewrite Er. split; [assumption | lia]. }
  split.
  { exists (stat_of h melted). split; [| split; [reflexivity | exact Es]].
    apply all_households_In. split; [exact Hm | reflexivity]. }
  split.
  - intro Hlt. apply Qlt_not_le in Hlt. apply Hgt in Hlt.
    assert (N : ~ In h (map household_id kept)) by (rewrite Hrm; tauto).
    split; [apply households_to_remove_In; split; assumption |].
    split; [exact N |]. split; [now rewrite E1 |].
    unfold output. now rewrite output_household_In.
  - intro Hle.
    assert (Hn : ~ 5 * group_count h melted < 100 * group_count h (null_rows melted))
      by tauto.
    assert (I : In h (map household_id kept)) by now apply Hrm.
    assert (Hnot : ~ In h (households_to_remove melted)).
    { intro Hin. apply households_to_remove_In in Hin. tauto. }
    split; [exact Hnot |].
    split; [| split; [exact I | split; [now rewrite E1 |]]].
    + unfold kept. rewrite consumption_melted_filtered_group.
      destruct (isin h (households_to_remove melted)) eqn:Ei; [| reflexivity].
      apply isin_In in Ei. contradiction.
    + unfold output. now rewrite output_household_In.
Qed.

(** ** Nulls after imputation *)

Lemma merged_consumption_notnull (imputed : list reading)
      (tariff_filtered : list tariff_row) :
  Forall (fun x => notnull (merged_consumption x))
         (merged_data (consumption_hourly imputed) (tariff_hourly tariff_filtered)).
Proof.
  apply Forall_forall. intros x Hx.
  apply (Permutation_in _ (Permutation_sym (merged_data_perm _ _))) in Hx.
  apply in_map_iff in Hx. destruct Hx as [a [<- Ha]].
  rewrite (consumption_hourly_In a imputed Ha). simpl. discriminate.
Qed.

(** C1.  The condition of the claim never arises, so the run never has to
    stop.  The table that leaves the imputation has the rows of the filtered
    long table, none lost and none added, and none of its readings is a
    null: every household kept by the 5% filter has a known reading.  The
    null count printed after the imputation is therefore 0; the aggregation
    works on a table without nulls, every household of that table reaches
    the merged output, and no row of the merged output has a null
    consumption.  On the example table the reading of MAC001 at 2013-06-01
    01:30, a null between 0.2 and 0.4, leaves the imputation as 0.3. *)
Theorem imputation_leaves_no_null
        (tariff_data : list tariff_row) (consumption_data : wide_table) :
  let kept := consumption_melted_filtered (consumption_melted consumption_data) in
  let imputed := consumption_imputed kept in
  let output := consumption_and_tariff_data_hourly tariff_data consumption_data in
  map (fun r => (GMT r, household_id r)) imputed
  = map (fun r => (GMT r, household_id r)) kept
  /\ Forall (fun r => notnull (consumption r)) imputed
  /\ missing_values_after_imputation imputed = (0, 0, 0)
  /\ (forall h, In h (map household_id imputed) -> In h (map merged_household_id output))
  /\ Forall (fun x => notnull (merged_consumption x)) output
  /\ (exists q,
         nth_error (consumption_melted_filtered
                      (consumption_melted example_consumption_data)) 2
         = Some {| GMT := Timestamp 2013 6 1 1 30 0;
                   household_id := "MAC001"%string;
                   consumption := None |}
         /\ nth_error (consumption_imputed
                         (consumption_melted_filtered
                            (consumption_melted example_consumption_data))) 2
            = Some {| GMT := Timestamp 2013 6 1 1 30 0;
                      household_id := "MAC001"%string;
                      consumption := Some q |}
         /\ (q == 3 # 10)%Q).
Proof.
  intros kept imputed output.
  pose proof (consumption_imputed_same_rows kept) as Hrows. fold imputed in Hrows.
  assert (H : Forall (fun r => notnull (consumption r)) imputed).
  { eapply same_rows_Forall. apply consumption_imputed_notnull. }
  split; [exact (same_rows_keys _ _ _ Hrows) |].
  split; [exact H |]. split; [| split; [| split]].
  - unfold missing_values_after_imputation. rewrite filter_none; [reflexivity |].
    intros r Hr. rewrite Forall_forall in H. specialize (H r Hr).
    destruct (consumption r); [reflexivity | now elim H].
  - intros h Hh. rewrite (same_rows_households _ _ _ Hrows) in Hh.
    apply (proj2 (output_household_In h tariff_data consumption_data)). exact Hh.
  - apply merged_consumption_notnull.
  - set (example := consumption_melted_filtered
                      (consumption_melted example_consumption_data)).
    vm_compute in example.
    set (after := nth_error (consumption_imputed example) 2).
    vm_compute in after.
    eexists. split; [reflexivity |]. split; reflexivity.
Qed.

(** ** Weather: duplicate labels *)

Lemma datetime_leb_total (a b : weather_row) :
  datetime_leb a b = false -> datetime_leb b a = true.
Proof. unfold datetime_leb. rewrite Z.leb_gt, Z.leb_le. lia. Qed.

Lemma datetime_leb_trans (a b c : weather_row) :
  datetime_leb a b = true -> datetime_leb b c = true -> datetime_leb a c = true.
Proof. unfold datetime_leb. rewrite !Z.leb_le. lia. Qed.

Lemma StronglySorted_weaken {A : Type} (R R' : A -> A -> Prop) (l : list A) :
  (forall a b, R a b -> R' a b) -> StronglySorted R l -> StronglySorted R' l.
Proof.
  intros HR. induction 1 as [| a l _ IH Ha]; constructor.
  - exact IH.
  - eapply Forall_impl; [| exact Ha]. intros b Hb. now apply HR.
Qed.

Lemma sort_index_stable_sorts : sorts_by_index sort_index_stable.
Proof.
  intro df. unfold sort_index_stable. split.
  - apply stable_sort_perm.
  - apply StronglySorted_weaken with (R := fun a b => datetime_leb a b = true).
    + intros a b. unfold datetime_leb. apply Z.leb_le.
    + apply stable_sort_sorted; [apply datetime_leb_total | apply datetime_leb_trans].
Qed.


Lemma seen_spec (t : datetime64) (seen : list datetime64) :
  existsb (Z.eqb t) seen = true <-> In t seen.
Proof.
  rewrite existsb_exists. split.
  - intros [x [Hx E]]. apply Z.eqb_eq in E. now subst.
  - intro H. exists t. split; [assumption | apply Z.eqb_refl].
Qed.

Lemma drop_from_In (seen : list datetime64) (df : weather_table) (r : weather_row) :
  In r (boolean_mask df (map negb (duplicated_from seen (index df)))) ->
  In r df /\ ~ In (datetime r) seen.
Proof.
  revert seen. induction df as [| x df IH]; intro seen; simpl.
  - contradiction.
  - destruct (existsb (Z.eqb (datetime x)) seen) eqn:E; simpl.
    + intro H. apply IH in H. destruct H as [H1 H2]. split; [now right |].
      intro. apply H2. now right.
    + intros [<- | H].
      * split; [now left |]. rewrite <- seen_spec. congruence.
      * apply IH in H. destruct H as [H1 H2]. split; [now right |].
        intro. apply H2. now right.
Qed.

Lemma drop_from_index_In (seen : list datetime64) (df : weather_table) (ts : datetime64) :
  In ts (index (boolean_mask df (map negb (duplicated_from seen (index df)))))
  <-> In ts (index df) /\ ~ In ts seen.
Proof.
  revert seen. induction df as [| x df IH]; intro seen; simpl.
  - tauto.
  - destruct (existsb (Z.eqb (datetime x)) seen) eqn:E; simpl.
    + apply seen_spec in E. rewrite IH. simpl. split.
      * intros [H1 H2]. split; [now right | tauto].
      * intros [[H1 | H1] H2]; [subst; contradiction |].
        split; [assumption |]. intros [H3 | H3]; [| contradiction].
        subst. contradiction.
    + assert (N : ~ In (datetime x) seen) by (rewrite <- seen_spec; congruence).
      rewrite IH. simpl.
      destruct (Z.eq_dec (datetime x) ts) as [D | D]; [subst ts |]; intuition.
Qed.

Lemma drop_from_NoDup (seen : list datetime64) (df : weather_table) :
  NoDup (index (boolean_mask df (map negb (duplicated_from seen (index df))))).
Proof.
  revert seen. induction df as [| x df IH]; intro seen; simpl.
  - constructor.
  - destruct (existsb (Z.eqb (datetime x)) seen) eqn:E; simpl.
    + apply IH.
    + constructor; [| apply IH].
      intro H. apply drop_from_index_In in H. destruct H as [_ H].
      apply H. now left.
Qed.

Lemma drop_from_find (seen : list datetime64) (df : weather_table) (ts : datetime64) :
  ~ In ts seen ->
  find (at_time ts) (boolean_mask df (map negb (duplicated_from seen (index df))))
  = find (at_time ts) df.
Proof.
  revert seen. induction df as [| x df IH]; intros seen N; simpl.
  - reflexivity.
  - destruct (existsb (Z.eqb (datetime x)) seen) eqn:E; simpl.
    + apply seen_spec in E. unfold at_time at 2.
      destruct (Z.eqb_spec (datetime x) ts) as [Heq | D];
        [rewrite Heq in E; contradiction |].
      apply IH. intros [H | H]; contradiction.
    + unfold at_time at 1 3.
      destruct (Z.eqb_spec (datetime x) ts) as [Heq | D]; [reflexivity |].
      apply IH. intros [H | H]; contradiction.
Qed.

Lemma drop_from_sorted (seen : list datetime64) (df : weather_table) :
  StronglySorted datetime_le df ->
  StronglySorted datetime_le
                 (boolean_mask df (map negb (duplicated_from seen (index df)))).
Proof.
  intro H. revert seen. induction H as [| x df _ IH Hx]; intro seen; simpl.
  - constructor.
  - destruct (existsb (Z.eqb (datetime x)) seen); simpl.
    + apply IH.
    + constructor; [apply IH |].
      rewrite Forall_forall in Hx |- *. intros r Hr.
      apply drop_from_In in Hr. apply Hx. tauto.
Qed.

(** ** Ordered tables *)

Lemma StronglySorted_index (df : weather_table) :
  StronglySorted datetime_le df <-> StronglySorted Z.le (index df).
Proof.
  induction df as [| r df IH]; simpl.
  - split; constructor.
  - split; intro H; inversion H as [| ? ? Hs Hf]; subst; constructor.
    + now apply IH.
    + unfold index. rewrite Forall_map. exact Hf.
    + now apply IH.
    + unfold index in Hf. rewrite Forall_map in Hf. exact Hf.
Qed.

Lemma le_sorted_NoDup_lt (l : list Z) :
  StronglySorted Z.le l -> NoDup l -> StronglySorted Z.lt l.
Proof.
  induction 1 as [| a l _ IH Ha]; intro ND.
  - constructor.
  - inversion ND as [| ? ? Hnot ND']; subst. constructor; [now apply IH |].
    rewrite Forall_forall in Ha |- *. intros x Hx.
    specialize (Ha x Hx).
    assert (a <> x) by (intro; subst; contradiction). lia.
Qed.

Lemma lt_sorted_NoDup (l : list Z) : StronglySorted Z.lt l -> NoDup l.
Proof.
  induction 1 as [| a l _ IH Ha]; constructor; [| exact IH].
  intro H. rewrite Forall_forall in Ha. specialize (Ha a H). lia.
Qed.

(** An ordered list of labels is determined by the set of its labels. *)
Lemma lt_sorted_ext (l1 l2 : list Z) :
  StronglySorted Z.lt l1 -> StronglySorted Z.lt l2 ->
  (forall x, In x l1 <-> In x l2) -> l1 = l2.
Proof.
  intro H1. revert l2.
  induction H1 as [| a l1 Hs1 IH Ha]; intros l2 H2 E.
  - destruct l2 as [| b l2]; [reflexivity |].
    exfalso. apply (proj2 (E b)). now left.
  - destruct H2 as [| b l2 Hs2 Hb].
    + exfalso. apply (proj1 (E a)). now left.
    + rewrite Forall_forall in Ha, Hb.
      assert (Eab : a = b).
      { destruct (proj1 (E a) (or_introl eq_refl)) as [Hab | Hab]; [now subst |].
        destruct (proj2 (E b) (or_introl eq_refl)) as [Hba | Hba]; [now subst |].
        specialize (Ha b Hba). specialize (Hb a Hab). lia. }
      subst b. f_equal. apply IH; [assumption |].
      intro x. split; intro Hx.
      * destruct (proj1 (E x) (or_intror Hx)) as [Hxa | Hx2]; [| assumption].
        subst x. specialize (Ha a Hx). lia.
      * destruct (proj2 (E x) (or_intror Hx)) as [Hxa | Hx1]; [| assumption].
        subst x. specialize (Hb a Hx). lia.
Qed.

(** Two ordered arrangements of the same rows are the same table when no
    label is repeated. *)
Lemma sorted_perm_unique (l1 l2 : weather_table) :
  StronglySorted datetime_le l1 -> StronglySorted datetime_le l2 ->
  Permutation l1 l2 -> NoDup (index l1) -> l1 = l2.
Proof.
  intro H1. revert l2.
  induction H1 as [| a l1 Hs1 IH Ha]; intros l2 H2 HP ND.
  - apply Permutation_nil in HP. now subst.
  - destruct H2 as [| b l2 Hs2 Hb].
    + apply Permutation_sym, Permutation_nil in HP. discriminate.
    + rewrite Forall_forall in Ha, Hb.
      simpl in ND. inversion ND as [| ? ? Hnot ND']; subst.
      assert (Eab : a = b).
      { assert (Ia : In a (b :: l2)).
        { eapply Permutation_in; [exact HP | now left]. }
        assert (Ib : In b (a :: l1)).
        { eapply Permutation_in; [apply Permutation_sym; exact HP | now left]. }
        destruct Ia as [Ia | Ia]; [now subst |].
        destruct Ib as [Ib | Ib]; [now subst |].
        specialize (Ha b Ib). specialize (Hb a Ia).
        unfold datetime_le in *.
        exfalso. apply Hnot.
        replace (datetime a) with (datetime b) by lia.
        now apply in_map. }
      subst b. f_equal. apply IH; try assumption.
      eapply Permutation_cons_inv. exact HP.
Qed.

Lemma sorted_neighbours (before after : weather_table) (prev next : weather_row) :
  StronglySorted Z.lt (index (before ++ prev :: next :: after)) ->
  (forall r, In r before -> datetime r < datetime prev)
  /\ datetime prev < datetime next
  /\ (forall r, In r after -> datetime next < datetime r).
Proof.
  induction before as [| x before IH]; simpl; intro H.
  - inversion H as [| ? ? Hs Hf]; subst.
    inversion Hs as [| ? ? Hs' Hf']; subst.
    rewrite Forall_forall in Hf, Hf'.
    split; [contradiction |]. split.
    + apply Hf. now left.
    + intros r Hr. apply Hf'. now apply in_map.
  - inversion H as [| ? ? Hs Hf]; subst.
    destruct (IH Hs) as [H1 [H2 H3]].
    split; [| split; assumption].
    intros r [<- | Hr]; [| now apply H1].
    rewrite Forall_forall in Hf. apply Hf.
    unfold index. rewrite map_app. apply in_or_app. right. now left.
Qed.

Lemma loc_unique (df extra : weather_table) (r : weather_row) :
  NoDup (index df) -> In r df ->
  loc (df ++ extra) (datetime r) = Some r.
Proof.
  unfold loc. induction df as [| x df IH]; simpl; intros ND HIn.
  - contradiction.
  - inversion ND as [| ? ? Hnot ND']; subst.
    unfold at_time at 1.
    destruct (Z.eqb_spec (datetime x) (datetime r)) as [E | D].
    + destruct HIn as [-> | HIn]; [reflexivity |].
      exfalso. apply Hnot. rewrite E. now apply in_map.
    + destruct HIn as [-> | HIn]; [congruence |]. now apply IH.
Qed.

(** ** Weather: the gap loop *)

Lemma unusual_entries_cons (a b : datetime64) (l : list datetime64) :
  unusual_entries (a :: b :: l)
  = if b - a =? Timedelta_hours 1 then unusual_entries (b :: l)
    else (b, b - a) :: unusual_entries (b :: l).
Proof.
  unfold unusual_entries. cbn [time_diffs filter snd].
  now destruct (b - a =? Timedelta_hours 1).
Qed.

Lemma synthesized_rows_cons (prev next : weather_row) (df : weather_table) :
  synthesized_rows (prev :: next :: df)
  = if datetime next - datetime prev =? Timedelta_hours 2
    then interpolated_row (datetime prev + Timedelta_hours 1) prev next
         :: synthesized_rows (next :: df)
    else synthesized_rows (next :: df).
Proof. reflexivity. Qed.

Lemma set_loc_new (df : weather_table) (ts : datetime64) (row : weather_row) :
  (forall r, In r df -> datetime r <> ts) -> set_loc df ts row = df ++ [row].
Proof.
  intro H. unfold set_loc.
  destruct (existsb (at_time ts) df) eqn:E; [| reflexivity].
  apply existsb_exists in E. destruct E as [r [Hr Er]].
  apply Z.eqb_eq in Er. exfalso. now apply (H r).
Qed.

(** The loop over a table [t] with strictly increasing labels, seen when
    the entries left to visit are those of the rows [rest]: the rows [acc]
    added so far all lie before [rest]. *)
Lemma fill_loop (t : weather_table) :
  StronglySorted Z.lt (index t) ->
  forall rest done acc,
    t = done ++ rest ->
    (forall r s, In r acc -> In s rest -> datetime r < datetime s) ->
    fold_left fill_step (unusual_entries (index rest)) (Some (t ++ acc))
    = Some (t ++ acc ++ synthesized_rows rest).
Proof.
  intros Hs rest.
  induction rest as [| prev rest IH]; intros done acc Et Hacc.
  - simpl. now rewrite app_nil_r.
  - destruct rest as [| next rest].
    + simpl. now rewrite app_nil_r.
    + change (index (prev :: next :: rest))
        with (datetime prev :: datetime next :: index rest).
      rewrite unusual_entries_cons, synthesized_rows_cons.
      assert (Et' : t = (done ++ [prev]) ++ next :: rest).
      { rewrite <- app_assoc. exact Et. }
      pose proof Hs as Hn. rewrite Et in Hn.
      apply sorted_neighbours in Hn. destruct Hn as [Hbefore [Hlt Hafter]].
      assert (Hacc' : forall r s, In r acc -> In s (next :: rest) ->
                                  datetime r < datetime s).
      { intros r s Hr Hs'. apply Hacc; [assumption | now right]. }
      change (index (next :: rest)) with (datetime next :: index rest) in IH.
      unfold Timedelta_hours, SECONDS_PER_HOUR in *.
      destruct (Z.eqb_spec (datetime next - datetime prev) (3600 * 1)) as [E1 | N1].
      * destruct (Z.eqb_spec (datetime next - datetime prev) (3600 * 2)); [lia |].
        apply (IH (done ++ [prev]) acc Et' Hacc').
      * cbn [fold_left]. unfold fill_step at 2.
        unfold Timedelta_hours, SECONDS_PER_HOUR.
        destruct (Z.eqb_spec (datetime next - datetime prev) (3600 * 2)) as [E2 | N2].
        -- replace (datetime next - 3600 * 2) with (datetime prev) by lia.
           assert (ND : NoDup (index t)) by now apply lt_sorted_NoDup.
           rewrite (loc_unique t acc prev ND)
             by (rewrite Et; apply in_or_app; right; now left).
           rewrite (loc_unique t acc next ND)
             by (rewrite Et; apply in_or_app; right; right; now left).
           rewrite set_loc_new.
           ++ rewrite <- app_assoc.
              replace (acc ++ interpolated_row (datetime prev + 3600 * 1) prev next
                           :: synthesized_rows (next :: rest))
                with ((acc ++ [interpolated_row (datetime prev + 3600 * 1) prev next])
                        ++ synthesized_rows (next :: rest))
                by (now rewrite <- app_assoc).
              apply (IH (done ++ [prev]) _ Et').
              intros r s Hr Hs'. apply in_app_or in Hr.
                 destruct Hr as [Hr | [<- | []]]; [now apply Hacc' |].
                 simpl. destruct Hs' as [<- | Hs']; [lia |].
                 specialize (Hafter s Hs'). lia.
           ++ intros r Hr. apply in_app_or in Hr. destruct Hr as [Hr | Hr].
              ** rewrite Et in Hr. apply in_app_or in Hr.
                 destruct Hr as [Hr | [<- | [<- | Hr]]].
                 --- specialize (Hbefore r Hr). lia.
                 --- lia.
                 --- lia.
                 --- specialize (Hafter r Hr). lia.
              ** specialize (Hacc r prev Hr (or_introl eq_refl)). lia.
        -- apply (IH (done ++ [prev]) acc Et' Hacc').
Qed.

(** On a table with strictly increasing labels no lookup of the loop fails,
    and the loop adds exactly the synthesized rows, at the end. *)
Lemma fill_gaps_spec (df : weather_table) :
  StronglySorted Z.lt (index df) ->
  fill_gaps df = Some (df ++ synthesized_rows df).
Proof.
  intro Hs. unfold fill_gaps.
  pose proof (fill_loop df Hs df [] [] eq_refl) as H.
  rewrite app_nil_r in H. simpl in H. apply H.
  intros r s [].
Qed.

Lemma synthesized_rows_index (df : weather_table) :
  index (synthesized_rows df) = midpoints (index df).
Proof.
  induction df as [| prev df IH]; [reflexivity |].
  destruct df as [| next df]; [reflexivity |].
  rewrite synthesized_rows_cons.
  change (index (prev :: next :: df))
    with (datetime prev :: index (next :: df)).
  change (index (next :: df)) with (datetime next :: index df) at 1.
  cbn [midpoints].
  destruct (datetime next - datetime prev =? Timedelta_hours 2).
  - change (index (next :: df)) with (datetime next :: index df) in IH.
    cbn [index map]. fold (index (synthesized_rows (next :: df))).
    now rewrite IH.
  - exact IH.
Qed.

Lemma synthesized_rows_In (df : weather_table) (row : weather_row) :
  In row (synthesized_rows df)
  <-> exists prev next,
        neighbours df prev next
        /\ datetime next - datetime prev = Timedelta_hours 2
        /\ row = interpolated_row (datetime prev + Timedelta_hours 1) prev next.
Proof.
  induction df as [| p df IH].
  - simpl. split; [contradiction |].
    intros [prev [next [[before [after E]] _]]]. now destruct before.
  - destruct df as [| n df].
    + simpl. split; [contradiction |].
      intros [prev [next [[before [after E]] _]]].
      destruct before as [| x [| y before]]; discriminate.
    + rewrite synthesized_rows_cons. split.
      * intro H.
        destruct (Z.eqb_spec (datetime n - datetime p) (Timedelta_hours 2)) as [E | N].
        -- destruct H as [<- | H].
           ++ exists p, n. split; [exists [], df; reflexivity | auto].
           ++ apply IH in H. destruct H as [prev [next [[before [after E']] H]]].
              exists prev, next. split; [| exact H].
              exists (p :: before), after. simpl. now rewrite E'.
        -- apply IH in H. destruct H as [prev [next [[before [after E']] H]]].
           exists prev, next. split; [| exact H].
           exists (p :: before), after. simpl. now rewrite E'.
      * intros [prev [next [[before [after E]] [Hgap Hrow]]]].
        destruct before as [| x before].
        -- simpl in E. injection E as -> -> ->.
           rewrite (proj2 (Z.eqb_eq _ _) Hgap). left. now symmetry.
        -- simpl in E. injection E as -> E.
           assert (H : In row (synthesized_rows (n :: df))).
           { apply IH. exists prev, next. split; [| auto].
             exists before, after. exact E. }
           destruct (datetime n - datetime x =? Timedelta_hours 2);
             [right |]; exact H.
Qed.

Lemma neighbours_outside (df : weather_table) (prev next r : weather_row) :
  StronglySorted Z.lt (index df) -> neighbours df prev next -> In r df ->
  datetime r <= datetime prev \/ datetime next <= datetime r.
Proof.
  intros Hs [before [after E]] Hr. subst df.
  apply sorted_neighbours in Hs. destruct Hs as [H1 [H2 H3]].
  apply in_app_or in Hr. destruct Hr as [Hr | [<- | [<- | Hr]]].
  - left. specialize (H1 r Hr). lia.
  - left. lia.
  - right. lia.
  - right. specialize (H3 r Hr). lia.
Qed.

Lemma neighbours_In (df : weather_table) (prev next : weather_row) :
  neighbours df prev next -> In prev df /\ In next df.
Proof.
  intros [before [after ->]]. split; apply in_or_app; right; simpl; auto.
Qed.

Lemma find_hd_filter {A : Type} (f : A -> bool) (l : list A) :
  find f l = hd_error (filter f l).
Proof.
  induction l as [| x l IH]; simpl; [reflexivity |].
  destruct (f x); [reflexivity | exact IH].
Qed.

(** The insertion sort keeps rows of equal label in their order of
    arrival. *)
Lemma insert_sorted_filter (ts : datetime64) (x : weather_row) (l : weather_table) :
  StronglySorted datetime_le l ->
  filter (at_time ts) (insert_sorted datetime_leb x l)
  = filter (at_time ts) (x :: l).
Proof.
  induction 1 as [| y l _ IH Hy]; [reflexivity |].
  cbn [insert_sorted]. unfold datetime_leb at 1.
  destruct (Z.leb_spec (datetime x) (datetime y)) as [Hle | Hgt]; [reflexivity |].
  cbn [filter]. rewrite IH. cbn [filter].
  unfold at_time.
  destruct (Z.eqb_spec (datetime y) ts), (Z.eqb_spec (datetime x) ts);
    try reflexivity. lia.
Qed.

Lemma sort_index_stable_filter (ts : datetime64) (df : weather_table) :
  filter (at_time ts) (sort_index_stable df) = filter (at_time ts) df.
Proof.
  unfold sort_index_stable.
  induction df as [| x df IH]; [reflexivity |].
  cbn [stable_sort fold_right]. fold (stable_sort datetime_leb df).
  rewrite insert_sorted_filter.
  - cbn [filter]. now rewrite IH.
  - apply (proj2 (sort_index_stable_sorts df)).
Qed.

(** ** Hourly ranges *)

Lemma hourly_range_S (start : datetime64) (n : nat) :
  hourly_range start (S n)
  = start :: hourly_range (start + Timedelta_hours 1) n.
Proof.
  unfold hourly_range. cbn [seq map].
  f_equal; [unfold Timedelta_hours; simpl; lia |].
  rewrite <- seq_shift, map_map. apply map_ext. intro k.
  unfold Timedelta_hours, SECONDS_PER_HOUR. lia.
Qed.

Lemma hourly_range_In (start : datetime64) (n : nat) (ts : datetime64) :
  In ts (hourly_range start n)
  <-> exists k, (k < n)%nat /\ ts = start + Timedelta_hours (Z.of_nat k).
Proof.
  unfold hourly_range. rewrite in_map_iff. split.
  - intros [k [<- Hk]]. apply in_seq in Hk. exists k. split; [lia | reflexivity].
  - intros [k [Hk ->]]. exists k. split; [reflexivity |]. apply in_seq. lia.
Qed.

Lemma hourly_range_lower (start : datetime64) (n : nat) (ts : datetime64) :
  In ts (hourly_range start n) -> start <= ts.
Proof.
  intro H. apply hourly_range_In in H. destruct H as [k [_ ->]].
  unfold Timedelta_hours, SECONDS_PER_HOUR. lia.
Qed.

Lemma hourly_range_sorted (start : datetime64) (n : nat) :
  StronglySorted Z.lt (hourly_range start n).
Proof.
  revert start. induction n as [| n IH]; intro start.
  - constructor.
  - rewrite hourly_range_S. constructor; [apply IH |].
    apply Forall_forall. intros ts Hts. apply hourly_range_lower in Hts.
    unfold Timedelta_hours, SECONDS_PER_HOUR in Hts. lia.
Qed.

Lemma filter_sorted {A : Type} (R : A -> A -> Prop) (f : A -> bool) (l : list A) :
  StronglySorted R l -> StronglySorted R (filter f l).
Proof.
  induction 1 as [| a l _ IH Ha]; simpl.
  - constructor.
  - destruct (f a); [| exact IH]. constructor; [exact IH |].
    rewrite Forall_forall in Ha |- *. intros x Hx.
    apply filter_In in Hx. now apply Ha.
Qed.

Lemma midpoints_hourly_range (start : datetime64) (n : nat) :
  midpoints (hourly_range start n) = [].
Proof.
  revert start. induction n as [| n IH]; intro start; [reflexivity |].
  rewrite hourly_range_S. destruct n as [| n]; [reflexivity |].
  specialize (IH (start + Timedelta_hours 1)).
  rewrite hourly_range_S in IH |- *. cbn [midpoints].
  unfold Timedelta_hours, SECONDS_PER_HOUR in *.
  destruct (Z.eqb_spec (start + 3600 * 1 - start) (3600 * 2)); [lia | exact IH].
Qed.

Lemma filter_hourly_range_below (start hm : datetime64) (n : nat) :
  hm < start ->
  filter (fun x => negb (x =? hm)) (hourly_range start n) = hourly_range start n.
Proof.
  intro H. apply forallb_filter_id. apply forallb_forall.
  intros x Hx. apply hourly_range_lower in Hx.
  apply negb_true_iff, Z.eqb_neq. lia.
Qed.

(** A range with one inner hour taken out has one two-hour distance, around
    that hour. *)
Lemma midpoints_range_without (m : nat) :
  forall (start : datetime64) (n : nat),
    (0 < m)%nat -> (m + 1 < n)%nat ->
    midpoints (filter (fun x => negb (x =? start + Timedelta_hours (Z.of_nat m)))
                      (hourly_range start n))
    = [start + Timedelta_hours (Z.of_nat m)].
Proof.
  induction m as [| m IH]; intros start n Hm Hn; [lia |].
  destruct n as [| [| n]]; try lia.
  rewrite !hourly_range_S. cbn [filter].
  destruct m as [| m].
  - clear IH. destruct n as [| n]; [lia |].
    unfold Timedelta_hours, SECONDS_PER_HOUR. cbn [Z.of_nat Pos.of_succ_nat].
    destruct (Z.eqb_spec start (start + 3600 * 1)); [lia |].
    destruct (Z.eqb_spec (start + 3600 * 1) (start + 3600 * 1)); [| lia].
    cbn [negb].
    pose proof (filter_hourly_range_below (start + 3600 * 1 + 3600 * 1)
                                          (start + 3600 * 1) (S n)) as F.
    unfold Timedelta_hours, SECONDS_PER_HOUR in F. rewrite F by lia.
    pose proof (midpoints_hourly_range (start + 3600 * 1 + 3600 * 1) (S n)) as M.
    pose proof (hourly_range_S (start + 3600 * 1 + 3600 * 1) n) as E.
    unfold Timedelta_hours, SECONDS_PER_HOUR in E. rewrite E in M |- *.
    cbn [midpoints]. unfold Timedelta_hours, SECONDS_PER_HOUR.
    destruct (Z.eqb_spec (start + 3600 * 1 + 3600 * 1 - start) (3600 * 2)); [| lia].
    f_equal. exact M.
  - specialize (IH (start + Timedelta_hours 1) (S n)).
    rewrite hourly_range_S in IH.
    replace (start + Timedelta_hours (Z.of_nat (S (S m))))
      with (start + Timedelta_hours 1 + Timedelta_hours (Z.of_nat (S m)))
      by (unfold Timedelta_hours, SECONDS_PER_HOUR; lia).
    cbn [filter] in IH.
    set (hm := start + Timedelta_hours 1 + Timedelta_hours (Z.of_nat (S m))) in *.
    assert (H0 : start <> hm).
    { unfold hm, Timedelta_hours, SECONDS_PER_HOUR. lia. }
    assert (H1 : start + Timedelta_hours 1 <> hm).
    { unfold hm, Timedelta_hours, SECONDS_PER_HOUR. lia. }
    apply Z.eqb_neq in H0, H1. rewrite H0, H1 in *. cbn [negb] in *.
    cbn [midpoints].
    destruct (Z.eqb_spec (start + Timedelta_hours 1 - start) (Timedelta_hours 2))
      as [E | _].
    + unfold Timedelta_hours, SECONDS_PER_HOUR in E. lia.
    + apply IH; lia.
Qed.

(** ** The weather pipeline, for any sort that meets the contract *)

Section WeatherFacts.
Variable sort_index : weather_table -> weather_table.
Hypothesis sort_index_sorts : sorts_by_index sort_index.

Lemma sort_index_In (df : weather_table) (r : weather_row) :
  In r (sort_index df) <-> In r df.
Proof.
  destruct (sort_index_sorts df) as [HP _].
  split; apply Permutation_in; [apply Permutation_sym |]; exact HP.
Qed.

Lemma sort_index_index_In (df : weather_table) (ts : datetime64) :
  In ts (index (sort_index df)) <-> In ts (index df).
Proof.
  destruct (sort_index_sorts df) as [HP _].
  split; apply Permutation_in;
    [apply Permutation_sym |]; apply Permutation_map; exact HP.
Qed.

Lemma sort_index_fixed (df : weather_table) :
  StronglySorted Z.lt (index df) -> sort_index df = df.
Proof.
  intro Hs. destruct (sort_index_sorts df) as [HP Hsorted].
  symmetry. apply sorted_perm_unique; try assumption.
  - apply StronglySorted_index.
    eapply StronglySorted_weaken; [| exact Hs]. intros a b. lia.
  - now apply lt_sorted_NoDup.
Qed.

Lemma deduplicated_rows_sorted (df_list : list weather_table) :
  StronglySorted Z.lt (index (deduplicated_rows sort_index df_list)).
Proof.
  unfold deduplicated_rows, drop_duplicated, duplicated.
  apply le_sorted_NoDup_lt; [| apply drop_from_NoDup].
  apply StronglySorted_index, drop_from_sorted.
  apply (proj2 (sort_index_sorts _)).
Qed.

Lemma deduplicated_rows_index_In (df_list : list weather_table) (ts : datetime64) :
  In ts (index (deduplicated_rows sort_index df_list))
  <-> In ts (index (concat df_list)).
Proof.
  unfold deduplicated_rows, drop_duplicated, duplicated.
  rewrite drop_from_index_In, sort_index_index_In. simpl. tauto.
Qed.

Lemma deduplicated_rows_first (df_list : list weather_table) (ts : datetime64) :
  first_occurrence ts (deduplicated_rows sort_index df_list)
  = first_occurrence ts (sort_index (concat df_list)).
Proof.
  unfold first_occurrence, deduplicated_rows, drop_duplicated, duplicated.
  apply drop_from_find. intros [].
Qed.

Lemma weather_deduplicated_some (df_list : list weather_table) :
  df_list <> [] ->
  weather_deduplicated sort_index df_list = Some (deduplicated_rows sort_index df_list).
Proof. destruct df_list; [congruence | reflexivity]. Qed.

Lemma merged_weather_data_no_file : merged_weather_data sort_index [] = None.
Proof. reflexivity. Qed.

Lemma merged_weather_data_spec (df_list : list weather_table) :
  df_list <> [] ->
  merged_weather_data sort_index df_list
  = Some (sort_index (deduplicated_rows sort_index df_list
                      ++ synthesized_rows (deduplicated_rows sort_index df_list))).
Proof.
  intro Hfiles. unfold merged_weather_data.
  rewrite (weather_deduplicated_some df_list Hfiles).
  rewrite fill_gaps_spec by apply deduplicated_rows_sorted.
  reflexivity.
Qed.

(** C2, as the code has it.  When there is a file to read, the duplicate
    removal gives a table in which every label of the sources is carried by
    exactly one row; that row is a source row, namely the first one with
    that label in the sorted table.  It is the earliest source row with that
    label whenever the sort has left the rows of that label in source order,
    which a stable sort does for every label. *)
Theorem first_row_of_sorted_table_kept (df_list : list weather_table) :
  df_list <> [] ->
  let source := concat df_list in
  let kept := deduplicated_rows sort_index df_list in
  weather_deduplicated sort_index df_list = Some kept
  /\ NoDup (index kept)
  /\ (forall ts, In ts (index kept) <-> In ts (index source))
  /\ (forall ts, first_occurrence ts kept
                 = first_occurrence ts (sort_index source))
  /\ (forall ts, In ts (index source) ->
                 exists r, filter (at_time ts) kept = [r]
                           /\ first_occurrence ts (sort_index source) = Some r
                           /\ In r source /\ datetime r = ts)
  /\ (forall ts, filter (at_time ts) (sort_index source)
                 = filter (at_time ts) source ->
                 first_occurrence ts kept = first_occurrence ts source)
  /\ (forall ts, first_occurrence ts (deduplicated_rows sort_index_stable df_list)
                 = first_occurrence ts source).
Proof.
  intros Hfiles source kept.
  split; [now apply weather_deduplicated_some |].
  assert (ND : NoDup (index kept)).
  { apply lt_sorted_NoDup, deduplicated_rows_sorted. }
  split; [exact ND |].
  split; [intro ts; apply deduplicated_rows_index_In |].
  split; [intro ts; apply deduplicated_rows_first |].
  split; [| split].
  - intros ts Hts.
    apply deduplicated_rows_index_In in Hts. fold kept in Hts.
    apply in_map_iff in Hts. destruct Hts as [r [Er Hr]].
    exists r. subst ts.
    assert (Hf : filter (at_time (datetime r)) kept = [r]).
    { apply (filter_unique_key datetime Z.eqb Z.eqb_eq); assumption. }
    split; [exact Hf |].
    assert (Hfirst : first_occurrence (datetime r) kept = Some r).
    { unfold first_occurrence. now rewrite find_hd_filter, Hf. }
    split.
    + rewrite <- Hfirst. symmetry. apply deduplicated_rows_first.
    + split; [| reflexivity].
      unfold kept, deduplicated_rows, drop_duplicated, duplicated in Hr.
      apply drop_from_In in Hr. destruct Hr as [Hr _].
      apply (proj1 (sort_index_In _ _)) in Hr. exact Hr.
  - intros ts Hstable. unfold source in Hstable |- *.
    unfold kept. rewrite deduplicated_rows_first.
    unfold first_occurrence. now rewrite !find_hd_filter, Hstable.
  - intro ts.
    unfold first_occurrence, deduplicated_rows, drop_duplicated, duplicated.
    rewrite drop_from_find by (intros []).
    now rewrite !find_hd_filter, sort_index_stable_filter.
Qed.
(** C6.  When there is a file to read the gap handler never fails (with no
    file the concatenation of cell 7 has already stopped the run).  Its
    result is the table without duplicates plus one row for each pair of
    neighbouring rows exactly two hours apart, in label order.  That row sits at the hour between the two
    and each of its five columns is the mean of the neighbours' values (NaN
    when one of them is NaN).  Between neighbours whose distance is not two
    hours no row is added, and a table without a two-hour distance comes
    out unchanged.  With 2013-03-31 01:00 missing between 00:00 (temp 5.0)
    and 02:00 (temp 7.0), the row 01:00 is added with temp 6.0. *)
Theorem gap_handler_fills_two_hour_gaps (df_list : list weather_table) :
  df_list <> [] ->
  let df := deduplicated_rows sort_index df_list in
  exists out,
    weather_deduplicated sort_index df_list = Some df
    /\ merged_weather_data sort_index df_list = Some out
    /\ merged_weather_data sort_index [] = None
    /\ Permutation (df ++ synthesized_rows df) out
    /\ StronglySorted datetime_le out
    /\ (forall prev next,
           neighbours df prev next ->
           datetime next - datetime prev = Timedelta_hours 2 ->
           exists row,
             In row out
             /\ datetime row = datetime prev + Timedelta_hours 1
             /\ solarradiation row = mean2 (solarradiation prev) (solarradiation next)
             /\ windspeed row = mean2 (windspeed prev) (windspeed next)
             /\ temp row = mean2 (temp prev) (temp next)
             /\ precip row = mean2 (precip prev) (precip next)
             /\ humidity row = mean2 (humidity prev) (humidity next))
    /\ (forall a b, mean2 (Some a) (Some b) = Some ((a + b) / 2)%Q)
    /\ (forall row,
           In row out ->
           In row df
           \/ exists prev next,
               neighbours df prev next
               /\ datetime next - datetime prev = Timedelta_hours 2
               /\ row = interpolated_row (datetime prev + Timedelta_hours 1) prev next)
    /\ (forall prev next,
           neighbours df prev next ->
           datetime next - datetime prev <> Timedelta_hours 2 ->
           forall row, In row out ->
                       ~ (datetime prev < datetime row < datetime next))
    /\ ((forall prev next,
            neighbours df prev next ->
            datetime next - datetime prev <> Timedelta_hours 2) ->
        out = df)
    /\ (exists row t,
           merged_weather_data sort_index scenario_weather
           = Some [ weather_at (Timestamp 2013 3 31 0 0 0) (5 # 1);
                    row;
                    weather_at (Timestamp 2013 3 31 2 0 0) (7 # 1) ]
           /\ datetime row = Timestamp 2013 3 31 1 0 0
           /\ temp row = Some t /\ (t == 6 # 1)%Q).
Proof.
  intros Hfiles df.
  pose proof (deduplicated_rows_sorted df_list) as Hs. fold df in Hs.
  exists (sort_index (df ++ synthesized_rows df)).
  destruct (sort_index_sorts (df ++ synthesized_rows df)) as [HP Hsorted].
  assert (Hin : forall row, In row (sort_index (df ++ synthesized_rows df))
                            <-> In row df \/ In row (synthesized_rows df)).
  { intro row. rewrite sort_index_In. apply in_app_iff. }
  split; [now apply weather_deduplicated_some |].
  split; [now apply merged_weather_data_spec |].
  split; [reflexivity |].
  split; [exact HP |]. split; [exact Hsorted |].
  split.
  { intros prev next Hn Hgap.
    exists (interpolated_row (datetime prev + Timedelta_hours 1) prev next).
    split; [| simpl; repeat split].
    apply Hin. right. apply synthesized_rows_In. exists prev, next. auto. }
  split; [reflexivity |].
  split.
  { intros row Hrow. apply Hin in Hrow. destruct Hrow as [Hrow | Hrow].
    - now left.
    - right. now apply synthesized_rows_In. }
  split.
  { intros prev next Hn Hgap row Hrow Hbetween.
    apply Hin in Hrow. destruct Hrow as [Hrow | Hrow].
    - pose proof (neighbours_outside df prev next row Hs Hn Hrow). lia.
    - apply synthesized_rows_In in Hrow.
      destruct Hrow as [p [n [Hpn [Hgap' ->]]]]. simpl in Hbetween.
      destruct (neighbours_In _ _ _ Hpn) as [Hp Hn'].
      destruct (neighbours_In _ _ _ Hn) as [Hprev Hnext].
      pose proof (neighbours_outside df prev next p Hs Hn Hp).
      pose proof (neighbours_outside df prev next n Hs Hn Hn').
      pose proof (neighbours_outside df p n prev Hs Hpn Hprev).
      pose proof (neighbours_outside df p n next Hs Hpn Hnext).
      unfold Timedelta_hours, SECONDS_PER_HOUR in *. lia. }
  split.
  { intro Hnone.
    assert (E : synthesized_rows df = []).
    { destruct (synthesized_rows df) as [| row l] eqn:E; [reflexivity |].
      assert (Hrow : In row (synthesized_rows df)) by (rewrite E; now left).
      apply synthesized_rows_In in Hrow.
      destruct Hrow as [p [n [Hpn [Hgap _]]]].
      exfalso. exact (Hnone p n Hpn Hgap). }
    rewrite E, app_nil_r. now apply sort_index_fixed. }
  assert (Ededup : deduplicated_rows sort_index scenario_weather
                   = [ weather_at (Timestamp 2013 3 31 0 0 0) (5 # 1);
                       weather_at (Timestamp 2013 3 31 2 0 0) (7 # 1) ]).
  { unfold deduplicated_rows.
    rewrite sort_index_fixed; [reflexivity |].
    vm_compute. repeat constructor. }
  exists (interpolated_row (Timestamp 2013 3 31 1 0 0)
                           (weather_at (Timestamp 2013 3 31 0 0 0) (5 # 1))
                           (weather_at (Timestamp 2013 3 31 2 0 0) (7 # 1))).
  eexists.
  split; [| split; [reflexivity | split; [reflexivity | reflexivity]]].
  rewrite merged_weather_data_spec by discriminate. rewrite Ededup. f_equal.
  destruct (sort_index_sorts
              ([ weather_at (Timestamp 2013 3 31 0 0 0) (5 # 1);
                 weather_at (Timestamp 2013 3 31 2 0 0) (7 # 1) ]
               ++ synthesized_rows
                    [ weather_at (Timestamp 2013 3 31 0 0 0) (5 # 1);
                      weather_at (Timestamp 2013 3 31 2 0 0) (7 # 1) ]))
    as [HP' Hs'].
  apply sorted_perm_unique.
  - exact Hs'.
  - unfold datetime_le. vm_compute. repeat constructor; discriminate.
  - eapply perm_trans; [apply Permutation_sym; exact HP' |].
    vm_compute. apply perm_skip, perm_swap.
  - eapply Permutation_NoDup.
    + apply Permutation_map. exact HP'.
    + vm_compute. repeat constructor; simpl; intuition discriminate.
Qed.
(** C7.  When the labels of the sources are the hours of a range less one
    inner hour (duplicates allowed), the weather output has exactly the
    hours of the range as labels, once each and in ascending order.  For
    the year 2013 the range starts at 2013-01-01 00:00 and has 8760
    hours. *)
Theorem complete_range_one_row_per_hour
        (df_list : list weather_table) (start : datetime64) (n m : nat) :
  (0 < m)%nat -> (m + 1 < n)%nat ->
  (forall ts, In ts (index (concat df_list))
              <-> In ts (hourly_range start n)
                  /\ ts <> start + Timedelta_hours (Z.of_nat m)) ->
  exists out,
    merged_weather_data sort_index df_list = Some out
    /\ index out = hourly_range start n
    /\ NoDup (index out)
    /\ StronglySorted Z.lt (index out)
    /\ length out = n.
Proof.
  intros Hm Hn Hcover.
  assert (Hstart : In start (index (concat df_list))).
  { apply (proj2 (Hcover start)). split.
    - apply hourly_range_In. exists O. split; [lia |].
      unfold Timedelta_hours. simpl. lia.
    - unfold Timedelta_hours, SECONDS_PER_HOUR. lia. }
  assert (Hfiles : df_list <> []).
  { intro E. rewrite E in Hstart. exact Hstart. }
  set (df := deduplicated_rows sort_index df_list).
  set (hm := start + Timedelta_hours (Z.of_nat m)) in *.
  pose proof (deduplicated_rows_sorted df_list) as Hs. fold df in Hs.
  assert (E1 : index df
               = filter (fun x => negb (x =? hm)) (hourly_range start n)).
  { apply lt_sorted_ext.
    - exact Hs.
    - apply filter_sorted, hourly_range_sorted.
    - intro ts. unfold df. rewrite deduplicated_rows_index_In, Hcover.
      rewrite filter_In, negb_true_iff, Z.eqb_neq. tauto. }
  assert (E2 : index (synthesized_rows df) = [hm]).
  { rewrite synthesized_rows_index, E1.
    now apply midpoints_range_without. }
  exists (sort_index (df ++ synthesized_rows df)).
  destruct (sort_index_sorts (df ++ synthesized_rows df)) as [HP Hsorted].
  assert (HPi : Permutation (index df ++ [hm])
                            (index (sort_index (df ++ synthesized_rows df)))).
  { rewrite <- E2. unfold index. rewrite <- map_app.
    apply Permutation_map. exact HP. }
  assert (Hhm : In hm (hourly_range start n)).
  { apply hourly_range_In. exists m. split; [lia | reflexivity]. }
  assert (ND : NoDup (index (sort_index (df ++ synthesized_rows df)))).
  { eapply Permutation_NoDup; [exact HPi |].
    apply NoDup_app.
    - now apply lt_sorted_NoDup.
    - constructor; [intros [] | constructor].
    - intros x Hx [<- | []]. rewrite E1 in Hx.
      apply filter_In in Hx. destruct Hx as [_ Hx].
      apply negb_true_iff, Z.eqb_neq in Hx. now apply Hx. }
  assert (Hlt : StronglySorted Z.lt (index (sort_index (df ++ synthesized_rows df)))).
  { apply le_sorted_NoDup_lt; [| exact ND].
    now apply StronglySorted_index. }
  assert (Ei : index (sort_index (df ++ synthesized_rows df))
               = hourly_range start n).
  { apply lt_sorted_ext; [exact Hlt | apply hourly_range_sorted |].
    intro ts. split.
    - intro H. apply (Permutation_in _ (Permutation_sym HPi)) in H.
      apply in_app_or in H. destruct H as [H | [<- | []]]; [| exact Hhm].
      rewrite E1 in H. apply filter_In in H. tauto.
    - intro H. apply (Permutation_in _ HPi). apply in_or_app.
      destruct (Z.eq_dec ts hm) as [-> | D]; [right; now left |].
      left. rewrite E1. apply filter_In. split; [exact H |].
      now apply negb_true_iff, Z.eqb_neq. }
  split; [now apply merged_weather_data_spec |].
  split; [exact Ei |]. split; [exact ND |]. split; [exact Hlt |].
  rewrite <- (length_map datetime). fold (index (sort_index (df ++ synthesized_rows df))).
  rewrite Ei. unfold hourly_range. now rewrite length_map, length_seq.
Qed.
End WeatherFacts.

(** C2, as the specification has it, fails on the code: the sort that comes
    before the duplicate removal exchanges rows of equal label.  The three
    files of [overlapping_weather] have twenty rows; the label 2013-03-30
    10:00 is carried by row 3 (first file, temp 5) and by row 9 (second
    file, temp 9).  Row 9 is the median of rows 0, 9 and 19 and becomes the
    pivot; the scan from the left stops at row 3, whose label is not below
    the pivot's, and exchanges it with row 15: row 3 ends in the part after
    the pivot.  The duplicate removal then keeps the row of the second file,
    not the earliest in source order. *)
Lemma kept_duplicate_is_not_first_in_source :
  first_occurrence (Timestamp 2013 3 30 10 0 0) (concat overlapping_weather)
  = Some (weather_at (Timestamp 2013 3 30 10 0 0) (5 # 1))
  /\ is_monotonic_increasing (index (concat overlapping_weather)) = false
  /\ aquicksort (index (concat overlapping_weather))
     = [0; 1; 2; 10; 11; 12; 13; 14; 15; 9; 3; 4; 5; 6; 7; 8; 16; 17; 18; 19]%nat
  /\ filter (at_time (Timestamp 2013 3 30 10 0 0))
            (pandas_sort_index (concat overlapping_weather))
     = [ weather_at (Timestamp 2013 3 30 10 0 0) (9 # 1);
         weather_at (Timestamp 2013 3 30 10 0 0) (5 # 1) ]
  /\ option_map (first_occurrence (Timestamp 2013 3 30 10 0 0))
                (weather_deduplicated pandas_sort_index overlapping_weather)
     = Some (Some (weather_at (Timestamp 2013 3 30 10 0 0) (9 # 1)))
  /\ option_map (first_occurrence (Timestamp 2013 3 30 10 0 0))
                (weather_deduplicated pandas_sort_index overlapping_weather)
     <> Some (first_occurrence (Timestamp 2013 3 30 10 0 0)
                               (concat overlapping_weather)).
Proof.
  split; [vm_compute; reflexivity |].
  split; [vm_compute; reflexivity |].
  split; [vm_compute; reflexivity |].
  split; [vm_compute; reflexivity |].
  split; [vm_compute; reflexivity |].
  vm_compute. discriminate.
Qed.

(** On the few rows of the other example files the sort of pandas is an
    insertion sort and agrees with the stable sort.  The heap sort, on its
    own, puts the twenty labels of [overlapping_weather] in order. *)
Example pandas_sort_index_on_examples :
  pandas_sort_index (concat example_weather)
  = sort_index_stable (concat example_weather)
  /\ pandas_sort_index (concat scenario_weather)
     = sort_index_stable (concat scenario_weather)
  /\ merged_weather_data pandas_sort_index example_weather
     = merged_weather_data sort_index_stable example_weather
  /\ index (take (concat overlapping_weather)
                 (aheapsort (index (concat overlapping_weather)) (seq 0 20) 0 20))
     = index (sort_index_stable (concat overlapping_weather)).
Proof. repeat split; vm_compute; reflexivity. Qed.

(** ** The pipelines and the theorems at concrete tables *)

(** The consumption pipeline on the example tables: of the three households
    only MAC001 (one reading missing in twenty-one) reaches the output, with
    eleven hourly rows; the first is the hour 2013-06-01 01:00, with the two
    readings 0.1 and 0.2 summed and the prices 12 and 14 averaged. *)
Example consumption_pipeline_on_example :
  let output :=
    consumption_and_tariff_data_hourly example_tariff_data example_consumption_data in
  households_to_remove (consumption_melted example_consumption_data)
  = ["MAC002"; "MAC003"]%string
  /\ length output = 11%nat
  /\ forallb (fun x => String.eqb (merged_household_id x) "MAC001") output = true
  /\ exists c p,
      hd_error output
      = Some {| timestamp := Timestamp 2013 6 1 1 0 0;
                merged_household_id := "MAC001"%string;
                merged_consumption := Some c;
                tariff := Some p |}
      /\ (c == 3 # 10)%Q /\ (p == 13 # 1)%Q.
Proof.
  set (output := consumption_and_tariff_data_hourly
                   example_tariff_data example_consumption_data).
  vm_compute in output. cbv zeta.
  split; [vm_compute; reflexivity |].
  split; [reflexivity |]. split; [reflexivity |].
  eexists. eexists. split; [reflexivity |].
  split; reflexivity.
Qed.

Lemma example_columns_NoDup : NoDup (wide_columns example_consumption_data).
Proof.
  simpl. repeat constructor; simpl; intuition discriminate.
Qed.

(** [missingness_denominator_positive] on the example table of three
    households and twenty-one rows of 2013. *)
Lemma missingness_denominator_positive_example :
  NoDup (wide_columns example_consumption_data)
  /\ (let filtered := consumption_data_filtered example_consumption_data in
      let melted := consumption_melted example_consumption_data in
      let n := Z.of_nat (length (wide_rows filtered)) in
      (forall h, In h (wide_columns example_consumption_data) ->
                 group_count h melted = n
                 /\ (wide_rows filtered <> [] ->
                     lookup h (groupby_size melted) = Some n /\ 0 < n
                     /\ In (stat_of h melted) (all_households melted)))
      /\ (forall s, In s (all_households melted) ->
                    In (stat_household s) (wide_columns example_consumption_data)
                    /\ 0 < n
                    /\ 0 <= missing_values s <= n
                    /\ exists p, percentage_missing s = Finite p
                                 /\ p = (inject_Z (missing_values s) / inject_Z n * 100)%Q
                                 /\ (0 <= p)%Q /\ (p <= 100)%Q)).
Proof.
  split.
  - exact example_columns_NoDup.
  - apply (missingness_denominator_positive example_consumption_data).
    exact example_columns_NoDup.
Defined.

(** [households_over_5_percent_removed] on the example tables: MAC002 misses
    two readings in twenty-one, more than 5%. *)
Lemma households_over_5_percent_removed_example :
  In "MAC002"%string (map household_id (consumption_melted example_consumption_data))
  /\ In "MAC002"%string
        (households_to_remove (consumption_melted example_consumption_data))
  /\ ~ In "MAC002"%string
          (map merged_household_id
               (consumption_and_tariff_data_hourly example_tariff_data
                                                   example_consumption_data)).
Proof.
  assert (Hm : In "MAC002"%string
                  (map household_id (consumption_melted example_consumption_data))).
  { apply (proj2 (melt_households _ _)). split.
    - vm_compute. auto.
    - vm_compute. discriminate. }
  destruct (households_over_5_percent_removed
              example_tariff_data example_consumption_data "MAC002"%string Hm)
    as [_ [Hover _]].
  destruct Hover as [Hin [_ [_ Hout]]]; [vm_compute; reflexivity |].
  split; [exact Hm |]. split; [exact Hin | exact Hout].
Defined.

(** [first_row_of_sorted_table_kept] with the stable sort, on three files of
    which two carry 2013-03-31 00:00. *)
Lemma first_row_of_sorted_table_kept_example :
  sorts_by_index sort_index_stable
  /\ example_weather <> []
  /\ (let source := concat example_weather in
      let kept := deduplicated_rows sort_index_stable example_weather in
      weather_deduplicated sort_index_stable example_weather = Some kept
      /\ NoDup (index kept)
      /\ (forall ts, In ts (index kept) <-> In ts (index source))
      /\ (forall ts, first_occurrence ts kept
                     = first_occurrence ts (sort_index_stable source))
      /\ (forall ts, In ts (index source) ->
                     exists r, filter (at_time ts) kept = [r]
                               /\ first_occurrence ts (sort_index_stable source) = Some r
                               /\ In r source /\ datetime r = ts)
      /\ (forall ts, filter (at_time ts) (sort_index_stable source)
                     = filter (at_time ts) source ->
                     first_occurrence ts kept = first_occurrence ts source)
      /\ (forall ts, first_occurrence ts (deduplicated_rows sort_index_stable example_weather)
                     = first_occurrence ts source)).
Proof.
  assert (Hfiles : example_weather <> []) by discriminate.
  split; [apply sort_index_stable_sorts |].
  split; [exact Hfiles |].
  apply (first_row_of_sorted_table_kept sort_index_stable sort_index_stable_sorts
                                         example_weather Hfiles).
Defined.

(** [gap_handler_fills_two_hour_gaps] with the stable sort, on the same
    files: the hour 2013-03-31 01:00 is missing. *)
Lemma gap_handler_fills_two_hour_gaps_example :
  sorts_by_index sort_index_stable
  /\ example_weather <> []
  /\ exists out,
      merged_weather_data sort_index_stable example_weather = Some out
      /\ index out = hourly_range (Timestamp 2013 3 30 23 0 0) 5
      /\ exists row,
          In row out
          /\ datetime row = Timestamp 2013 3 31 1 0 0
          /\ temp row = mean2 (Some (5 # 1)%Q) (Some (7 # 1)%Q).
Proof.
  assert (Hfiles : example_weather <> []) by discriminate.
  split; [apply sort_index_stable_sorts |].
  split; [exact Hfiles |].
  destruct (gap_handler_fills_two_hour_gaps
              sort_index_stable sort_index_stable_sorts example_weather Hfiles)
    as [out [_ [Hout _]]].
  exists out. split; [exact Hout |].
  vm_compute in Hout. injection Hout as <-.
  split; [vm_compute; reflexivity |].
  eexists. split; [right; right; left; reflexivity |].
  split; vm_compute; reflexivity.
Defined.

(** [complete_range_one_row_per_hour] with the stable sort, on the same
    files: five hours from 2013-03-30 23:00, the third missing. *)
Lemma complete_range_one_row_per_hour_example :
  sorts_by_index sort_index_stable
  /\ (0 < 2)%nat /\ (2 + 1 < 5)%nat
  /\ (forall ts, In ts (index (concat example_weather))
                 <-> In ts (hourly_range (Timestamp 2013 3 30 23 0 0) 5)
                     /\ ts <> Timestamp 2013 3 30 23 0 0 + Timedelta_hours (Z.of_nat 2))
  /\ exists out,
      merged_weather_data sort_index_stable example_weather = Some out
      /\ index out = hourly_range (Timestamp 2013 3 30 23 0 0) 5
      /\ NoDup (index out)
      /\ StronglySorted Z.lt (index out)
      /\ length out = 5%nat.
Proof.
  assert (H : forall ts, In ts (index (concat example_weather))
                 <-> In ts (hourly_range (Timestamp 2013 3 30 23 0 0) 5)
                     /\ ts <> Timestamp 2013 3 30 23 0 0 + Timedelta_hours (Z.of_nat 2)).
  { intro ts. vm_compute. intuition lia. }
  split; [apply sort_index_stable_sorts |].
  split; [lia |]. split; [lia |]. split; [exact H |].
  apply (complete_range_one_row_per_hour
           sort_index_stable sort_index_stable_sorts example_weather
           (Timestamp 2013 3 30 23 0 0) 5 2); [lia | lia | exact H].
Defined.

(* ================================================================== *)
(** * Part III: further properties of the two pipelines *)
(* ================================================================== *)

(** ** Hour buckets *)

(** X7.  The hour a timestamp is assigned to is on the hour and is the one
    hour [h] with [h - 30min <= t < h + 30min]; a timestamp on a half hour
    is its own hour or the half hour before it, so a bucket holds at most
    two half-hourly timestamps. *)
Theorem hour_bucket_is_centred (t : datetime64) :
  hour_of t mod Timedelta_hours 1 = 0
  /\ hour_of t - Timedelta_minutes 30 <= t < hour_of t + Timedelta_minutes 30
  /\ (forall h, h mod Timedelta_hours 1 = 0 ->
                h - Timedelta_minutes 30 <= t < h + Timedelta_minutes 30 ->
                hour_of t = h)
  /\ (t mod Timedelta_minutes 30 = 0 ->
      t = hour_of t \/ t = hour_of t - Timedelta_minutes 30).
Proof.
  unfold hour_of, dt_floor_H, Timedelta_hours, Timedelta_minutes, SECONDS_PER_HOUR.
  change (3600 * 1) with 3600. change (60 * 30) with 1800.
  repeat split; try (intros; Z.div_mod_to_equations; lia).
Qed.

(** ** Keys of the output *)

Lemma same_rows_reading_keys (R : option Q -> option Q -> Prop) (t t' : list reading) :
  same_rows R t t' -> map reading_key t' = map reading_key t.
Proof.
  induction 1 as [| r r' t t' [HG [HH _]] _ IH]; simpl.
  - reflexivity.
  - unfold reading_key at 1 3. now rewrite HG, HH, IH.
Qed.

Lemma output_key_In (k : datetime64 * household) (tariff_data : list tariff_row)
      (consumption_data : wide_table) :
  In k (map merged_key
            (consumption_and_tariff_data_hourly tariff_data consumption_data))
  <-> In k (map reading_key
                (consumption_melted_filtered (consumption_melted consumption_data))).
Proof.
  unfold consumption_and_tariff_data_hourly.
  set (kept := consumption_melted_filtered (consumption_melted consumption_data)).
  rewrite <- (same_rows_reading_keys _ _ _ (consumption_imputed_same_rows kept)).
  rewrite <- consumption_hourly_key_In.
  split; apply Permutation_in; [| apply Permutation_sym]; apply merged_keys_perm.
Qed.

(** X8.  Every row of the output is stamped on the hour, between
    2013-01-01 00:00 and 2014-01-01 00:00, both included: the year filter
    comes before the half-hour shift, so the readings of the last half hour
    of 2013 land on the first hour of 2014.  The row stems from a reading of
    its household in the filtered year, dated after 2013-01-01 00:00:00 and
    within half an hour of the row's hour. *)
Theorem output_hours_within_year
        (tariff_data : list tariff_row) (consumption_data : wide_table) :
  Forall (fun x =>
            timestamp x mod Timedelta_hours 1 = 0
            /\ Timestamp 2013 1 1 0 0 0 <= timestamp x <= Timestamp 2014 1 1 0 0 0
            /\ exists row,
                In row (wide_rows consumption_data)
                /\ In (merged_household_id x) (wide_columns consumption_data)
                /\ Timestamp 2013 1 1 0 0 0 < wide_GMT row < Timestamp 2014 1 1 0 0 0
                /\ timestamp x - Timedelta_minutes 30 <= wide_GMT row
                   < timestamp x + Timedelta_minutes 30)
         (consumption_and_tariff_data_hourly tariff_data consumption_data).
Proof.
  apply Forall_forall. intros x Hx.
  assert (Hk : In (merged_key x)
                  (map reading_key
                       (consumption_melted_filtered
                          (consumption_melted consumption_data)))).
  { apply (proj1 (output_key_In _ tariff_data consumption_data)).
    now apply in_map. }
  apply in_map_iff in Hk. destruct Hk as [r [Er Hr]].
  apply filter_In in Hr. destruct Hr as [Hr _].
  apply melt_In in Hr. destruct Hr as [j [row [Hj [Hrow [HG _]]]]].
  simpl in Hrow, Hj. apply filter_In in Hrow. destruct Hrow as [Hrow Hyear].
  apply andb_true_iff in Hyear. destruct Hyear as [Hy Hne].
  apply Z.eqb_eq, dt_year_2013_iff in Hy.
  apply negb_true_iff, Z.eqb_neq in Hne.
  unfold reading_key, merged_key in Er. injection Er as Et Eh.
  rewrite <- Et, HG.
  change (Timestamp 2013 1 1 0 0 0) with 1356998400 in *.
  change (Timestamp 2014 1 1 0 0 0) with 1388534400 in *.
  unfold hour_of, dt_floor_H, Timedelta_hours, Timedelta_minutes, SECONDS_PER_HOUR.
  change (3600 * 1) with 3600. change (60 * 30) with 1800.
  split; [Z.div_mod_to_equations; lia |].
  split; [Z.div_mod_to_equations; lia |].
  exists row. split; [exact Hrow |]. split.
  - rewrite <- Eh. eapply nth_error_In. exact Hj.
  - split; [lia |]. Z.div_mod_to_equations. lia.
Qed.

(** ** The counts printed by cell 3 *)

Lemma all_households_ids (melted : list reading) :
  map stat_household (all_households melted) = all_households_index melted.
Proof.
  unfold all_households. rewrite map_map. simpl. apply map_id.
Qed.

Lemma all_households_index_distinct (melted : list reading) :
  NoDup (all_households_index melted).
Proof.
  unfold all_households_index, groupby_size.
  rewrite map_map. simpl. rewrite map_id.
  apply stable_sort_NoDup, NoDup_nodup.
Qed.

Lemma NoDup_map_filter {A B : Type} (g : A -> B) (q : A -> bool) (l : list A) :
  NoDup (map g l) -> NoDup (map g (filter q l)).
Proof.
  induction l as [| x l IH]; simpl; intro H.
  - constructor.
  - inversion H as [| ? ? Hnot ND]; subst.
    destruct (q x); simpl; [| now apply IH].
    constructor; [| now apply IH].
    intro Hx. apply Hnot. apply in_map_iff in Hx.
    destruct Hx as [y [Ey Hy]]. apply filter_In in Hy.
    rewrite <- Ey. apply in_map. tauto.
Qed.

Lemma kept_household_In (h : household) (melted : list reading) :
  In h (map household_id (consumption_melted_filtered melted))
  <-> In h (map household_id melted) /\ over_5_percent melted h = false.
Proof.
  unfold over_5_percent. rewrite Z.ltb_ge. split.
  - intro H. apply in_map_iff in H. destruct H as [r [Er Hr]].
    apply consumption_melted_filtered_In in Hr. rewrite Er in Hr.
    split; [| tauto]. rewrite <- Er. apply in_map. tauto.
  - intros [H Hle]. apply in_map_iff in H. destruct H as [r [Er Hr]].
    apply in_map_iff. exists r. split; [assumption |].
    apply consumption_melted_filtered_In. rewrite Er. auto.
Qed.

(** X1.  The two numbers cell 3 prints add up to the number of households of
    the melted table: a household is counted as removed exactly when more
    than 5 in 100 of its rows are null, as remaining otherwise, and never as
    both. *)
Theorem removed_and_remaining_households_add_up (melted : list reading) :
  (households_removed_count melted + households_remaining_count melted)%nat
  = nunique melted
  /\ length (all_households melted) = nunique melted
  /\ NoDup (households_to_remove melted)
  /\ (forall h, In h (households_to_remove melted)
                <-> In h (map household_id melted)
                    /\ over_5_percent melted h = true)
  /\ (forall h, In h (households_to_remove melted) ->
                ~ In h (map household_id (consumption_melted_filtered melted))).
Proof.
  set (L := all_households_index melted).
  assert (NDL : NoDup L) by apply all_households_index_distinct.
  assert (HL : forall h, In h L <-> In h (map household_id melted)).
  { intro h. apply all_households_index_In. }
  assert (Hrm : forall h, In h (households_to_remove melted)
                          <-> In h (map household_id melted)
                              /\ over_5_percent melted h = true).
  { intro h. rewrite households_to_remove_In. unfold over_5_percent.
    now rewrite Z.ltb_lt. }
  assert (NDr : NoDup (households_to_remove melted)).
  { unfold households_to_remove. apply NoDup_map_filter.
    rewrite all_households_ids. exact NDL. }
  assert (Eall : length (all_households melted) = nunique melted).
  { rewrite <- (length_map stat_household), all_households_ids.
    unfold nunique. apply Permutation_length, NoDup_Permutation.
    - exact NDL.
    - apply NoDup_nodup.
    - intro h. rewrite nodup_In. apply HL. }
  assert (Er : households_removed_count melted
               = length (filter (over_5_percent melted) L)).
  { unfold households_removed_count.
    apply Permutation_length, NoDup_Permutation.
    - exact NDr.
    - now apply NoDup_filter.
    - intro h. rewrite Hrm, filter_In, HL. tauto. }
  assert (Ek : households_remaining_count melted
               = length (filter (fun h => negb (over_5_percent melted h)) L)).
  { unfold households_remaining_count, nunique.
    apply Permutation_length, NoDup_Permutation.
    - apply NoDup_nodup.
    - now apply NoDup_filter.
    - intro h. rewrite nodup_In, kept_household_In, filter_In, HL, negb_true_iff.
      tauto. }
  split.
  - rewrite Er, Ek, filter_length, <- Eall.
    rewrite <- (length_map stat_household), all_households_ids. reflexivity.
  - split; [exact Eall |]. split; [exact NDr |]. split; [exact Hrm |].
    intros h Hh Hk. apply Hrm in Hh. apply kept_household_In in Hk.
    destruct Hh as [_ H1]. destruct Hk as [_ H2]. congruence.
Qed.

(** ** Layout of the melted table *)

Lemma melt_columns_length (rows : list wide_row) (cols : list household) (s : nat) :
  length (flat_map (fun jh : nat * household =>
                      map (fun r => {| GMT := wide_GMT r;
                                       household_id := snd jh;
                                       consumption := nth (fst jh) (wide_cells r) None |})
                          rows)
                   (combine (seq s (length cols)) cols))
  = (length cols * length rows)%nat.
Proof.
  revert s. induction cols as [| h cols IH]; intro s; simpl.
  - reflexivity.
  - now rewrite length_app, length_map, IH.
Qed.

Lemma melt_columns_nth (rows : list wide_row) (cols : list household) :
  forall (s j i : nat) (h : household) (r : wide_row),
    nth_error cols j = Some h ->
    nth_error rows i = Some r ->
    nth_error
      (flat_map (fun jh : nat * household =>
                   map (fun r => {| GMT := wide_GMT r;
                                    household_id := snd jh;
                                    consumption := nth (fst jh) (wide_cells r) None |})
                       rows)
                (combine (seq s (length cols)) cols))
      (j * length rows + i)
    = Some {| GMT := wide_GMT r; household_id := h;
              consumption := nth (s + j) (wide_cells r) None |}.
Proof.
  induction cols as [| k cols IH]; intros s j i h r Hj Hi.
  - destruct j; discriminate.
  - assert (Hlt : (i < length rows)%nat) by (apply nth_error_Some; congruence).
    cbn [length seq combine flat_map fst snd].
    destruct j as [| j].
    + injection Hj as ->. rewrite Nat.add_0_r. simpl.
      rewrite nth_error_app1 by now rewrite length_map.
      now rewrite nth_error_map, Hi.
    + simpl in Hj.
      rewrite nth_error_app2 by (rewrite length_map; simpl; lia).
      rewrite length_map.
      replace (S j * length rows + i - length rows)%nat
        with (j * length rows + i)%nat by (simpl; lia).
      rewrite (IH (S s) j i h r Hj Hi).
      now replace (S s + j)%nat with (s + S j)%nat by lia.
Qed.

(** X2.  The melted table has one row per cell of the wide table, column by
    column: the cell of row [i] and household column [j] is row
    [j * rows + i], with the row's timestamp, the column's name and the
    cell's value (a null when the row is too short to have that cell). *)
Theorem melt_is_column_major (w : wide_table) :
  length (melt w) = (length (wide_columns w) * length (wide_rows w))%nat
  /\ (forall j i h r,
         nth_error (wide_columns w) j = Some h ->
         nth_error (wide_rows w) i = Some r ->
         nth_error (melt w) (j * length (wide_rows w) + i)
         = Some {| GMT := wide_GMT r; household_id := h;
                   consumption := nth j (wide_cells r) None |}).
Proof.
  unfold melt, enumerate. split.
  - apply melt_columns_length.
  - intros j i h r Hj Hi.
    now rewrite (melt_columns_nth _ _ 0 j i h r Hj Hi).
Qed.

(** ** Imputation: fixed points *)

Lemma interpolate_from_notnull (xp : list (datetime64 * Q)) (seen : bool)
      (x : list (datetime64 * option Q)) :
  Forall notnull (map snd x) -> interpolate_from xp seen x = map snd x.
Proof.
  revert seen. induction x as [| [t [q |]] x IH]; intros seen H; simpl.
  - reflexivity.
  - inversion H; subst. f_equal. now apply IH.
  - inversion H as [| ? ? Hn _]; subst. now elim Hn.
Qed.

Lemma ffill_from_notnull (last : option Q) (l : list (option Q)) :
  Forall notnull l -> ffill_from last l = l.
Proof.
  revert last. induction l as [| [q |] l IH]; intros last H; simpl.
  - reflexivity.
  - inversion H; subst. f_equal. now apply IH.
  - inversion H as [| ? ? Hn _]; subst. now elim Hn.
Qed.

Lemma impute_notnull (x : list (datetime64 * option Q)) :
  Forall notnull (map snd x) -> impute x = map snd x.
Proof.
  intro H. unfold impute, ffill, interpolate_time.
  rewrite interpolate_from_notnull by assumption.
  rewrite ffill_from_notnull by assumption.
  now apply bfill_notnull_id.
Qed.

Lemma interpolate_from_all_null (xp : list (datetime64 * Q))
      (x : list (datetime64 * option Q)) :
  Forall (fun v => v = None) (map snd x) ->
  interpolate_from xp false x = map snd x.
Proof.
  induction x as [| [t [q |]] x IH]; intro H; simpl.
  - reflexivity.
  - inversion H; discriminate.
  - inversion H; subst. f_equal. now apply IH.
Qed.

Lemma ffill_all_null (l : list (option Q)) :
  Forall (fun v => v = None) l -> ffill_from None l = l.
Proof.
  induction 1 as [| v l -> _ IH]; simpl; [reflexivity | now rewrite IH].
Qed.

Lemma bfill_all_null (l : list (option Q)) :
  Forall (fun v => v = None) l -> bfill l = l.
Proof.
  induction 1 as [| v l -> Hl IH]; simpl; [reflexivity |].
  rewrite IH. f_equal. destruct Hl; [reflexivity | assumption].
Qed.

Lemma impute_all_null (x : list (datetime64 * option Q)) :
  Forall (fun v => v = None) (map snd x) -> impute x = map snd x.
Proof.
  intro H. unfold impute, ffill, interpolate_time.
  rewrite interpolate_from_all_null by assumption.
  rewrite ffill_all_null by assumption.
  now apply bfill_all_null.
Qed.

Lemma known_or_all_null (l : list (option Q)) :
  (exists v, In (Some v) l) \/ Forall (fun v => v = None) l.
Proof.
  induction l as [| [q |] l IH].
  - right. constructor.
  - left. exists q. now left.
  - destruct IH as [[v Hv] | H].
    + left. exists v. now right.
    + right. now constructor.
Qed.

Lemma map_snd_combine {A B : Type} (l : list A) (l' : list B) :
  length l = length l' -> map snd (combine l l') = l'.
Proof.
  revert l'. induction l as [| a l IH]; intros [| b l'] H; simpl in *;
    try discriminate; [reflexivity |].
  f_equal. apply IH. lia.
Qed.

(** X3.  The imputation of a series returns as many values as the series
    has.  A series without null comes back unchanged, and so does a series
    with nothing but nulls: with no known value to start from nothing is
    filled.  Imputing a series that has been imputed changes nothing. *)
Theorem impute_fixed_points (x : list (datetime64 * option Q)) :
  length (impute x) = length x
  /\ (Forall notnull (map snd x) -> impute x = map snd x)
  /\ (Forall (fun v => v = None) (map snd x) -> impute x = map snd x)
  /\ impute (combine (map fst x) (impute x)) = impute x.
Proof.
  assert (L : length (impute x) = length x).
  { rewrite <- (Forall2_length (impute_keeps x)). apply length_map. }
  split; [exact L |].
  split; [apply impute_notnull |].
  split; [apply impute_all_null |].
  assert (E : map snd (combine (map fst x) (impute x)) = impute x).
  { apply map_snd_combine. now rewrite length_map, L. }
  destruct (known_or_all_null (map snd x)) as [Hk | Hn].
  - rewrite impute_notnull; rewrite E; [reflexivity |].
    now apply impute_complete.
  - rewrite impute_all_null; rewrite E; [reflexivity |].
    now rewrite (impute_all_null x Hn).
Qed.

(** ** Imputation: range of the values *)

Lemma interp_within (lo hi y0 y1 : Q) (k d : Z) :
  0 <= k < d ->
  (lo <= y0 -> y0 <= hi -> lo <= y1 -> y1 <= hi ->
   lo <= (y1 - y0) / inject_Z d * inject_Z k + y0
   /\ (y1 - y0) / inject_Z d * inject_Z k + y0 <= hi)%Q.
Proof.
  intros Hk H1 H2 H3 H4.
  assert (Hd : (0 < inject_Z d)%Q).
  { change 0%Q with (inject_Z 0). rewrite <- Zlt_Qlt. lia. }
  assert (Hk0 : (0 <= inject_Z k)%Q).
  { change 0%Q with (inject_Z 0). rewrite <- Zle_Qle. lia. }
  assert (Hkd : (inject_Z k <= inject_Z d)%Q).
  { rewrite <- Zle_Qle. lia. }
  set (s := (inject_Z k / inject_Z d)%Q).
  assert (Hs0 : (0 <= s)%Q).
  { unfold s. apply Qle_shift_div_l; [assumption |]. lra. }
  assert (Hs1 : (s <= 1)%Q).
  { unfold s. apply Qle_shift_div_r; [assumption |]. lra. }
  assert (E : ((y1 - y0) / inject_Z d * inject_Z k + y0 == y0 + (y1 - y0) * s)%Q).
  { unfold s. field. intro Z0. rewrite Z0 in Hd. lra. }
  rewrite E. split; nra.
Qed.

(** [np.interp] never leaves the range of the known values, whatever the
    order of the known points. *)
Lemma np_interp_within (lo hi : Q) (xp : list (datetime64 * Q)) (x : datetime64) :
  xp <> [] ->
  Forall (fun p => (lo <= snd p /\ snd p <= hi)%Q) xp ->
  (lo <= np_interp xp x /\ np_interp xp x <= hi)%Q.
Proof.
  induction xp as [| [x0 y0] rest IH]; intros Hne Hall; [congruence |].
  inversion Hall as [| ? ? H0 Hrest]; subst. simpl in H0.
  cbn [np_interp].
  destruct (Z.ltb_spec x x0) as [Hlt | Hge]; [exact H0 |].
  destruct rest as [| [x1 y1] rest']; [exact H0 |].
  destruct (Z.ltb_spec x x1) as [Hlt1 | Hge1].
  - destruct (Z.eqb_spec x x0) as [_ | _]; [exact H0 |].
    inversion Hrest as [| ? ? H1 _]; subst. simpl in H1.
    apply interp_within; try tauto. lia.
  - apply IH; [discriminate | exact Hrest].
Qed.

Lemma known_points_In (t : datetime64) (q : Q) (x : list (datetime64 * option Q)) :
  In (t, q) (known_points x) <-> In (t, Some q) x.
Proof.
  unfold known_points. rewrite in_flat_map. split.
  - intros [[t' [q' |]] [Hx H]]; simpl in H; [| contradiction].
    destruct H as [E | []]. now inversion E; subst.
  - intro H. exists (t, Some q). split; [assumption | now left].
Qed.

Lemma interpolate_from_within (lo hi : Q) (xp : list (datetime64 * Q)) :
  Forall (fun p => (lo <= snd p /\ snd p <= hi)%Q) xp ->
  forall (x : list (datetime64 * option Q)) (seen : bool),
    (seen = true -> xp <> []) ->
    (forall t q, In (t, Some q) x -> xp <> []) ->
    Forall (within lo hi) (map snd x) ->
    Forall (within lo hi) (interpolate_from xp seen x).
Proof.
  intros Hxp. induction x as [| [t [q |]] x IH]; intros seen Hseen Hne Hall; simpl.
  - constructor.
  - inversion Hall; subst. constructor; [assumption |].
    apply IH; try assumption.
    + intros _. apply (Hne t q). now left.
    + intros t' q' H. apply (Hne t' q'). now right.
  - inversion Hall; subst. constructor.
    + destruct seen; [| exact I]. simpl.
      apply np_interp_within; [now apply Hseen | exact Hxp].
    + apply IH; try assumption.
      intros t' q' H. apply (Hne t' q'). now right.
Qed.

Lemma ffill_from_within (lo hi : Q) (l : list (option Q)) (last : option Q) :
  within lo hi last -> Forall (within lo hi) l ->
  Forall (within lo hi) (ffill_from last l).
Proof.
  revert last. induction l as [| [q |] l IH]; intros last Hlast Hall; simpl.
  - constructor.
  - inversion Hall; subst. constructor; [assumption | now apply IH].
  - inversion Hall; subst. constructor; [assumption | now apply IH].
Qed.

Lemma bfill_within (lo hi : Q) (l : list (option Q)) :
  Forall (within lo hi) l -> Forall (within lo hi) (bfill l).
Proof.
  induction 1 as [| [q |] l Hq _ IH]; simpl.
  - constructor.
  - constructor; assumption.
  - constructor; [| exact IH].
    destruct IH; [exact I | assumption].
Qed.

Lemma impute_within (lo hi : Q) (x : list (datetime64 * option Q)) :
  Forall (within lo hi) (map snd x) -> Forall (within lo hi) (impute x).
Proof.
  intro H. unfold impute, ffill, interpolate_time.
  apply bfill_within, ffill_from_within; [exact I |].
  apply interpolate_from_within.
  - apply Forall_forall. intros [t q] Hp.
    apply stable_sort_In, known_points_In in Hp. simpl.
    rewrite Forall_forall in H.
    apply (H (Some q)). apply in_map_iff. exists (t, Some q). auto.
  - discriminate.
  - intros t q Hq E.
    assert (Hin : In (t, q) (stable_sort (fun a b => fst a <=? fst b) (known_points x))).
    { apply stable_sort_In, known_points_In. exact Hq. }
    rewrite E in Hin. contradiction.
  - exact H.
Qed.

(** X6.  The imputation never leaves the range of the known readings: when
    every known reading of the table lies between [lo] and [hi], so does
    every reading of the imputed table.  Readings that are not negative stay
    so. *)
Theorem imputed_readings_within_known_range (lo hi : Q) (t : list reading) :
  Forall (fun r => within lo hi (consumption r)) t ->
  Forall (fun r => within lo hi (consumption r)) (consumption_imputed t).
Proof.
  intro H. apply same_rows_Forall with (t := t).
  unfold consumption_imputed. apply scatter_same_rows. intro h.
  assert (Hg : Forall (within lo hi) (impute (group_series h t))).
  { apply impute_within. rewrite group_series_values.
    apply Forall_forall. intros v Hv. apply in_map_iff in Hv.
    destruct Hv as [r [<- Hr]]. apply filter_In in Hr.
    rewrite Forall_forall in H. apply H. tauto. }
  pose proof (impute_keeps (group_series h t)) as K.
  rewrite group_series_values in K.
  revert Hg. induction K as [| a b l l' _ _ IH]; intro Hg.
  - constructor.
  - inversion Hg; subst. constructor; auto.
Qed.

(** ** Imputation: the values filled in *)

Lemma StronglySorted_app_inv {A : Type} (R : A -> A -> Prop) (l1 l2 : list A) :
  StronglySorted R (l1 ++ l2) ->
  StronglySorted R l1 /\ StronglySorted R l2
  /\ (forall a b, In a l1 -> In b l2 -> R a b).
Proof.
  induction l1 as [| x l1 IH]; simpl; intro H.
  - split; [constructor |]. split; [assumption |]. intros a b [].
  - inversion H as [| ? ? Hs Hf]; subst.
    destruct (IH Hs) as [H1 [H2 H3]].
    rewrite Forall_forall in Hf.
    split; [| split; [assumption |]].
    + constructor; [assumption |]. apply Forall_forall.
      intros y Hy. apply Hf. apply in_or_app. now left.
    + intros a b [<- | Ha] Hb; [| now apply H3].
      apply Hf. apply in_or_app. now right.
Qed.

Lemma stable_sort_sorted_id {A : Type} (leb : A -> A -> bool) (l : list A) :
  StronglySorted (fun a b => leb a b = true) l -> stable_sort leb l = l.
Proof.
  induction 1 as [| a l _ IH Ha]; [reflexivity |].
  cbn [stable_sort fold_right]. fold (stable_sort leb l). rewrite IH.
  destruct l as [| b l]; [reflexivity |].
  cbn [insert_sorted]. inversion Ha as [| ? ? Hab _]; subst. now rewrite Hab.
Qed.

Lemma known_points_app (x y : list (datetime64 * option Q)) :
  known_points (x ++ y) = known_points x ++ known_points y.
Proof. unfold known_points. apply flat_map_app. Qed.

Lemma known_points_all_null (x : list (datetime64 * option Q)) :
  all_null x -> known_points x = [].
Proof.
  induction 1 as [| [t v] x Hv _ IH]; [reflexivity |].
  simpl in Hv. subst v. exact IH.
Qed.

Lemma known_points_times (x : list (datetime64 * option Q)) (p : datetime64 * Q) :
  In p (known_points x) -> In (fst p) (map fst x).
Proof.
  destruct p as [t q]. intro H. apply known_points_In in H.
  apply in_map_iff. exists (t, Some q). auto.
Qed.

Lemma known_points_sorted (x : list (datetime64 * option Q)) :
  StronglySorted Z.lt (map fst x) ->
  StronglySorted (fun a b => (fst a <=? fst b) = true) (known_points x).
Proof.
  induction x as [| [t v] x IH]; simpl; intro H.
  - constructor.
  - inversion H as [| ? ? Hs Hf]; subst.
    change (known_points ((t, v) :: x))
      with (match v with Some q => [(t, q)] | None => [] end ++ known_points x).
    destruct v as [q |]; simpl; [| now apply IH].
    constructor; [now apply IH |].
    apply Forall_forall. intros [tp qp] Hp. apply known_points_times in Hp.
    rewrite Forall_forall in Hf. specialize (Hf _ Hp). cbn [fst] in *.
    apply Z.leb_le. lia.
Qed.

Lemma np_interp_between (pre post : list (datetime64 * Q))
      (t0 t1 x : datetime64) (a b : Q) :
  Forall (fun p => fst p <= x) pre -> t0 < x < t1 ->
  np_interp (pre ++ (t0, a) :: (t1, b) :: post) x = on_the_line t0 a t1 b x.
Proof.
  intros Hpre Hx. induction Hpre as [| [x0 y0] pre H0 Hrest IH].
  - cbn [app np_interp].
    destruct (Z.ltb_spec x t0); [lia |].
    destruct (Z.ltb_spec x t1); [| lia].
    destruct (Z.eqb_spec x t0); [lia | reflexivity].
  - simpl in H0. cbn [app np_interp].
    destruct (Z.ltb_spec x x0); [lia |].
    destruct pre as [| [x1 y1] pre'].
    + cbn [app] in *. destruct (Z.ltb_spec x t0); [lia | exact IH].
    + cbn [app] in *.
      destruct (Z.ltb_spec x x1) as [Hlt | _]; [| exact IH].
      inversion Hrest; subst; simpl in *; lia.
Qed.

Lemma np_interp_last (pre : list (datetime64 * Q)) (t0 x : datetime64) (a : Q) :
  Forall (fun p => fst p <= x) pre -> t0 <= x ->
  np_interp (pre ++ [(t0, a)]) x = a.
Proof.
  intros Hpre Hx. induction Hpre as [| [x0 y0] pre H0 Hrest IH].
  - cbn [app np_interp]. now destruct (x <? t0).
  - simpl in H0. cbn [app np_interp].
    destruct (Z.ltb_spec x x0); [lia |].
    destruct pre as [| [x1 y1] pre'].
    + cbn [app] in *. destruct (Z.ltb_spec x t0); [lia | exact IH].
    + cbn [app] in *.
      destruct (Z.ltb_spec x x1) as [Hlt | _]; [| exact IH].
      inversion Hrest; subst; simpl in *; lia.
Qed.

Lemma interpolate_from_all_null_app (xp : list (datetime64 * Q)) (seen : bool)
      (gap rest : list (datetime64 * option Q)) :
  all_null gap ->
  interpolate_from xp seen (gap ++ rest)
  = map (fun p => if seen then Some (np_interp xp (fst p)) else None) gap
    ++ interpolate_from xp seen rest.
Proof.
  induction 1 as [| [t v] gap Hv _ IH]; [reflexivity |].
  simpl in Hv. subst v. simpl. now rewrite IH.
Qed.

Lemma interpolate_from_length (xp : list (datetime64 * Q)) (seen : bool)
      (x : list (datetime64 * option Q)) :
  length (interpolate_from xp seen x) = length x.
Proof.
  rewrite <- (Forall2_length (interpolate_from_keeps xp seen x)).
  apply length_map.
Qed.

Lemma interpolate_from_app_known (xp : list (datetime64 * Q)) (seen : bool)
      (pre rest : list (datetime64 * option Q)) (t : datetime64) (a : Q) :
  interpolate_from xp seen (pre ++ (t, Some a) :: rest)
  = interpolate_from xp seen pre ++ Some a :: interpolate_from xp true rest.
Proof.
  revert seen. induction pre as [| [t' [q |]] pre IH]; intro seen; simpl.
  - reflexivity.
  - now rewrite IH.
  - now rewrite IH.
Qed.

Lemma keeps_nth (l l' : list (option Q)) (n : nat) (v : Q) :
  Forall2 keeps_value l l' ->
  nth_error l n = Some (Some v) -> nth_error l' n = Some (Some v).
Proof.
  intro H. revert n. induction H as [| a b l l' Hab _ IH]; intros [| n] Hn;
    simpl in *; try discriminate.
  - injection Hn as ->. f_equal. now apply Hab.
  - now apply IH.
Qed.

Lemma impute_keeps_interpolated (x : list (datetime64 * option Q)) (n : nat) (v : Q) :
  nth_error (interpolate_time x) n = Some (Some v) ->
  nth_error (impute x) n = Some (Some v).
Proof.
  unfold impute, ffill. apply keeps_nth.
  eapply Forall2_keeps_trans; [apply ffill_from_keeps | apply bfill_keeps].
Qed.

(** X4.  In a series in time order, the nulls between two known readings
    are put on the line through them: between [a] at [t0] and [b] at [t1]
    the value at [t] is [a + (b - a) * (t - t0) / (t1 - t0)], so the weight
    is the time elapsed, not the number of rows. *)
Theorem interpolation_is_linear_in_time
        (pre gap post : list (datetime64 * option Q))
        (t0 t1 : datetime64) (a b : Q) :
  let x := pre ++ (t0, Some a) :: gap ++ (t1, Some b) :: post in
  StronglySorted Z.lt (map fst x) ->
  all_null gap ->
  forall i t, nth_error gap i = Some (t, None) ->
              nth_error (impute x) (length pre + 1 + i)
              = Some (Some (on_the_line t0 a t1 b t)).
Proof.
  intros x Hs Hgap i t Hi.
  apply impute_keeps_interpolated. unfold interpolate_time.
  rewrite (stable_sort_sorted_id _ _ (known_points_sorted x Hs)).
  assert (Ekp : known_points x
                = known_points pre ++ (t0, a) :: (t1, b) :: known_points post).
  { unfold x. rewrite known_points_app.
    change ((t0, Some a) :: gap ++ (t1, Some b) :: post)
      with ([(t0, Some a)] ++ gap ++ [(t1, Some b)] ++ post).
    rewrite !known_points_app, (known_points_all_null gap Hgap). reflexivity. }
  unfold x at 2.
  rewrite interpolate_from_app_known, (interpolate_from_all_null_app _ _ _ _ Hgap).
  rewrite nth_error_app2 by (rewrite interpolate_from_length; lia).
  rewrite interpolate_from_length.
  replace (length pre + 1 + i - length pre)%nat with (S i) by lia.
  cbn [nth_error].
  assert (Hlen : (i < length gap)%nat) by (apply nth_error_Some; congruence).
  rewrite nth_error_app1 by now rewrite length_map.
  rewrite nth_error_map, Hi. cbn [option_map fst]. do 2 f_equal.
  rewrite Ekp.
  assert (Ht : In t (map fst gap)).
  { apply in_map_iff. exists (t, None). split; [reflexivity |].
    eapply nth_error_In. exact Hi. }
  unfold x in Hs. rewrite map_app in Hs.
  apply StronglySorted_app_inv in Hs. destruct Hs as [_ [Hs2 Hpre]].
  cbn [map fst] in Hs2, Hpre. rewrite map_app in Hs2.
  inversion Hs2 as [| ? ? Hs3 Hf0]; subst.
  apply StronglySorted_app_inv in Hs3. destruct Hs3 as [_ [_ Hgap1]].
  rewrite Forall_forall in Hf0.
  assert (H0 : t0 < t).
  { apply Hf0. apply in_or_app. now left. }
  assert (H1 : t < t1).
  { apply Hgap1; [exact Ht | now left]. }
  apply np_interp_between; [| lia].
  apply Forall_forall. intros [tp qp] Hp. apply known_points_times in Hp.
  cbn [fst] in *.
  specialize (Hpre tp t0 Hp (or_introl eq_refl)). lia.
Qed.

Lemma ffill_leading (n : nat) (a : Q) (l : list (option Q)) :
  ffill_from None (repeat None n ++ Some a :: l)
  = repeat None n ++ Some a :: ffill_from (Some a) l.
Proof. induction n as [| n IH]; simpl; [reflexivity | now rewrite IH]. Qed.

Lemma bfill_leading (n : nat) (a : Q) (l : list (option Q)) :
  bfill (repeat None n ++ Some a :: l) = repeat (Some a) (S n) ++ bfill l.
Proof.
  induction n as [| n IH]; [reflexivity |].
  cbn [repeat app bfill]. rewrite IH. reflexivity.
Qed.

Lemma all_null_values (x : list (datetime64 * option Q)) :
  all_null x -> map (fun _ : datetime64 * option Q => @None Q) x = repeat None (length x).
Proof. induction 1; simpl; [reflexivity | now f_equal]. Qed.

(** X5.  At the two ends of a series the nearest known reading is copied:
    the nulls before the first known reading take its value (they are left
    to the backward fill), and in a series in time order the nulls after the
    last known reading take the value of that one. *)
Theorem series_ends_take_nearest_known_reading (x : list (datetime64 * option Q)) :
  (forall nulls t0 a rest,
      x = nulls ++ (t0, Some a) :: rest -> all_null nulls ->
      forall i, (i <= length nulls)%nat -> nth_error (impute x) i = Some (Some a))
  /\ (StronglySorted Z.lt (map fst x) ->
      forall rest t0 a nulls,
        x = rest ++ (t0, Some a) :: nulls -> all_null nulls ->
        forall i, (i < length nulls)%nat ->
                  nth_error (impute x) (length rest + 1 + i) = Some (Some a)).
Proof.
  split.
  - intros nulls t0 a rest -> Hn i Hi.
    unfold impute, ffill, interpolate_time.
    rewrite (interpolate_from_all_null_app _ _ _ _ Hn).
    rewrite (all_null_values nulls Hn). cbn [interpolate_from].
    rewrite ffill_leading, bfill_leading.
    rewrite nth_error_app1 by (rewrite repeat_length; lia).
    apply nth_error_repeat. lia.
  - intros Hs rest t0 a nulls E Hn i Hi.
    apply impute_keeps_interpolated. unfold interpolate_time.
    rewrite (stable_sort_sorted_id _ _ (known_points_sorted x Hs)).
    assert (Ekp : known_points x = known_points rest ++ [(t0, a)]).
    { rewrite E.
      change ((t0, Some a) :: nulls) with ([(t0, Some a)] ++ nulls).
      rewrite !known_points_app, (known_points_all_null nulls Hn).
      now rewrite app_nil_r. }
    rewrite E at 2.
    rewrite interpolate_from_app_known.
    rewrite <- (app_nil_r nulls), (interpolate_from_all_null_app _ _ _ _ Hn).
    rewrite nth_error_app2 by (rewrite interpolate_from_length; lia).
    rewrite interpolate_from_length.
    replace (length rest + 1 + i - length rest)%nat with (S i) by lia.
    cbn [nth_error interpolate_from]. rewrite app_nil_r.
    destruct (nth_error nulls i) as [[t v] |] eqn:Ei;
      [| apply nth_error_None in Ei; lia].
    rewrite nth_error_map, Ei. cbn [option_map fst]. do 2 f_equal.
    rewrite Ekp.
    assert (Ht : In t (map fst nulls)).
    { apply in_map_iff. exists (t, v). split; [reflexivity |].
      eapply nth_error_In. exact Ei. }
    rewrite E, map_app in Hs.
    apply StronglySorted_app_inv in Hs. destruct Hs as [_ [Hs2 Hpre]].
    cbn [map fst] in Hs2, Hpre.
    inversion Hs2 as [| ? ? _ Hf0]; subst.
    rewrite Forall_forall in Hf0. specialize (Hf0 t Ht).
    apply np_interp_last; [| lia].
    apply Forall_forall. intros [tp qp] Hp. apply known_points_times in Hp.
    cbn [fst] in *.
    specialize (Hpre tp t0 Hp (or_introl eq_refl)). lia.
Qed.

(** ** Null tariffs *)

Lemma mean_skipna_None (l : list (option Q)) :
  mean_skipna l = None <-> Forall (fun v => v = None) l.
Proof.
  unfold mean_skipna, count_notnull. split.
  - destruct (Z.eqb_spec (Z.of_nat (length (filter (fun v => negb (isnull v)) l))) 0)
      as [E | _]; [intros _ | discriminate].
    apply Forall_forall. intros v Hv.
    destruct v as [q |]; [| reflexivity].
    assert (Hin : In (Some q) (filter (fun v => negb (isnull v)) l)).
    { apply filter_In. split; [assumption | reflexivity]. }
    destruct (filter (fun v => negb (isnull v)) l); [contradiction | simpl in E; lia].
  - intro H. rewrite filter_none; [reflexivity |].
    intros v Hv. rewrite Forall_forall in H. now rewrite (H v Hv).
Qed.

Lemma tariff_hour_exists (hr : datetime64) (tariff_filtered : list tariff_row) :
  existsb (fun b => tariff_hour b =? hr) (tariff_hourly tariff_filtered) = true
  <-> exists r, In r tariff_filtered /\ hour_of (tariff_GMT r) = hr.
Proof.
  rewrite existsb_exists. unfold tariff_hourly. split.
  - intros [b [Hb Eb]]. apply Z.eqb_eq in Eb.
    apply in_map_iff in Hb. destruct Hb as [h [<- Hh]]. simpl in Eb. subst h.
    apply stable_sort_In, nodup_In, in_map_iff in Hh.
    destruct Hh as [r [Er Hr]]. exists r. auto.
  - intros [r [Hr Er]].
    exists {| tariff_hour := hr;
              mean_Price :=
                mean_skipna (map Price (filter (in_tariff_hour hr) tariff_filtered)) |}.
    split; [| apply Z.eqb_refl].
    apply in_map_iff. exists hr. split; [reflexivity |].
    apply stable_sort_In, nodup_In, in_map_iff. exists r. auto.
Qed.

(** X10.  A row of the merged table has a null tariff exactly when no
    filtered tariff reading of its hour has a price: either no reading falls
    in that hour, or all that do have a null price (the mean of nothing but
    nulls is a null). *)
Theorem tariff_null_iff_no_price_in_hour
        (imputed : list reading) (tariff_filtered : list tariff_row) :
  Forall (fun x =>
            tariff x = None
            <-> forall r, In r tariff_filtered ->
                          hour_of (tariff_GMT r) = timestamp x ->
                          Price r = None)
         (merged_data (consumption_hourly imputed) (tariff_hourly tariff_filtered)).
Proof.
  apply Forall_forall. intros x Hx.
  apply (Permutation_in _ (Permutation_sym (merged_data_perm _ _))) in Hx.
  apply in_map_iff in Hx. destruct Hx as [a [<- _]]. simpl.
  unfold expected_tariff.
  destruct (existsb (fun b => tariff_hour b =? hour a) (tariff_hourly tariff_filtered))
    eqn:E.
  - rewrite mean_skipna_None, Forall_forall. split.
    + intros H r Hr Eh. apply H. apply in_map. apply filter_In.
      split; [assumption |]. unfold in_tariff_hour. now apply Z.eqb_eq.
    + intros H v Hv. apply in_map_iff in Hv. destruct Hv as [r [<- Hr]].
      apply filter_In in Hr. destruct Hr as [Hr Eh].
      apply H; [assumption |]. now apply Z.eqb_eq.
  - split; [| reflexivity]. intros _ r Hr Eh. exfalso.
    assert (T : existsb (fun b => tariff_hour b =? hour a)
                        (tariff_hourly tariff_filtered) = true).
    { apply tariff_hour_exists. exists r. auto. }
    congruence.
Qed.

(** ** Empty inputs *)

Lemma melt_no_rows (w : wide_table) : wide_rows w = [] -> melt w = [].
Proof.
  intro E. apply length_zero_iff_nil.
  pose proof (melt_columns_length (wide_rows w) (wide_columns w) 0) as L.
  unfold melt, enumerate. rewrite L, E. simpl. lia.
Qed.

Lemma melt_no_columns (w : wide_table) : wide_columns w = [] -> melt w = [].
Proof. intro E. unfold melt, enumerate. now rewrite E. Qed.

(** X11.  For a consumption file and a tariff file that each have a row:
    when no row of the consumption file falls in the filtered year, or the
    file has no household column, the melted table is empty, no household
    is removed (no percentage is computed) and the output is the empty
    table, whatever the rows of the tariff file are. *)
Theorem empty_consumption_gives_empty_output
        (tariff_data : list tariff_row) (consumption_data : wide_table) :
  wide_rows consumption_data <> [] ->
  tariff_data <> [] ->
  wide_rows (consumption_data_filtered consumption_data) = []
  \/ wide_columns consumption_data = [] ->
  consumption_melted consumption_data = []
  /\ all_households (consumption_melted consumption_data) = []
  /\ households_to_remove (consumption_melted consumption_data) = []
  /\ consumption_and_tariff_data_hourly tariff_data consumption_data = [].
Proof.
  intros _ _ H.
  assert (E : consumption_melted consumption_data = []).
  { unfold consumption_melted. destruct H as [H | H].
    - now apply melt_no_rows.
    - now apply melt_no_columns. }
  unfold consumption_and_tariff_data_hourly. rewrite E.
  repeat split; reflexivity.
Qed.

(** ** Order of the merged table *)

Lemma string_compare_trans (a : string) :
  forall b c, String.compare a b <> Gt -> String.compare b c <> Gt ->
              String.compare a c <> Gt.
Proof.
  induction a as [| c1 a IH]; intros [| c2 b] [| c3 c] H1 H2; simpl in *;
    try congruence.
  unfold Ascii.compare in *.
  destruct (N.compare_spec (Ascii.N_of_ascii c1) (Ascii.N_of_ascii c2)) as [E12 | L12 | G12];
    destruct (N.compare_spec (Ascii.N_of_ascii c2) (Ascii.N_of_ascii c3)) as [E23 | L23 | G23];
    destruct (N.compare_spec (Ascii.N_of_ascii c1) (Ascii.N_of_ascii c3)) as [E13 | L13 | G13];
    try congruence; try lia.
  now apply (IH b c).
Qed.

Lemma string_leb_trans (a b c : string) :
  String.leb a b = true -> String.leb b c = true -> String.leb a c = true.
Proof.
  unfold String.leb. intros H1 H2.
  pose proof (string_compare_trans a b c) as T.
  destruct (String.compare a b), (String.compare b c), (String.compare a c);
    try reflexivity; try discriminate; exfalso; apply T;
    first [discriminate | reflexivity].
Qed.

Lemma key_leb_spec (k k' : datetime64 * household) :
  key_leb k k' = true
  <-> fst k < fst k' \/ (fst k = fst k' /\ String.leb (snd k) (snd k') = true).
Proof.
  unfold key_leb. rewrite orb_true_iff, andb_true_iff, Z.ltb_lt, Z.eqb_eq. tauto.
Qed.

Lemma key_leb_total (k k' : datetime64 * household) :
  key_leb k k' = false -> key_leb k' k = true.
Proof.
  intro H. apply key_leb_spec.
  apply not_true_iff_false in H. rewrite key_leb_spec in H.
  destruct (Z.lt_trichotomy (fst k) (fst k')) as [L | [E | G]].
  - exfalso. apply H. now left.
  - right. split; [now symmetry |].
    destruct (String.leb_total (snd k) (snd k')) as [T | T]; [| exact T].
    exfalso. apply H. right. auto.
  - left. lia.
Qed.

Lemma key_leb_trans (k1 k2 k3 : datetime64 * household) :
  key_leb k1 k2 = true -> key_leb k2 k3 = true -> key_leb k1 k3 = true.
Proof.
  rewrite !key_leb_spec. intros [L1 | [E1 S1]] [L2 | [E2 S2]].
  - left. lia.
  - left. lia.
  - left. lia.
  - right. split; [congruence |]. eapply string_leb_trans; eassumption.
Qed.

Lemma StronglySorted_map {A B : Type} (R : B -> B -> Prop) (f : A -> B) (l : list A) :
  StronglySorted R (map f l) <-> StronglySorted (fun a b => R (f a) (f b)) l.
Proof.
  induction l as [| x l IH]; simpl.
  - split; constructor.
  - split; intro H; inversion H as [| ? ? Hs Hf]; subst; constructor.
    + now apply IH.
    + now rewrite Forall_map in Hf.
    + now apply IH.
    + now rewrite Forall_map.
Qed.

Lemma consumption_hourly_sorted (imputed : list reading) :
  StronglySorted (fun a b => key_leb (hourly_key a) (hourly_key b) = true)
                 (consumption_hourly imputed).
Proof.
  apply (StronglySorted_map (fun k k' => key_leb k k' = true) hourly_key).
  rewrite consumption_hourly_keys.
  apply stable_sort_sorted; [apply key_leb_total | apply key_leb_trans].
Qed.

(** X9.  The merged table is in ascending order of (timestamp,
    household_id), timestamps first and ids in character order, and no key
    comes twice.  The grouped consumption table is already in that order and
    the left merge keeps the order of its left table, so the final
    [sort_values] moves no row. *)
Theorem merged_data_is_sorted_by_key
        (imputed : list reading) (tariff_filtered : list tariff_row) :
  let merged :=
    merged_data (consumption_hourly imputed) (tariff_hourly tariff_filtered) in
  StronglySorted
    (fun a b =>
       (timestamp a < timestamp b
        \/ (timestamp a = timestamp b
            /\ String.leb (merged_household_id a) (merged_household_id b) = true))
       /\ merged_key a <> merged_key b)
    merged
  /\ merged = merge_left (consumption_hourly imputed) (tariff_hourly tariff_filtered).
Proof.
  intro merged.
  assert (Hu : merged
               = merge_left (consumption_hourly imputed) (tariff_hourly tariff_filtered)).
  { unfold merged, merged_data. apply stable_sort_sorted_id.
    rewrite merge_left_tariff_hourly.
    apply (StronglySorted_map
             (fun x y => key_leb (merged_key x) (merged_key y) = true)
             (fun a => join_row a (expected_tariff tariff_filtered (hour a)))).
    apply consumption_hourly_sorted. }
  split; [| exact Hu].
  assert (Hs : StronglySorted (fun a b => key_leb (merged_key a) (merged_key b) = true)
                              merged).
  { unfold merged, merged_data.
    apply (stable_sort_sorted (fun a b => key_leb (merged_key a) (merged_key b))).
    - intros a b. apply key_leb_total.
    - intros a b c. apply key_leb_trans. }
  assert (ND : NoDup (map merged_key merged)).
  { eapply Permutation_NoDup; [apply Permutation_sym, merged_keys_perm |].
    apply consumption_hourly_NoDup. }
  clear Hu. induction Hs as [| x l Hs IH Hx].
  - constructor.
  - simpl in ND. inversion ND as [| ? ? Hnot ND']; subst.
    constructor; [now apply IH |].
    rewrite Forall_forall in Hx |- *. intros y Hy. split.
    + specialize (Hx y Hy). apply key_leb_spec in Hx. exact Hx.
    + intro E. apply Hnot. rewrite E. now apply in_map.
Qed.

(** ** Weather: duplicate removal on its own *)

Lemma drop_from_fixed (seen : list datetime64) (df : weather_table) :
  NoDup (index df) -> (forall ts, In ts (index df) -> ~ In ts seen) ->
  boolean_mask df (map negb (duplicated_from seen (index df))) = df.
Proof.
  revert seen. induction df as [| x df IH]; intros seen ND Hseen; simpl.
  - reflexivity.
  - simpl in ND. inversion ND as [| ? ? Hnot ND']; subst.
    destruct (existsb (Z.eqb (datetime x)) seen) eqn:E.
    + apply seen_spec in E. exfalso. apply (Hseen (datetime x)); [now left | exact E].
    + simpl. f_equal. apply IH; [exact ND' |].
      intros ts Hts [<- | Hin]; [contradiction |].
      apply (Hseen ts); [now right | exact Hin].
Qed.

Lemma drop_duplicated_fixed (df : weather_table) :
  NoDup (index df) -> drop_duplicated df = df.
Proof.
  intro ND. unfold drop_duplicated, duplicated.
  apply drop_from_fixed; [exact ND |]. intros ts _ [].
Qed.

Lemma drop_from_order (seen : list datetime64) (df : weather_table) :
  forall a b before after,
    boolean_mask df (map negb (duplicated_from seen (index df)))
    = before ++ a :: b :: after ->
    exists l1 l2 l3, df = l1 ++ a :: l2 ++ b :: l3.
Proof.
  revert seen. induction df as [| x df IH]; intros seen a b before after E.
  - simpl in E. destruct before; discriminate.
  - simpl in E. destruct (existsb (Z.eqb (datetime x)) seen); simpl in E.
    + destruct (IH _ _ _ _ _ E) as [l1 [l2 [l3 ->]]].
      exists (x :: l1), l2, l3. reflexivity.
    + destruct before as [| y before]; simpl in E.
      * injection E as -> E.
        assert (Hb : In b (boolean_mask df (map negb (duplicated_from (datetime a :: seen)
                                                                        (index df))))).
        { rewrite E. now left. }
        apply drop_from_In in Hb. destruct Hb as [Hb _].
        apply in_split in Hb. destruct Hb as [l2 [l3 ->]].
        exists [], l2, l3. reflexivity.
      * injection E as -> E.
        destruct (IH _ _ _ _ _ E) as [l1 [l2 [l3 ->]]].
        exists (y :: l1), l2, l3. reflexivity.
Qed.

(** X14.  The duplicate removal leaves one row per distinct label, so as
    many rows as there are distinct labels, and keeps the rows it leaves in
    the order they had.  A table without duplicate labels passes unchanged,
    and removing duplicates twice is removing them once. *)
Theorem drop_duplicated_keeps_one_row_per_label (df : weather_table) :
  NoDup (index (drop_duplicated df))
  /\ (forall ts, In ts (index (drop_duplicated df)) <-> In ts (index df))
  /\ length (drop_duplicated df) = length (nodup Z.eq_dec (index df))
  /\ (forall a b before after,
         drop_duplicated df = before ++ a :: b :: after ->
         exists l1 l2 l3, df = l1 ++ a :: l2 ++ b :: l3)
  /\ (NoDup (index df) -> drop_duplicated df = df)
  /\ drop_duplicated (drop_duplicated df) = drop_duplicated df.
Proof.
  assert (ND : NoDup (index (drop_duplicated df))).
  { unfold drop_duplicated, duplicated. apply drop_from_NoDup. }
  assert (HIn : forall ts, In ts (index (drop_duplicated df)) <-> In ts (index df)).
  { intro ts. unfold drop_duplicated, duplicated.
    rewrite drop_from_index_In. simpl. tauto. }
  split; [exact ND |]. split; [exact HIn |]. split.
  - rewrite <- (length_map datetime). fold (index (drop_duplicated df)).
    apply Permutation_length, NoDup_Permutation.
    + exact ND.
    + apply NoDup_nodup.
    + intro ts. rewrite nodup_In. apply HIn.
  - split; [| split].
    + unfold drop_duplicated, duplicated. apply drop_from_order.
    + apply drop_duplicated_fixed.
    + now apply drop_duplicated_fixed.
Qed.

(** ** Weather: the output in closed form *)

Lemma interleaved_perm (df : weather_table) :
  Permutation (df ++ synthesized_rows df) (interleaved df).
Proof.
  induction df as [| prev df IH]; [apply perm_nil |].
  destruct df as [| next df].
  - simpl. apply Permutation_refl.
  - rewrite synthesized_rows_cons. cbn [interleaved].
    destruct (datetime next - datetime prev =? Timedelta_hours 2).
    + rewrite <- app_comm_cons. apply perm_skip.
      apply Permutation_sym, Permutation_cons_app, Permutation_sym. exact IH.
    + rewrite <- app_comm_cons. apply perm_skip. exact IH.
Qed.

Lemma interleaved_cons (a : weather_row) (df : weather_table) :
  exists rest, interleaved (a :: df) = a :: rest.
Proof.
  destruct df as [| b df]; [now exists [] |].
  cbn [interleaved].
  destruct (datetime b - datetime a =? Timedelta_hours 2); eexists; reflexivity.
Qed.

Lemma interleaved_lower (a : weather_row) (df : weather_table) :
  StronglySorted Z.lt (index (a :: df)) ->
  forall x, In x (interleaved (a :: df)) -> datetime a <= datetime x.
Proof.
  intros Hs x Hx.
  apply (Permutation_in _ (Permutation_sym (interleaved_perm (a :: df)))) in Hx.
  pose proof Hs as Hs'. simpl in Hs'. inversion Hs' as [| ? ? _ Hf]; subst.
  rewrite Forall_forall in Hf.
  assert (Hge : forall y, In y (a :: df) -> datetime a <= datetime y).
  { intros y [<- | Hy]; [lia |].
    specialize (Hf (datetime y) (in_map datetime _ _ Hy)). lia. }
  apply in_app_or in Hx. destruct Hx as [Hx | Hx]; [now apply Hge |].
  apply synthesized_rows_In in Hx.
  destruct Hx as [p [n [Hpn [_ ->]]]]. simpl.
  destruct (neighbours_In _ _ _ Hpn) as [Hp _].
  specialize (Hge p Hp). unfold Timedelta_hours, SECONDS_PER_HOUR. lia.
Qed.

Lemma interleaved_sorted (df : weather_table) :
  StronglySorted Z.lt (index df) -> StronglySorted Z.lt (index (interleaved df)).
Proof.
  induction df as [| prev df IH]; intro Hs; [constructor |].
  destruct df as [| next df]; [exact Hs |].
  pose proof Hs as Hs'. simpl in Hs'.
  inversion Hs' as [| ? ? Htail Hf]; subst.
  specialize (IH Htail).
  pose proof (interleaved_lower next df Htail) as Hlow.
  assert (Hpn : datetime prev < datetime next).
  { rewrite Forall_forall in Hf. apply Hf. now left. }
  cbn [interleaved].
  destruct (Z.eqb_spec (datetime next - datetime prev) (Timedelta_hours 2)) as [E | _].
  - unfold Timedelta_hours, SECONDS_PER_HOUR in E.
    cbn [index map]. fold (index (interleaved (next :: df))).
    constructor; [constructor; [exact IH |] |].
    + apply Forall_forall. intros ts Hts. apply in_map_iff in Hts.
      destruct Hts as [x [<- Hx]]. specialize (Hlow x Hx).
      simpl. unfold Timedelta_hours, SECONDS_PER_HOUR. lia.
    + constructor.
      * simpl. unfold Timedelta_hours, SECONDS_PER_HOUR. lia.
      * apply Forall_forall. intros ts Hts. apply in_map_iff in Hts.
        destruct Hts as [x [<- Hx]]. specialize (Hlow x Hx). lia.
  - cbn [index map]. fold (index (interleaved (next :: df))).
    constructor; [exact IH |].
    apply Forall_forall. intros ts Hts. apply in_map_iff in Hts.
    destruct Hts as [x [<- Hx]]. specialize (Hlow x Hx). lia.
Qed.

Lemma interleaved_unfold (prev next : weather_row) (df : weather_table) :
  interleaved (prev :: next :: df)
  = if datetime next - datetime prev =? Timedelta_hours 2
    then prev :: interpolated_row (datetime prev + Timedelta_hours 1) prev next
              :: interleaved (next :: df)
    else prev :: interleaved (next :: df).
Proof. reflexivity. Qed.

Lemma time_diffs_cons (a b : datetime64) (l : list datetime64) :
  time_diffs (a :: b :: l) = (b, b - a) :: time_diffs (b :: l).
Proof. reflexivity. Qed.

Lemma interleaved_no_two_hours (df : weather_table) :
  Forall (fun e => snd e <> Timedelta_hours 2) (time_diffs (index (interleaved df))).
Proof.
  induction df as [| prev df IH]; [constructor |].
  destruct df as [| next df]; [constructor |].
  destruct (interleaved_cons next df) as [rest Erest].
  rewrite interleaved_unfold.
  destruct (Z.eqb_spec (datetime next - datetime prev) (Timedelta_hours 2)) as [E | N].
  - rewrite Erest in *.
    change (index (prev :: interpolated_row (datetime prev + Timedelta_hours 1) prev next
                        :: next :: rest))
      with (datetime prev :: (datetime prev + Timedelta_hours 1)
                          :: datetime next :: index rest).
    change (index (next :: rest)) with (datetime next :: index rest) in IH.
    rewrite !time_diffs_cons.
    unfold Timedelta_hours, SECONDS_PER_HOUR in *.
    constructor; [cbn [snd]; lia |]. constructor; [cbn [snd]; lia |]. exact IH.
  - rewrite Erest in *.
    change (index (prev :: next :: rest))
      with (datetime prev :: datetime next :: index rest).
    change (index (next :: rest)) with (datetime next :: index rest) in IH.
    rewrite time_diffs_cons.
    constructor; [cbn [snd]; exact N |]. exact IH.
Qed.

Lemma synthesized_rows_none (df : weather_table) :
  Forall (fun e => snd e <> Timedelta_hours 2) (time_diffs (index df)) ->
  synthesized_rows df = [].
Proof.
  induction df as [| prev df IH]; [reflexivity |].
  destruct df as [| next df]; [reflexivity |].
  cbn [index map time_diffs]. intro H. inversion H as [| ? ? Hn Hrest]; subst.
  simpl in Hn. rewrite synthesized_rows_cons.
  destruct (Z.eqb_spec (datetime next - datetime prev) (Timedelta_hours 2));
    [contradiction |].
  apply IH. exact Hrest.
Qed.

Section WeatherClosedForm.
Variable sort_index : weather_table -> weather_table.
Hypothesis sort_index_sorts : sorts_by_index sort_index.

Lemma sort_index_interleaves (df : weather_table) :
  StronglySorted Z.lt (index df) ->
  sort_index (df ++ synthesized_rows df) = interleaved df.
Proof.
  intro Hs.
  destruct (sort_index_sorts (df ++ synthesized_rows df)) as [HP Hsorted].
  pose proof (interleaved_sorted df Hs) as Hi.
  symmetry. apply sorted_perm_unique.
  - apply StronglySorted_index.
    eapply StronglySorted_weaken; [| exact Hi]. intros a b. lia.
  - exact Hsorted.
  - eapply perm_trans; [apply Permutation_sym, interleaved_perm | exact HP].
  - now apply lt_sorted_NoDup.
Qed.

(** X12.  When there is a weather file to read, the output is the table
    without duplicates with each synthesized row inserted between the two
    rows it averages.
    Its labels are strictly ascending, so no label comes twice; every label
    of the files is among them; and it has one row per distinct label of the
    files plus one per two-hour distance. *)
Theorem weather_output_closed_form (df_list : list weather_table) :
  df_list <> [] ->
  let df := deduplicated_rows sort_index df_list in
  weather_deduplicated sort_index df_list = Some df
  /\ merged_weather_data sort_index df_list = Some (interleaved df)
  /\ StronglySorted Z.lt (index (interleaved df))
  /\ (forall ts, In ts (index (concat df_list)) -> In ts (index (interleaved df)))
  /\ length (interleaved df)
     = (length (nodup Z.eq_dec (index (concat df_list)))
        + length (synthesized_rows df))%nat.
Proof.
  intros Hfiles df.
  pose proof (deduplicated_rows_sorted sort_index sort_index_sorts df_list) as Hs.
  fold df in Hs.
  split; [now apply weather_deduplicated_some |].
  split.
  { rewrite (merged_weather_data_spec sort_index sort_index_sorts) by assumption.
    fold df. now rewrite sort_index_interleaves. }
  split; [now apply interleaved_sorted |].
  split.
  - intros ts Hts.
    apply (Permutation_in _ (Permutation_map datetime (interleaved_perm df))).
    rewrite map_app. apply in_or_app. left.
    now apply (deduplicated_rows_index_In sort_index sort_index_sorts).
  - rewrite <- (Permutation_length (interleaved_perm df)), length_app. f_equal.
    rewrite <- (length_map datetime). fold (index df).
    apply Permutation_length, NoDup_Permutation.
    + now apply lt_sorted_NoDup.
    + apply NoDup_nodup.
    + intro ts. rewrite nodup_In.
      apply (deduplicated_rows_index_In sort_index sort_index_sorts).
Qed.

(** X13.  When there is a weather file to read, no two neighbouring rows
    of the output are exactly two hours apart: the handler closes every distance it looks for and opens no new
    one.  Running cells 7 and 8 again on the output as the only file gives
    the output back. *)
Theorem weather_output_has_no_two_hour_distance (df_list : list weather_table) :
  df_list <> [] ->
  exists out,
    merged_weather_data sort_index df_list = Some out
    /\ Forall (fun e => snd e <> Timedelta_hours 2) (time_diffs (index out))
    /\ (forall prev next, neighbours out prev next ->
                          datetime next - datetime prev <> Timedelta_hours 2)
    /\ merged_weather_data sort_index [out] = Some out.
Proof.
  intro Hfiles.
  set (df := deduplicated_rows sort_index df_list).
  pose proof (deduplicated_rows_sorted sort_index sort_index_sorts df_list) as Hs.
  fold df in Hs.
  exists (interleaved df).
  pose proof (interleaved_sorted df Hs) as Hi.
  pose proof (interleaved_no_two_hours df) as Hno.
  split.
  { rewrite (merged_weather_data_spec sort_index sort_index_sorts) by assumption.
    fold df. now rewrite sort_index_interleaves. }
  split; [exact Hno |]. split.
  - intros prev next Hn Hgap.
    assert (Hrow : In (interpolated_row (datetime prev + Timedelta_hours 1) prev next)
                      (synthesized_rows (interleaved df))).
    { apply synthesized_rows_In. exists prev, next. auto. }
    now rewrite (synthesized_rows_none _ Hno) in Hrow.
  - assert (Ed : deduplicated_rows sort_index [interleaved df] = interleaved df).
    { unfold deduplicated_rows. simpl.
      rewrite app_nil_r.
      rewrite (sort_index_fixed sort_index sort_index_sorts _ Hi).
      apply drop_duplicated_fixed. now apply lt_sorted_NoDup. }
    rewrite (merged_weather_data_spec sort_index sort_index_sorts) by discriminate.
    rewrite Ed, (synthesized_rows_none _ Hno), app_nil_r.
    now rewrite (sort_index_fixed sort_index sort_index_sorts _ Hi).
Qed.
End WeatherClosedForm.

(** ** Totals *)

Lemma sum_skipna_acc (l : list (option Q)) (acc : Q) :
  (fold_left (fun a v => match v with Some q => a + q | None => a end) l acc
   == acc + qsum l)%Q.
Proof.
  revert acc. induction l as [| [q |] l IH]; intro acc; simpl.
  - ring.
  - rewrite IH. ring.
  - rewrite IH. ring.
Qed.

Lemma sum_skipna_qsum (l : list (option Q)) : (sum_skipna l == qsum l)%Q.
Proof. unfold sum_skipna. rewrite sum_skipna_acc. ring. Qed.

Lemma ksum_ext (K : list (datetime64 * household)) (f g : datetime64 * household -> Q) :
  (forall k, In k K -> (f k == g k)%Q) -> (ksum K f == ksum K g)%Q.
Proof.
  induction K as [| k K IH]; intro H; simpl.
  - reflexivity.
  - rewrite (H k (or_introl eq_refl)), IH; [reflexivity |].
    intros k' Hk'. apply H. now right.
Qed.

Lemma ksum_add (K : list (datetime64 * household)) (f g : datetime64 * household -> Q) :
  (ksum K (fun k => f k + g k) == ksum K f + ksum K g)%Q.
Proof.
  induction K as [| k K IH]; simpl; [ring | rewrite IH; ring].
Qed.

Lemma ksum_zero (K : list (datetime64 * household)) (f : datetime64 * household -> Q) :
  (forall k, In k K -> (f k == 0)%Q) -> (ksum K f == 0)%Q.
Proof.
  induction K as [| k K IH]; intro H; simpl.
  - reflexivity.
  - rewrite (H k (or_introl eq_refl)), IH; [ring |].
    intros k' Hk'. apply H. now right.
Qed.

Lemma ksum_indicator (K : list (datetime64 * household)) (r : reading) (v : Q) :
  NoDup K -> In (reading_key r) K ->
  (ksum K (fun k => if in_bucket k r then v else 0) == v)%Q.
Proof.
  induction K as [| k K IH]; intros ND HIn; [contradiction |].
  inversion ND as [| ? ? Hnot ND']; subst. simpl.
  destruct (in_bucket k r) eqn:E.
  - apply in_bucket_true in E. subst k.
    rewrite ksum_zero; [ring |].
    intros k' Hk'. destruct (in_bucket k' r) eqn:E'; [| reflexivity].
    apply in_bucket_true in E'. subst k'. contradiction.
  - destruct HIn as [Ek | HIn].
    + assert (T : in_bucket k r = true) by now apply in_bucket_true.
      congruence.
    + rewrite IH by assumption. ring.
Qed.

Lemma bucket_sum_cons (k : datetime64 * household) (r : reading) (t : list reading) :
  (qsum (map consumption (filter (in_bucket k) (r :: t)))
   == (if in_bucket k r then value_or_zero (consumption r) else 0)
      + qsum (map consumption (filter (in_bucket k) t)))%Q.
Proof.
  simpl. destruct (in_bucket k r); simpl; ring.
Qed.

(** The bucket sums over a duplicate-free list of keys that covers the
    table add up to the sum of the table. *)
Lemma bucket_sums_total (K : list (datetime64 * household)) (t : list reading) :
  NoDup K -> (forall r, In r t -> In (reading_key r) K) ->
  (ksum K (fun k => qsum (map consumption (filter (in_bucket k) t)))
   == qsum (map consumption t))%Q.
Proof.
  intros ND. induction t as [| r t IH]; intro Hcover.
  - simpl. apply ksum_zero. intros. reflexivity.
  - rewrite (ksum_ext K _ (fun k => (if in_bucket k r then value_or_zero (consumption r) else 0)
                                     + qsum (map consumption (filter (in_bucket k) t)))%Q)
      by (intros; apply bucket_sum_cons).
    rewrite ksum_add, ksum_indicator, IH.
    + simpl. reflexivity.
    + intros r' Hr'. apply Hcover. now right.
    + exact ND.
    + apply Hcover. now left.
Qed.

Lemma qsum_of_keys (K : list (datetime64 * household)) (g : datetime64 * household -> Q) :
  qsum (map (fun k => Some (g k)) K) = ksum K g.
Proof. induction K as [| k K IH]; simpl; [reflexivity | now rewrite IH]. Qed.

Lemma filter_map_comm {A B : Type} (f : A -> B) (p : B -> bool) (l : list A) :
  filter p (map f l) = map f (filter (fun x => p (f x)) l).
Proof.
  induction l as [| x l IH]; simpl; [reflexivity |].
  destruct (p (f x)); simpl; now rewrite IH.
Qed.

Lemma merged_data_unsorted (imputed : list reading) (tariff_filtered : list tariff_row) :
  merged_data (consumption_hourly imputed) (tariff_hourly tariff_filtered)
  = map (fun a => join_row a (expected_tariff tariff_filtered (hour a)))
        (consumption_hourly imputed).
Proof.
  unfold merged_data. rewrite merge_left_tariff_hourly.
  apply stable_sort_sorted_id.
  apply (StronglySorted_map
           (fun x y => key_leb (merged_key x) (merged_key y) = true)
           (fun a => join_row a (expected_tariff tariff_filtered (hour a)))).
  apply consumption_hourly_sorted.
Qed.

Lemma sum_skipna_conserved
      (imputed : list reading) (tariff_filtered : list tariff_row) :
  let merged :=
    merged_data (consumption_hourly imputed) (tariff_hourly tariff_filtered) in
  (sum_skipna (map merged_consumption merged)
   == sum_skipna (map consumption imputed))%Q
  /\ (forall h,
         (sum_skipna (map merged_consumption
                          (filter (fun x => String.eqb (merged_household_id x) h) merged))
          == sum_skipna (map consumption (filter (of_household h) imputed)))%Q).
Proof.
  intro merged.
  assert (Hh : forall h,
             (sum_skipna (map merged_consumption
                              (filter (fun x => String.eqb (merged_household_id x) h) merged))
              == sum_skipna (map consumption (filter (of_household h) imputed)))%Q).
  { intro h. unfold merged. rewrite merged_data_unsorted.
    rewrite filter_map_comm, map_map. cbn [join_row merged_household_id merged_consumption].
    unfold consumption_hourly at 1.
    rewrite filter_map_comm, map_map. cbn [hourly_household_id hourly_consumption].
    set (K := filter (fun k : datetime64 * household => String.eqb (snd k) h)
                     (stable_sort key_leb (nodup key_eq_dec (map reading_key imputed)))).
    rewrite !sum_skipna_qsum.
    rewrite (qsum_of_keys K
               (fun k => sum_skipna (map consumption (filter (in_bucket k) imputed)))).
    rewrite (ksum_ext K _
               (fun k => qsum (map consumption
                                   (filter (in_bucket k) (filter (of_household h) imputed))))).
    - apply bucket_sums_total.
      + unfold K. apply NoDup_filter, stable_sort_NoDup, NoDup_nodup.
      + intros r Hr. apply filter_In in Hr. destruct Hr as [Hr Hrh].
        unfold K. apply filter_In. split.
        * apply stable_sort_In, nodup_In. now apply in_map.
        * exact Hrh.
    - intros k Hk. unfold K in Hk. apply filter_In in Hk. destruct Hk as [_ Hk].
      apply String.eqb_eq in Hk.
      rewrite sum_skipna_qsum, filter_filter_and.
      erewrite (filter_ext (fun x => in_bucket k x && of_household h x) (in_bucket k));
        [reflexivity |].
      intro r. destruct (in_bucket k r) eqn:E; [| reflexivity].
      apply in_bucket_true in E. unfold of_household. simpl.
      apply String.eqb_eq. rewrite <- Hk, <- E. reflexivity. }
  split; [| exact Hh].
  unfold merged. rewrite merged_data_unsorted, map_map.
  cbn [join_row merged_consumption].
  unfold consumption_hourly. rewrite map_map. cbn [hourly_consumption].
  rewrite !sum_skipna_qsum.
  rewrite (qsum_of_keys _
             (fun k => sum_skipna (map consumption (filter (in_bucket k) imputed)))).
  rewrite (ksum_ext _ _ (fun k => qsum (map consumption (filter (in_bucket k) imputed))))
    by (intros; apply sum_skipna_qsum).
  apply bucket_sums_total.
  - apply stable_sort_NoDup, NoDup_nodup.
  - intros r Hr. apply stable_sort_In, nodup_In. now apply in_map.
Qed.

(** X15.  The hourly aggregation neither loses nor invents consumption: for
    every household the hourly consumptions of the merged table add up to
    the plain total of the household's readings in the imputed table (a null
    counting for nothing), and so do the totals over all households.  When
    every imputed reading is known, the consumptions of the merged table add
    up to the plain sum of the readings. *)
Theorem hourly_aggregation_conserves_consumption
        (imputed : list reading) (tariff_filtered : list tariff_row) :
  let merged :=
    merged_data (consumption_hourly imputed) (tariff_hourly tariff_filtered) in
  (qsum (map merged_consumption merged) == qsum (map consumption imputed))%Q
  /\ (forall h,
         (qsum (map merged_consumption
                    (filter (fun x => String.eqb (merged_household_id x) h) merged))
          == qsum (map consumption (filter (of_household h) imputed)))%Q)
  /\ (forall vs, map consumption imputed = map Some vs ->
                 (qsum (map merged_consumption merged) == sum_values vs)%Q).
Proof.
  intro merged.
  destruct (sum_skipna_conserved imputed tariff_filtered) as [Htotal Hh].
  fold merged in Htotal, Hh.
  assert (T : (qsum (map merged_consumption merged)
               == qsum (map consumption imputed))%Q).
  { rewrite <- !sum_skipna_qsum. exact Htotal. }
  split; [exact T |]. split.
  - intro h. rewrite <- !sum_skipna_qsum. apply Hh.
  - intros vs E. rewrite T, E, <- sum_skipna_qsum, sum_skipna_values. reflexivity.
Qed.

(** ** The further theorems at concrete tables *)

(** [imputed_readings_within_known_range] on a household with readings 1
    and 5 and two nulls between them. *)
Lemma imputed_readings_within_known_range_example :
  Forall (fun r => within 1 5 (consumption r)) uneven_readings
  /\ Forall (fun r => within 1 5 (consumption r)) (consumption_imputed uneven_readings).
Proof.
  assert (H : Forall (fun r => within 1 5 (consumption r)) uneven_readings).
  { repeat constructor; simpl; lra. }
  split; [exact H |].
  apply (imputed_readings_within_known_range 1 5 uneven_readings H).
Defined.

(** [interpolation_is_linear_in_time] on the same series: the null of 01:30
    lies three quarters of the way from 1 at 00:00 to 5 at 02:00, although
    it is the second of two nulls. *)
Lemma interpolation_is_linear_in_time_example :
  StronglySorted Z.lt (map fst uneven_series)
  /\ all_null [ (Timestamp 2013 6 1 0 30 0, @None Q);
                (Timestamp 2013 6 1 1 30 0, None) ]
  /\ nth_error (impute uneven_series) 2
     = Some (Some (on_the_line (Timestamp 2013 6 1 0 0 0) 1
                               (Timestamp 2013 6 1 2 0 0) 5
                               (Timestamp 2013 6 1 1 30 0)))
  /\ (on_the_line (Timestamp 2013 6 1 0 0 0) 1 (Timestamp 2013 6 1 2 0 0) 5
                  (Timestamp 2013 6 1 1 30 0) == 4)%Q.
Proof.
  assert (Hs : StronglySorted Z.lt (map fst uneven_series)).
  { vm_compute. repeat constructor. }
  assert (Hn : all_null [ (Timestamp 2013 6 1 0 30 0, @None Q);
                          (Timestamp 2013 6 1 1 30 0, None) ]).
  { repeat constructor. }
  split; [exact Hs |]. split; [exact Hn |]. split; [| reflexivity].
  apply (interpolation_is_linear_in_time
           [] [ (Timestamp 2013 6 1 0 30 0, None); (Timestamp 2013 6 1 1 30 0, None) ] []
           (Timestamp 2013 6 1 0 0 0) (Timestamp 2013 6 1 2 0 0) 1 5 Hs Hn
           1%nat (Timestamp 2013 6 1 1 30 0) eq_refl).
Defined.

(** [empty_consumption_gives_empty_output] on a consumption file with rows
    of 2012, of 2014 and of the dropped instant 2013-01-01 00:00:00 only. *)
Lemma empty_consumption_gives_empty_output_example :
  wide_rows outside_2013_consumption_data <> []
  /\ example_tariff_data <> []
  /\ (wide_rows (consumption_data_filtered outside_2013_consumption_data) = []
      \/ wide_columns outside_2013_consumption_data = [])
  /\ consumption_melted outside_2013_consumption_data = []
  /\ all_households (consumption_melted outside_2013_consumption_data) = []
  /\ households_to_remove (consumption_melted outside_2013_consumption_data) = []
  /\ consumption_and_tariff_data_hourly example_tariff_data
                                        outside_2013_consumption_data = [].
Proof.
  assert (H : wide_rows (consumption_data_filtered outside_2013_consumption_data) = []
              \/ wide_columns outside_2013_consumption_data = []).
  { left. vm_compute. reflexivity. }
  assert (Hrows : wide_rows outside_2013_consumption_data <> []) by discriminate.
  assert (Htariff : example_tariff_data <> []) by discriminate.
  split; [exact Hrows |]. split; [exact Htariff |]. split; [exact H |].
  apply (empty_consumption_gives_empty_output
           example_tariff_data outside_2013_consumption_data Hrows Htariff H).
Defined.

(** [weather_output_closed_form] with the stable sort on the three example
    files. *)
Lemma weather_output_closed_form_example :
  sorts_by_index sort_index_stable
  /\ example_weather <> []
  /\ (let df := deduplicated_rows sort_index_stable example_weather in
      weather_deduplicated sort_index_stable example_weather = Some df
      /\ merged_weather_data sort_index_stable example_weather = Some (interleaved df)
      /\ StronglySorted Z.lt (index (interleaved df))
      /\ (forall ts, In ts (index (concat example_weather)) ->
                     In ts (index (interleaved df)))
      /\ length (interleaved df)
         = (length (nodup Z.eq_dec (index (concat example_weather)))
            + length (synthesized_rows df))%nat).
Proof.
  assert (Hfiles : example_weather <> []) by discriminate.
  split; [apply sort_index_stable_sorts |].
  split; [exact Hfiles |].
  apply (weather_output_closed_form sort_index_stable sort_index_stable_sorts
                                    example_weather Hfiles).
Defined.

(** [weather_output_has_no_two_hour_distance] with the stable sort on the
    three example files. *)
Lemma weather_output_has_no_two_hour_distance_example :
  sorts_by_index sort_index_stable
  /\ example_weather <> []
  /\ exists out,
      merged_weather_data sort_index_stable example_weather = Some out
      /\ Forall (fun e => snd e <> Timedelta_hours 2) (time_diffs (index out))
      /\ (forall prev next, neighbours out prev next ->
                            datetime next - datetime prev <> Timedelta_hours 2)
      /\ merged_weather_data sort_index_stable [out] = Some out.
Proof.
  assert (Hfiles : example_weather <> []) by discriminate.
  split; [apply sort_index_stable_sorts |].
  split; [exact Hfiles |].
  apply (weather_output_has_no_two_hour_distance
           sort_index_stable sort_index_stable_sorts example_weather Hfiles).
Defined.
